(** * esbuild-webserver: endpoint parsing, handlers and router assembly

    A shallow embedding of the [webserver] package on a Unix host.  The
    repository holds two revisions of [server.go]; the development follows
    the one whose [Server] keeps its endpoints in a slice
    ([endpoints []*Endpoint]) and whose static-file handler resolves paths
    with [filepath.Abs]; module [MapKeyed] below embeds what the other
    revision ([pkg/server.go], with [endpoints map[string]http.Handler])
    does differently.

    Go strings are byte strings ([string]).  The file system, the working
    directory and the two library functions the package calls with data of
    its own ([url.Parse], [mime.TypeByExtension]) are fields of an
    environment record.  A handler runs in a small state monad over the
    [http.ResponseWriter] and a trace of the effects it performs. *)

From Stdlib Require Import String Ascii List Bool Arith Lia DecimalString.
Import ListNotations.
Open Scope list_scope.
Open Scope string_scope.

Set Warnings "-register-all".

(** ** Results of fallible Go code

    A Go function returning [(T, error)] either returns a value, returns a
    non-nil error, or panics at run time. *)

Inductive result (A : Type) : Type :=
| Ok (a : A)
| Err (msg : string)
| Panic (msg : string).

Arguments Ok {A} a.
Arguments Err {A} msg.
Arguments Panic {A} msg.

Definition rbind {A B} (r : result A) (k : A -> result B) : result B :=
  match r with
  | Ok a => k a
  | Err m => Err m
  | Panic m => Panic m
  end.

Notation "'do' x <- r ; k" := (rbind r (fun x => k))
  (at level 10, x name, r at level 100, k at level 200).

(** ** Byte strings *)

Module GoString.

Definition slash : ascii := "/"%char.
Definition dot : ascii := "."%char.

(** [s[:n]] and [s[n:]] for [n <= len(s)]. *)
Fixpoint slice_to (s : string) (n : nat) : string :=
  match n, s with
  | S n', String c s' => String c (slice_to s' n')
  | _, _ => EmptyString
  end.

Fixpoint slice_from (s : string) (n : nat) : string :=
  match n, s with
  | S n', String c s' => slice_from s' n'
  | _, _ => s
  end.

(** [strings.HasPrefix(s, prefix)]. *)
Definition HasPrefix (s pre : string) : bool := String.prefix pre s.

(** [strings.Index(s, sep)]; [None] stands for -1. *)
Definition Index (s sep : string) : option nat := String.index 0 sep s.

(** The loop of [strings.genSplit] for a non-empty separator:
    at most [n] cuts, each piece keeping [sepSave] bytes of the separator. *)
Fixpoint genSplit_loop (n : nat) (s sep : string) (sepSave : nat) : list string :=
  match n with
  | 0 => [s]
  | S n' =>
      match Index s sep with
      | None => [s]
      | Some m =>
          slice_to s (m + sepSave)
            :: genSplit_loop n' (slice_from s (m + String.length sep)) sep sepSave
      end
  end.

(** [strings.SplitAfterN(s, sep, n)] for a non-empty [sep] and [n >= 0]
    (both call sites pass a one-byte separator and [n = 2]). *)
Definition SplitAfterN (s sep : string) (n : nat) : list string :=
  match n with
  | 0 => []
  | S _ =>
      let n := if (String.length s + 1 <? n)%nat then String.length s + 1 else n in
      genSplit_loop (n - 1) s sep (String.length sep)
  end.

(** [strings.Replace(s, old, new, n)] for a non-empty [old] and [n >= 0]:
    the first [n] occurrences of [old] are replaced. *)
Fixpoint Replace (s old new : string) (n : nat) : string :=
  match n with
  | 0 => s
  | S n' =>
      match Index s old with
      | None => s
      | Some m =>
          slice_to s m ++ new
            ++ Replace (slice_from s (m + String.length old)) old new n'
      end
  end.

(** [strings.Join(elems, sep)]. *)
Fixpoint Join (elems : list string) (sep : string) : string :=
  match elems with
  | [] => ""
  | [e] => e
  | e :: rest => e ++ sep ++ Join rest sep
  end.

End GoString.
Import GoString.

(** ** [path.Clean], [filepath.Join], [filepath.Abs] (Unix) *)

Module Filepath.

(** The output buffer of [Clean] ([lazybuf]) holds the bytes written so
    far; it is kept most recent byte first, so [out.w] is its length and
    [out.w--] drops its head. *)
Definition lazybuf := list ascii.

(** [out.w--; for out.w > dotdot && out.index(out.w) != '/' { out.w-- }]:
    [c] is the byte at index [out.w], the one dropped last. *)
Fixpoint backtrack_loop (dotdot : nat) (out : lazybuf) (c : ascii) : lazybuf :=
  match out with
  | [] => []
  | c' :: out' =>
      if (dotdot <? List.length out)%nat && negb (Ascii.eqb c slash)
      then backtrack_loop dotdot out' c'
      else out
  end.

Definition backtrack (dotdot : nat) (out : lazybuf) : lazybuf :=
  match out with
  | [] => []
  | c :: out' => backtrack_loop dotdot out' c
  end.

(** The bytes of the next path element and what follows it:
    [for ; r < n && path[r] != '/'; r++ { out.append(path[r]) }]. *)
Fixpoint copy_element (p : list ascii) (out : lazybuf) : list ascii * lazybuf :=
  match p with
  | [] => ([], out)
  | c :: p' =>
      if Ascii.eqb c slash then (p, out) else copy_element p' (c :: out)
  end.

Definition at_end_or_slash (p : list ascii) : bool :=
  match p with
  | [] => true
  | c :: _ => Ascii.eqb c slash
  end.

(** One iteration of [for r < n { switch ... }] on the unread input
    [path[r:]], the buffer and [dotdot]. *)
Definition clean_step (rooted : bool) (p : list ascii) (out : lazybuf) (dotdot : nat)
  : list ascii * lazybuf * nat :=
  match p with
  | [] => ([], out, dotdot)
  | c :: p1 =>
      if Ascii.eqb c slash then
        (* empty path element *)
        (p1, out, dotdot)
      else if Ascii.eqb c dot && at_end_or_slash p1 then
        (* . element *)
        (p1, out, dotdot)
      else if Ascii.eqb c dot
              && match p1 with
                 | c1 :: p2 => Ascii.eqb c1 dot && at_end_or_slash p2
                 | [] => false
                 end then
        (* .. element: remove to last / *)
        let p2 := List.tl p1 in
        if (dotdot <? List.length out)%nat then
          (p2, backtrack dotdot out, dotdot)
        else if negb rooted then
          let out1 := if (0 <? List.length out)%nat then slash :: out else out in
          let out2 := dot :: dot :: out1 in
          (p2, out2, List.length out2)
        else (p2, out, dotdot)
      else
        (* real path element: add slash if needed, copy element *)
        let out1 :=
          if (rooted && negb (List.length out =? 1)%nat)
             || (negb rooted && negb (List.length out =? 0)%nat)
          then slash :: out else out in
        let '(rest, out2) := copy_element p out1 in
        (rest, out2, dotdot)
  end.

(** The loop itself; every iteration on a non-empty input consumes at
    least one byte, so [length p] iterations are enough. *)
Fixpoint clean_loop (fuel : nat) (rooted : bool) (p : list ascii)
         (out : lazybuf) (dotdot : nat) : lazybuf * nat :=
  match fuel with
  | 0 => (out, dotdot)
  | S fuel' =>
      match p with
      | [] => (out, dotdot)
      | _ :: _ =>
          let '(p', out', dotdot') := clean_step rooted p out dotdot in
          clean_loop fuel' rooted p' out' dotdot'
      end
  end.

(** [path.Clean]; on Unix [filepath.Clean] is the same function. *)
Definition Clean (path : string) : string :=
  match path with
  | EmptyString => "."
  | String c0 _ =>
      let rooted := Ascii.eqb c0 slash in
      let p := list_ascii_of_string path in
      let '(out, _) :=
        if rooted
        then clean_loop (List.length p) rooted (List.tl p) [slash] 1
        else clean_loop (List.length p) rooted p [] 0 in
      match out with
      | [] => "."
      | _ :: _ => string_of_list_ascii (List.rev out)
      end
  end.

(** [filepath.Join(elem...)] (Unix): the elements from the first
    non-empty one on, joined by the separator and cleaned. *)
Fixpoint Join (elem : list string) : string :=
  match elem with
  | [] => ""
  | e :: rest =>
      if String.eqb e "" then Join rest
      else Clean (GoString.Join elem "/")
  end.

(** [filepath.IsAbs] (Unix). *)
Definition IsAbs (path : string) : bool := HasPrefix path "/".

(** [filepath.Abs] (Unix), given the outcome of [os.Getwd]: a value
    ([inl]) or an error ([inr]). *)
Definition Abs (getwd : string + string) (path : string) : string + string :=
  if IsAbs path then inl (Clean path)
  else
    match getwd with
    | inl wd => inl (Join [wd; path])
    | inr err => inr err
    end.

(** [filepath.Ext]: the suffix from the last dot of the last element. *)
Fixpoint Ext_rev (rp : list ascii) (acc : list ascii) : list ascii :=
  match rp with
  | [] => []
  | c :: rp' =>
      if Ascii.eqb c slash then []
      else if Ascii.eqb c dot then c :: acc
      else Ext_rev rp' (c :: acc)
  end.

Definition Ext (path : string) : string :=
  string_of_list_ascii (Ext_rev (List.rev (list_ascii_of_string path)) []).

End Filepath.

(** ** [mime.TypeByExtension] *)

Module Mime.

(** [mime.builtinTypesLower], the table the package starts from. *)
Definition builtinTypesLower : list (string * string) :=
  [ (".avif", "image/avif");
    (".css", "text/css; charset=utf-8");
    (".gif", "image/gif");
    (".htm", "text/html; charset=utf-8");
    (".html", "text/html; charset=utf-8");
    (".jpeg", "image/jpeg");
    (".jpg", "image/jpeg");
    (".js", "text/javascript; charset=utf-8");
    (".json", "application/json");
    (".mjs", "text/javascript; charset=utf-8");
    (".pdf", "application/pdf");
    (".png", "image/png");
    (".svg", "image/svg+xml");
    (".wasm", "application/wasm");
    (".webp", "image/webp");
    (".xml", "text/xml; charset=utf-8") ].

Fixpoint Load (m : list (string * string)) (k : string) : option string :=
  match m with
  | [] => None
  | (k', v) :: m' => if String.eqb k' k then Some v else Load m' k
  end.

(** ['A' <= c && c <= 'Z'] ? [c + ('a' - 'A')] : [c]. *)
Definition lower_byte (c : ascii) : ascii :=
  let n := nat_of_ascii c in
  if (65 <=? n)%nat && (n <=? 90)%nat then ascii_of_nat (n + 32) else c.

Fixpoint lower (s : string) : string :=
  match s with
  | EmptyString => EmptyString
  | String c s' => String (lower_byte c) (lower s')
  end.

(** [mime.TypeByExtension] over the case-sensitive and the lower-case
    tables: an exact look-up, then a look-up of the lower-cased extension
    (lower-casing is modelled on ASCII letters); the empty string when the
    extension is unknown. *)
Definition TypeByExtensionIn (mimeTypes mimeTypesLower : list (string * string))
           (ext : string) : string :=
  match Load mimeTypes ext with
  | Some v => v
  | None =>
      match Load mimeTypesLower (lower ext) with
      | Some s => s
      | None => ""
      end
  end.

(** The function on a host with no system MIME files. *)
Definition builtinTypeByExtension : string -> string :=
  TypeByExtensionIn builtinTypesLower builtinTypesLower.

End Mime.

(** ** Requests, the environment and the response writer *)

(** [url.URL], the fields the package reads or writes. *)
Record URL : Type := mkURL {
  Scheme : string;
  Host : string;
  Path : string;
  RawQuery : string
}.

(** [http.Request]: [RequestURI] is the request target as the client sent
    it (path and query, undecoded); [ReqURL] is [req.URL], parsed from it;
    [ReqHost] is [req.Host]. *)
Record Request : Type := mkRequest {
  Method : string;
  RequestURI : string;
  ReqURL : URL;
  ReqHost : string
}.

(** An open [*os.File]: the bytes successive reads deliver, then end of
    file ([None]) or a read error. *)
Record File : Type := mkFile {
  data : string;
  readErr : option string
}.

(** What the package gets from its host and from the Go libraries.
    A Go pair [(v, err)] is [inl v] or [inr err]; [Stat] yields
    [FileInfo.IsDir()]. *)
Record Env : Type := mkEnv {
  Getwd : string + string;
  Stat : string -> bool + string;
  Open : string -> File + string;
  TypeByExtension : string -> string;
  url_Parse : string -> URL + string
}.

(** The effects a handler performs besides writing the response. *)
Inductive Event : Type :=
| EvStat (name : string)
| EvOpen (name : string)
| EvLog (line : string)
| EvRoundTrip (outreq : Request).

(** [http.ResponseWriter]: the header map, the status once
    [WriteHeader] has run, the body written so far. *)
Record ResponseWriter : Type := mkWriter {
  Header : list (string * string);
  wroteHeader : option nat;
  Body : string
}.

Definition newWriter : ResponseWriter :=
  {| Header := []; wroteHeader := None; Body := "" |}.

(** The status the server sends: 200 unless [WriteHeader] said otherwise. *)
Definition StatusCode (w : ResponseWriter) : nat :=
  match wroteHeader w with
  | Some code => code
  | None => 200
  end.

Fixpoint Header_Get (h : list (string * string)) (key : string) : option string :=
  match h with
  | [] => None
  | (k, v) :: h' => if String.eqb k key then Some v else Header_Get h' key
  end.

Fixpoint Header_Del (h : list (string * string)) (key : string) : list (string * string) :=
  match h with
  | [] => []
  | (k, v) :: h' =>
      if String.eqb k key then Header_Del h' key else (k, v) :: Header_Del h' key
  end.

Record St : Type := mkSt {
  writer : ResponseWriter;
  trace : list Event
}.

Definition M (A : Type) : Type := St -> A * St.

Definition ret {A} (a : A) : M A := fun s => (a, s).

Definition bind {A B} (m : M A) (k : A -> M B) : M B :=
  fun s => let '(a, s') := m s in k a s'.

Notation "x <- m ;; k" := (bind m (fun x => k))
  (at level 61, m at next level, right associativity).
Notation "m ;;; k" := (bind m (fun _ => k))
  (at level 61, right associativity).

Definition emit (e : Event) : M unit :=
  fun s => (tt, {| writer := writer s; trace := trace s ++ [e] |}).

Definition modify_writer (f : ResponseWriter -> ResponseWriter) : M unit :=
  fun s => (tt, {| writer := f (writer s); trace := trace s |}).

(** [w.Header().Set(key, value)]. *)
Definition Header_Set (key value : string) : M unit :=
  modify_writer (fun w =>
    {| Header := (key, value) :: Header_Del (Header w) key;
       wroteHeader := wroteHeader w; Body := Body w |}).

(** [w.WriteHeader(code)]: only the first call counts. *)
Definition WriteHeader (code : nat) : M unit :=
  modify_writer (fun w =>
    {| Header := Header w;
       wroteHeader := match wroteHeader w with
                      | Some c => Some c
                      | None => Some code
                      end;
       Body := Body w |}).

(** [w.Write(b)]: writes the header with 200 if none was written. *)
Definition Write (b : string) : M unit :=
  WriteHeader 200 ;;;
  modify_writer (fun w =>
    {| Header := Header w; wroteHeader := wroteHeader w; Body := Body w ++ b |}).

(** The line feed. *)
Definition nl : string := String (ascii_of_nat 10) "".

(** [http.Error(w, error, code)]. *)
Definition http_Error (error : string) (code : nat) : M unit :=
  modify_writer (fun w =>
    {| Header := Header_Del (Header w) "Content-Length";
       wroteHeader := wroteHeader w; Body := Body w |}) ;;;
  Header_Set "Content-Type" "text/plain; charset=utf-8" ;;;
  Header_Set "X-Content-Type-Options" "nosniff" ;;;
  WriteHeader code ;;;
  Write (error ++ nl).

Definition os_Stat (env : Env) (name : string) : M (bool + string) :=
  emit (EvStat name) ;;; ret (Stat env name).

Definition os_Open (env : Env) (name : string) : M (File + string) :=
  emit (EvOpen name) ;;; ret (Open env name).

(** [io.ReadAll(file)]. *)
Definition io_ReadAll (f : File) : string + string :=
  match readErr f with
  | None => inl (data f)
  | Some err => inr err
  end.

(** [io.Copy(w, file)]: what could be read is written, and the read error,
    if any, is returned. *)
Definition io_Copy (f : File) : M (option string) :=
  (if String.eqb (data f) "" then ret tt else Write (data f)) ;;;
  ret (readErr f).

(** [logger.Printf] and [log.Printf], with the line already formatted. *)
Definition Printf (line : string) : M unit := emit (EvLog line).

(** ** Handlers *)

(** The [http.Handler]s of the package.  [ReverseProxy destUrl] is the
    [httputil.ReverseProxy] whose director closes over [destUrl];
    [LoggingMiddleware next] is the handler the middleware returns.  The
    shared logger of [filesystemHandler] writes to the trace. *)
Inductive Handler : Type :=
| ReverseProxy (destUrl : URL)
| filesystemHandler (path : string) (notFoundHandler : option Handler)
| NotFoundFileHandler (filePath : string)
| LoggingMiddleware (next : Handler).

(** The director of [reverseProxy]. *)
Definition director (destUrl : URL) (req : Request) : Request :=
  {| Method := Method req;
     RequestURI := RequestURI req;
     ReqURL := {| Scheme := Scheme destUrl;
                  Host := Host destUrl;
                  Path := Path destUrl ++ Path (ReqURL req);
                  RawQuery := RawQuery (ReqURL req) |};
     ReqHost := ReqHost req |}.

(** [filesystemHandler.ServeHTTP], the request target with one leading
    slash stripped and the empty string replaced. *)
Definition requestFile (req : Request) : string :=
  let uri := RequestURI req in
  let uri := if HasPrefix uri "/" then slice_from uri 1 else uri in
  if String.eqb uri "" then "./" else uri.

(** [filesystemHandler.ServeHTTP], from [fullPath] to [absFilePath]. *)
Definition absFilePathOf (env : Env) (fpath : string) (req : Request) : string + string :=
  let fullPath := Filepath.Join [fpath; "/"; requestFile req] in
  let cleanPath := Filepath.Clean fullPath in
  Filepath.Abs (Getwd env) cleanPath.

Section ServeHTTP.

Variable env : Env.

(** [Handler.ServeHTTP(writer, request)] for each kind of handler. *)
Fixpoint ServeHTTP (h : Handler) (request : Request) {struct h} : M unit :=
  match h with
  | ReverseProxy destUrl =>
      (* the outbound request goes to the transport; the upstream's
         response is not part of this model *)
      emit (EvRoundTrip (director destUrl request))
  | LoggingMiddleware next =>
      Printf (Method request ++ " - " ++ RequestURI request ++ nl) ;;;
      ServeHTTP next request
  | NotFoundFileHandler filePath =>
      f <- os_Open env filePath ;;
      match f with
      | inr _ => Write "unable to get 404 page"
      | inl f =>
          err <- io_Copy f ;;
          match err with
          | Some _ => Write "unable to send 404 page"
          | None => ret tt
          end
      end
  | filesystemHandler fpath notFoundHandler =>
      let uri := requestFile request in
      match absFilePathOf env fpath request with
      | inr err =>
          Printf ("cannot get abs path for "
                    ++ Filepath.Clean (Filepath.Join [fpath; "/"; uri])
                    ++ ": " ++ err) ;;;
          http_Error "404 - Not found" 404
      | inl absFilePath =>
          if negb (HasPrefix absFilePath fpath) then
            Printf ("path traversal: " ++ absFilePath) ;;;
            http_Error "404 - Not found" 404
          else
            stat <- os_Stat env absFilePath ;;
            match stat with
            | inr err =>
                Printf ("unable to open file " ++ uri ++ ": " ++ err) ;;;
                match notFoundHandler with
                | None =>
                    http_Error "404 - Not found (not found handler missing)" 404
                | Some nf => ServeHTTP nf request
                end
            | inl isDir =>
                let absFilePath :=
                  if isDir then absFilePath ++ "/index.html" else absFilePath in
                file <- os_Open env absFilePath ;;
                match file with
                | inr err =>
                    Printf ("unable to open file " ++ uri ++ ": " ++ err) ;;;
                    match notFoundHandler with
                    | None => http_Error "404 - Not found" 404
                    | Some nf => ServeHTTP nf request
                    end
                | inl file =>
                    match io_ReadAll file with
                    | inr _ => http_Error "Internal server error" 500
                    | inl fileBytes =>
                        let contentType :=
                          TypeByExtension env ("." ++ Filepath.Ext absFilePath) in
                        Header_Set "Content-Type" contentType ;;;
                        Write fileBytes
                    end
                end
            end
      end
  end.

(** The response and the effects of serving [request] from scratch. *)
Definition serve (h : Handler) (request : Request) : St :=
  snd (ServeHTTP h request {| writer := newWriter; trace := [] |}).

End ServeHTTP.

(** ** Endpoints and the server *)

Record Endpoint : Type := mkEndpoint {
  MountPoint : string;
  Destination : Handler
}.

Record Server : Type := mkServer {
  endpoints : list Endpoint
}.

(** [a[i]] on a slice: a run-time panic when [i] is out of range. *)
Definition slice_index {A} (a : list A) (i : nat) : result A :=
  match nth_error a i with
  | Some x => Ok x
  | None =>
      Panic ("runtime error: index out of range ["
               ++ NilEmpty.string_of_uint (Nat.to_uint i) ++ "] with length "
               ++ NilEmpty.string_of_uint (Nat.to_uint (List.length a)))
  end.

Section Parse.

Variable env : Env.

Definition reverseProxy (dest : string) : result Handler :=
  match url_Parse env dest with
  | inr err => Err ("unable to parse URL: " ++ err)
  | inl destUrl => Ok (ReverseProxy destUrl)
  end.

(** [Server.newFSHandler]; the debug line it logs is left out. *)
Definition newFSHandler (path : string) : result Handler :=
  match Filepath.Abs (Getwd env) path with
  | inr err => Panic err
  | inl absPath => Ok (filesystemHandler absPath None)
  end.

Definition staticFiles (path : string) : result Handler := newFSHandler path.

Definition NewNotFoundHandler (filePath : string) : Handler :=
  NotFoundFileHandler filePath.

Definition notFound (file : string) : Handler := NewNotFoundHandler file.

Definition parseDest (dest : string) : result Handler :=
  let split := SplitAfterN dest "=" 2 in
  do s0 <- slice_index split 0;
  let typeName := Replace s0 "=" "" 1 in
  do argument <- slice_index split 1;
  if String.eqb typeName "proxy" then
    match reverseProxy argument with
    | Err err => Err ("unable to parse proxy: " ++ err)
    | r => r
    end
  else if String.eqb typeName "file" then staticFiles argument
  else if String.eqb typeName "404" then Ok (notFound argument)
  else Err ("unknown type " ++ typeName).

Definition parseEndpoint (e : string) : result Endpoint :=
  let split := SplitAfterN e ":" 2 in
  do s0 <- slice_index split 0;
  let source := Replace s0 ":" "" 1 in
  do s1 <- slice_index split 1;
  do destObj <- parseDest s1;
  Ok {| MountPoint := source; Destination := destObj |}.

(** The loop of [New]: [server.endpoints = append(server.endpoints, ...)]
    for each string, with the early return on the first error.  The
    logger [New] creates is the trace of the handlers. *)
Fixpoint New_loop (es : list string) (server : Server) : result Server :=
  match es with
  | [] => Ok server
  | e :: es' =>
      match parseEndpoint e with
      | Ok parsedEndpoint =>
          New_loop es' {| endpoints := endpoints server ++ [parsedEndpoint] |}
      | Err err => Err ("unable to parse endpoint: " ++ err)
      | Panic m => Panic m
      end
  end.

Definition New (es : list string) : result Server :=
  New_loop es {| endpoints := [] |}.

End Parse.

(** ** Router assembly ([Server.Start], up to [http.ListenAndServe]) *)

(** The [mux.Router] as [Start] fills it: the middlewares in use, the
    not-found handler, and the [PathPrefix] routes in registration order.
    Matching a request against the routes is the router's business. *)
Record Router : Type := mkRouter {
  middlewares : list (Handler -> Handler);
  NotFoundHandler : option Handler;
  routes : list (string * Handler)
}.

(** First loop of [Start]: every [NotFoundFileHandler] endpoint sets
    [r.NotFoundHandler]. *)
Definition Start_notFound (r : Router) (e : Endpoint) : Router :=
  match Destination e with
  | NotFoundFileHandler _ =>
      {| middlewares := middlewares r;
         NotFoundHandler := Some (LoggingMiddleware (Destination e));
         routes := routes r |}
  | _ => r
  end.

(** Second loop of [Start]: one [PathPrefix] route per endpoint that is
    not a [NotFoundFileHandler]; a [filesystemHandler] gets the router's
    not-found handler. *)
Definition Start_route (r : Router) (e : Endpoint) : Router :=
  match Destination e with
  | filesystemHandler fpath _ =>
      let fsHandler := filesystemHandler fpath (NotFoundHandler r) in
      {| middlewares := middlewares r;
         NotFoundHandler := NotFoundHandler r;
         routes := routes r ++ [(MountPoint e, fsHandler)] |}
  | NotFoundFileHandler _ => r
  | _ =>
      {| middlewares := middlewares r;
         NotFoundHandler := NotFoundHandler r;
         routes := routes r ++ [(MountPoint e, Destination e)] |}
  end.

(** [mux.NewRouter()] followed by [r.Use(LoggingMiddleware)]. *)
Definition NewRouter : Router :=
  {| middlewares := [LoggingMiddleware]; NotFoundHandler := None; routes := [] |}.

(** [Start] up to the call of [http.ListenAndServe]; the lines it prints
    for the routes are left out. *)
Definition Start (s : Server) : Router :=
  let r := NewRouter in
  let r := fold_left Start_notFound (endpoints s) r in
  fold_left Start_route (endpoints s) r.

(** ** The map-keyed revision of the package ([pkg/server.go])

    The repository also holds a revision of [server.go] in which
    [Server.endpoints] is a [map[string]http.Handler].  It differs from the
    one above in these places, modelled here: [New] stores each endpoint
    under its mount point; [newFSHandler] keeps the path as given;
    [ServeHTTP] compares [filepath.FromSlash] of the cleaned path with
    [filepath.FromSlash] of the root, without [filepath.Abs], and has one
    404 message; and the director also sets [req.Host].  Its [Start]
    ranges over the map, so the order in which it registers routes is not
    specified. *)

Module MapKeyed.

(** A [map[string]http.Handler], by what each key holds. *)
Definition HandlerMap : Type := string -> option Handler.

Definition map_empty : HandlerMap := fun _ => None.

(** [m[k] = v]. *)
Definition map_store (m : HandlerMap) (k : string) (v : Handler) : HandlerMap :=
  fun k' => if String.eqb k' k then Some v else m k'.

Record Server : Type := mkServer {
  endpoints : HandlerMap
}.

Definition director (destUrl : URL) (req : Request) : Request :=
  {| Method := Method req;
     RequestURI := RequestURI req;
     ReqURL := {| Scheme := Scheme destUrl;
                  Host := Host destUrl;
                  Path := Path destUrl ++ Path (ReqURL req);
                  RawQuery := RawQuery (ReqURL req) |};
     ReqHost := Host destUrl |}.

(** [filepath.FromSlash] where the separator is ['/']. *)
Definition FromSlash (path : string) : string := path.

Definition newFSHandler (path : string) : Handler := filesystemHandler path None.

Definition staticFiles (path : string) : Handler := newFSHandler path.

Section WithEnv.

Variable env : Env.

Fixpoint ServeHTTP (h : Handler) (request : Request) {struct h} : M unit :=
  match h with
  | ReverseProxy destUrl => emit (EvRoundTrip (director destUrl request))
  | LoggingMiddleware next =>
      Printf (Method request ++ " - " ++ RequestURI request ++ nl) ;;;
      ServeHTTP next request
  | NotFoundFileHandler filePath =>
      f <- os_Open env filePath ;;
      match f with
      | inr _ => Write "unable to get 404 page"
      | inl f =>
          err <- io_Copy f ;;
          match err with
          | Some _ => Write "unable to send 404 page"
          | None => ret tt
          end
      end
  | filesystemHandler fpath notFoundHandler =>
      let uri := requestFile request in
      let fullPath := Filepath.Join [fpath; "/"; uri] in
      let cleanPath := Filepath.Clean fullPath in
      let fromSlash := FromSlash cleanPath in
      if negb (HasPrefix fromSlash (FromSlash fpath)) then
        Printf ("path traversal: " ++ fromSlash) ;;;
        http_Error "404 - Not found" 404
      else
        stat <- os_Stat env fromSlash ;;
        match stat with
        | inr err =>
            Printf ("unable to open file " ++ uri ++ ": " ++ err) ;;;
            match notFoundHandler with
            | None => http_Error "404 - Not found" 404
            | Some nf => ServeHTTP nf request
            end
        | inl isDir =>
            let fromSlash :=
              if isDir then fromSlash ++ "/index.html" else fromSlash in
            file <- os_Open env fromSlash ;;
            match file with
            | inr err =>
                Printf ("unable to open file " ++ uri ++ ": " ++ err) ;;;
                match notFoundHandler with
                | None => http_Error "404 - Not found" 404
                | Some nf => ServeHTTP nf request
                end
            | inl file =>
                match io_ReadAll file with
                | inr _ => http_Error "Internal server error" 500
                | inl fileBytes =>
                    let contentType :=
                      TypeByExtension env ("." ++ Filepath.Ext fromSlash) in
                    Header_Set "Content-Type" contentType ;;;
                    Write fileBytes
                end
            end
        end
  end.

Definition serve (h : Handler) (request : Request) : St :=
  snd (ServeHTTP h request {| writer := newWriter; trace := [] |}).

Definition parseDest (dest : string) : result Handler :=
  let split := SplitAfterN dest "=" 2 in
  do s0 <- slice_index split 0;
  let typeName := Replace s0 "=" "" 1 in
  do argument <- slice_index split 1;
  if String.eqb typeName "proxy" then
    match reverseProxy env argument with
    | Err err => Err ("unable to parse proxy: " ++ err)
    | r => r
    end
  else if String.eqb typeName "file" then Ok (staticFiles argument)
  else if String.eqb typeName "404" then Ok (notFound argument)
  else Err ("unknown type " ++ typeName).

Definition parseEndpoint (e : string) : result Endpoint :=
  let split := SplitAfterN e ":" 2 in
  do s0 <- slice_index split 0;
  let source := Replace s0 ":" "" 1 in
  do s1 <- slice_index split 1;
  do destObj <- parseDest s1;
  Ok {| MountPoint := source; Destination := destObj |}.

(** The loop of [New]:
    [server.endpoints[parsedEndpoint.MountPoint] = parsedEndpoint.Destination]. *)
Fixpoint New_loop (es : list string) (server : Server) : result Server :=
  match es with
  | [] => Ok server
  | e :: es' =>
      match parseEndpoint e with
      | Ok parsedEndpoint =>
          New_loop es'
            {| endpoints := map_store (endpoints server)
                                      (MountPoint parsedEndpoint)
                                      (Destination parsedEndpoint) |}
      | Err err => Err ("unable to parse endpoint: " ++ err)
      | Panic m => Panic m
      end
  end.

Definition New (es : list string) : result Server :=
  New_loop es {| endpoints := map_empty |}.

End WithEnv.

End MapKeyed.

(** ** The command ([main.go]) *)

(** The arguments [arg.MustParse] fills in. *)
Record Args : Type := mkArgs {
  Endpoints : list string;
  Listen : string
}.

(** How [main] goes on after the arguments are parsed: [logrus.Fatalf]
    with a message, a panic nothing recovers, or the call of
    [http.ListenAndServe] on the router [Start] has assembled (whatever
    that call returns is fatal as well).  The lines printed on standard
    output are left out. *)
Inductive Exit : Type :=
| Fatal (msg : string)
| Crash (msg : string)
| ListenAndServe (addr : string) (r : Router).

Definition main (env : Env) (args : Args) : Exit :=
  match New env (Endpoints args) with
  | Err err => Fatal ("unable to create webserver: " ++ err)
  | Panic m => Crash m
  | Ok s => ListenAndServe (Listen args) (Start s)
  end.

(** ** A sample host *)

Module Sample.

(** A file system given by the regular files and the directories it
    holds. *)
Definition fs_Stat (dirs : list string) (files : list (string * string))
           (name : string) : bool + string :=
  if existsb (String.eqb name) dirs then inl true
  else if existsb (fun f => String.eqb name (fst f)) files then inl false
  else inr ("stat " ++ name ++ ": no such file or directory").

Fixpoint fs_Open (dirs : list string) (files : list (string * string))
         (name : string) : File + string :=
  match files with
  | (n, d) :: files' =>
      if String.eqb name n then inl {| data := d; readErr := None |}
      else fs_Open dirs files' name
  | [] =>
      if existsb (String.eqb name) dirs
      then inl {| data := ""; readErr := Some ("read " ++ name ++ ": is a directory") |}
      else inr ("open " ++ name ++ ": no such file or directory")
  end.

(** *** [url.Parse] on the sample host

    What follows is [Parse] of [net/url] with [parse], [getScheme],
    [parseAuthority], [parseHost] and [validOptionalPort], for strings of
    plain bytes: the ASCII letters and digits and the bytes
    [-._~!$&'()*+,;=:/?#].  On such a string [net/url] has no escape to
    decode, no user information and no bracket, and finds no byte a host
    may not hold, so that what is left is the cutting into fragment,
    scheme, query, authority and path, the check of the port, and the
    [%q] of the error, which puts the string between double quotes and
    changes nothing in it.  Of the [URL] the four fields the program reads
    are kept; an opaque URL has none of host and path.  A string with any
    other byte is outside what the sample host models, and is turned down
    with a message that says so. *)

Definition is_letter (c : ascii) : bool :=
  let n := nat_of_ascii c in
  ((97 <=? n)%nat && (n <=? 122)%nat) || ((65 <=? n)%nat && (n <=? 90)%nat).

Definition is_digit (c : ascii) : bool :=
  let n := nat_of_ascii c in (48 <=? n)%nat && (n <=? 57)%nat.

Definition plain_byte (c : ascii) : bool :=
  is_letter c || is_digit c
  || existsb (Ascii.eqb c) (list_ascii_of_string "-._~!$&'()*+,;=:/?#").

Fixpoint plain (s : string) : bool :=
  match s with
  | EmptyString => true
  | String c s' => plain_byte c && plain s'
  end.

(** [strconv.Quote] of a string of plain bytes. *)
Definition quote (s : string) : string :=
  String "034"%char (s ++ String "034"%char "").

(** [strings.Cut(s, sep)] without its flag. *)
Definition Cut (s sep : string) : string * string :=
  match Index s sep with
  | Some i => (slice_to s i, slice_from s (i + String.length sep))
  | None => (s, "")
  end.

(** [strings.LastIndex(s, c)] and [strings.Count(s, c)] for one byte. *)
Fixpoint LastIndexByte (s : string) (c : ascii) : option nat :=
  match s with
  | EmptyString => None
  | String a s' =>
      match LastIndexByte s' c with
      | Some i => Some (S i)
      | None => if Ascii.eqb a c then Some 0 else None
      end
  end.

Fixpoint CountByte (s : string) (c : ascii) : nat :=
  match s with
  | EmptyString => 0
  | String a s' => (if Ascii.eqb a c then 1 else 0) + CountByte s' c
  end.

(** [strings.HasSuffix(s, c)] for one byte. *)
Definition HasSuffixByte (s : string) (c : ascii) : bool :=
  match String.get (String.length s - 1) s with
  | Some a => Ascii.eqb a c
  | None => false
  end.

(** [getScheme]: [s] is [rawURL[i:]]. *)
Fixpoint getScheme_loop (s : string) (i : nat) (rawURL : string)
  : (string * string) + string :=
  match s with
  | EmptyString => inl ("", rawURL)
  | String c s' =>
      if is_letter c then getScheme_loop s' (S i) rawURL
      else if is_digit c || Ascii.eqb c "+" || Ascii.eqb c "-" || Ascii.eqb c "." then
        if (i =? 0)%nat then inl ("", rawURL) else getScheme_loop s' (S i) rawURL
      else if Ascii.eqb c ":" then
        if (i =? 0)%nat then inr "missing protocol scheme"
        else inl (slice_to rawURL i, slice_from rawURL (i + 1))
      else inl ("", rawURL)
  end.

Definition getScheme (rawURL : string) : (string * string) + string :=
  getScheme_loop rawURL 0 rawURL.

Fixpoint all_digits (s : string) : bool :=
  match s with
  | EmptyString => true
  | String c s' => is_digit c && all_digits s'
  end.

Definition validOptionalPort (port : string) : bool :=
  match port with
  | EmptyString => true
  | String c rest => Ascii.eqb c ":" && all_digits rest
  end.

(** [parseAuthority] and [parseHost] where there is no [@] and no [[]. *)
Definition parseHost (host : string) : string + string :=
  match LastIndexByte host ":" with
  | Some i =>
      let colonPort := slice_from host i in
      if validOptionalPort colonPort then inl host
      else inr ("invalid port " ++ quote colonPort ++ " after host")
  | None => inl host
  end.

(** [parse(rawURL, false)]. *)
Definition parse (rawURL : string) : URL + string :=
  if String.eqb rawURL "*"
  then inl {| Scheme := ""; Host := ""; Path := "*"; RawQuery := "" |}
  else
    match getScheme rawURL with
    | inr err => inr err
    | inl (scheme, rest) =>
        let scheme := Mime.lower scheme in
        let '(rest, rawQuery) :=
          if HasSuffixByte rest "?" && (CountByte rest "?" =? 1)%nat
          then (slice_to rest (String.length rest - 1), "")
          else Cut rest "?" in
        if negb (HasPrefix rest "/") && negb (String.eqb scheme "") then
          (* a rootless path is opaque *)
          inl {| Scheme := scheme; Host := ""; Path := ""; RawQuery := rawQuery |}
        else if negb (HasPrefix rest "/")
                && match Index (fst (Cut rest "/")) ":" with
                   | Some _ => true
                   | None => false
                   end
        then inr "first path segment in URL cannot contain colon"
        else if (negb (String.eqb scheme "") || negb (HasPrefix rest "///"))
                && HasPrefix rest "//"
        then
          let authority := slice_from rest 2 in
          let '(authority, rest) :=
            match Index authority "/" with
            | Some i => (slice_to authority i, slice_from authority i)
            | None => (authority, "")
            end in
          match parseHost authority with
          | inr err => inr err
          | inl host =>
              inl {| Scheme := scheme; Host := host; Path := rest;
                     RawQuery := rawQuery |}
          end
        else inl {| Scheme := scheme; Host := ""; Path := rest; RawQuery := rawQuery |}
    end.

(** [Parse(rawURL)]: the fragment is cut off first, and an error names
    what is left. *)
Definition parse_url (rawURL : string) : URL + string :=
  if plain rawURL then
    let u := fst (Cut rawURL "#") in
    match parse u with
    | inl url => inl url
    | inr err => inr ("parse " ++ quote u ++ ": " ++ err)
    end
  else inr "sample host: URL with a byte outside the plain ones".

Definition host (dirs : list string) (files : list (string * string)) : Env :=
  {| Getwd := inl "/home/dev";
     Stat := fs_Stat dirs files;
     Open := fs_Open dirs files;
     TypeByExtension := Mime.builtinTypeByExtension;
     url_Parse := parse_url |}.

Definition GET (uri path query : string) : Request :=
  {| Method := "GET";
     RequestURI := uri;
     ReqURL := {| Scheme := ""; Host := ""; Path := path; RawQuery := query |};
     ReqHost := "localhost:8000" |}.

(** [/srv/dist] holds [index.html]; [/srv/dist-secret], next to it,
    holds [f]. *)
Definition srv : Env :=
  host ["/srv"; "/srv/dist"; "/srv/dist-secret"]
       [("/srv/dist/index.html", "<html>hello</html>");
        ("/srv/dist-secret/f", "secret");
        ("/etc/passwd", "root:x:0:0")].

End Sample.

(** ** Notions the properties are stated with *)

(** What [http.Error(w, body, 404)] leaves in a fresh writer. *)
Definition notFoundWriter (body : string) : ResponseWriter :=
  {| Header := [("X-Content-Type-Options", "nosniff");
                ("Content-Type", "text/plain; charset=utf-8")];
     wroteHeader := Some 404;
     Body := body ++ nl |}.

(** [p] names the directory [root] or something below it.  No code of the
    package computes this; the properties use it to say what lies inside
    the root. *)
Definition within_root (root p : string) : bool :=
  String.eqb p root
  || HasPrefix p (if String.eqb root "/" then "/" else root ++ "/").

(** The resolved path cannot be served: [os.Stat] fails, or it succeeds
    and [os.Open] of the file to send fails. *)
Definition stat_or_open_fails (env : Env) (p : string) : Prop :=
  (exists err, Stat env p = inr err)
  \/ (exists isDir err,
        Stat env p = inl isDir
        /\ Open env (if isDir then p ++ "/index.html" else p) = inr err).

(** The fallback [Start] wires: a [NotFoundFileHandler] for [filePath],
    bare or behind the logging middleware. *)
Definition serves_file (h : Handler) (filePath : string) : Prop :=
  h = NotFoundFileHandler filePath
  \/ h = LoggingMiddleware (NotFoundFileHandler filePath).

(** A MIME table as the [mime] package fills it: every key is a dot
    followed by an extension that does not itself start with a dot. *)
Definition plain_keys (m : list (string * string)) : Prop :=
  forall k v, In (k, v) m -> k <> "." /\ HasPrefix k ".." = false.

(** What [Start] can leave in [r.NotFoundHandler]. *)
Definition wired_fallback (o : option Handler) : Prop :=
  o = None
  \/ exists filePath, o = Some (LoggingMiddleware (NotFoundFileHandler filePath)).

(** An endpoint [Start] registers as a route. *)
Definition routable (e : Endpoint) : bool :=
  match Destination e with
  | NotFoundFileHandler _ => false
  | _ => true
  end.

(** A path element [Clean] copies: not empty, no separator in it, and
    neither [.] nor [..]. *)
Definition real (seg : list ascii) : Prop :=
  seg <> [] /\ ~ In slash seg /\ seg <> [dot] /\ seg <> [dot; dot].

(** The buffers a rooted [Clean] goes through, last byte first: the root
    slash, then real elements with one slash between them. *)
Inductive canon : Filepath.lazybuf -> Prop :=
| canon_root : canon [slash]
| canon_first (seg : list ascii) : real seg -> canon (rev seg ++ [slash])%list
| canon_more (seg : list ascii) (out : Filepath.lazybuf) :
    real seg -> canon out -> out <> [slash] -> canon (rev seg ++ slash :: out)%list.

(** What [Start] makes of a destination when it registers it: a
    [filesystemHandler] gets the fallback, anything else stays. *)
Definition wire (nf : option Handler) (d : Handler) : Handler :=
  match d with
  | filesystemHandler p _ => filesystemHandler p nf
  | _ => d
  end.

(** The last endpoint of the slice whose destination is a
    [NotFoundFileHandler], behind the logging middleware. *)
Definition lastNotFound (es : list Endpoint) : option Handler :=
  match find (fun e => negb (routable e)) (rev es) with
  | Some e => Some (LoggingMiddleware (Destination e))
  | None => None
  end.

(** The file an event touches, if it touches one. *)
Definition touched (ev : Event) : option string :=
  match ev with
  | EvStat name => Some name
  | EvOpen name => Some name
  | _ => None
  end.

(** What [http.Error(w, body, 500)] leaves in a fresh writer. *)
Definition errorWriter (code : nat) (body : string) : ResponseWriter :=
  {| Header := [("X-Content-Type-Options", "nosniff");
                ("Content-Type", "text/plain; charset=utf-8")];
     wroteHeader := Some code;
     Body := body ++ nl |}.


(** The sample host with a disk that fails while [/srv/dist/index.html]
    is read. *)
Definition srv_read_error : Env :=
  {| Getwd := Getwd Sample.srv;
     Stat := Stat Sample.srv;
     Open := fun name =>
               if String.eqb name "/srv/dist/index.html"
               then inl {| data := "<html>"; readErr := Some "input/output error" |}
               else Open Sample.srv name;
     TypeByExtension := TypeByExtension Sample.srv;
     url_Parse := url_Parse Sample.srv |}.

(** A path that does not begin with a [.] element: it is empty, or its
    first byte is no separator and, if it is a dot, a byte other than a
    separator follows. *)
Definition no_dot_start (l : list ascii) : Prop :=
  match l with
  | [] => True
  | c :: t => c <> slash /\ (c = dot -> exists c2 t', t = c2 :: t' /\ c2 <> slash)
  end.

(** [Clean] is about to write a separator before the next element. *)
Definition sep_needed (rooted : bool) (out : Filepath.lazybuf) : bool :=
  (rooted && negb (List.length out =? 1)%nat)
  || (negb rooted && negb (List.length out =? 0)%nat).

(** The bytes [Clean] has read and not written, for a path of [n] bytes:
    there are never fewer than none, and one is in hand whenever a
    separator is about to be written. *)
Definition slack_ok (n : nat) (rooted : bool) (p : list ascii)
           (out : Filepath.lazybuf) : Prop :=
  List.length out + List.length p <= n
  /\ (Filepath.at_end_or_slash p = true
      \/ List.length out + List.length p < n
      \/ sep_needed rooted out = false).

(** No element of the path is [..]: an element begins at the start of the
    path or behind a separator, and is [..] when two dots are followed by
    a separator or by nothing.  [at_start] says whether [p] begins an
    element. *)
Fixpoint dotdot_free (at_start : bool) (p : list ascii) : bool :=
  match p with
  | [] => true
  | c :: p1 =>
      if Ascii.eqb c slash then dotdot_free true p1
      else if at_start && Ascii.eqb c dot
              && match p1 with
                 | c1 :: p2 => Ascii.eqb c1 dot && Filepath.at_end_or_slash p2
                 | [] => false
                 end
      then false
      else dotdot_free false p1
  end.

(** ** [Start] of the map-keyed revision

    [Start] of [pkg/server.go] ranges twice over the map of endpoints.
    Go visits every entry of a map once, in an order it leaves
    unspecified and that may differ from one loop to the next, so [Start]
    is modelled for given orders of its two loops: [ranges m order] says
    that [order] is one way to range over [m].  The second loop also
    writes each static-file handler back into the map. *)

Module MapKeyedStart.

Definition ranges (m : MapKeyed.HandlerMap) (order : list (string * Handler)) : Prop :=
  NoDup (map fst order) /\ forall k h, In (k, h) order <-> m k = Some h.

(** First loop: [case NotFoundFileHandler: r.NotFoundHandler = LoggingMiddleware(e)]. *)
Definition Start_notFound (r : Router) (ke : string * Handler) : Router :=
  match snd ke with
  | NotFoundFileHandler _ =>
      {| middlewares := middlewares r;
         NotFoundHandler := Some (LoggingMiddleware (snd ke));
         routes := routes r |}
  | _ => r
  end.

(** Second loop, on the router and the map. *)
Definition Start_route (st : Router * MapKeyed.HandlerMap) (ke : string * Handler)
  : Router * MapKeyed.HandlerMap :=
  let '(r, m) := st in
  match snd ke with
  | filesystemHandler fpath _ =>
      let fsHandler := filesystemHandler fpath (NotFoundHandler r) in
      ({| middlewares := middlewares r;
          NotFoundHandler := NotFoundHandler r;
          routes := routes r ++ [(fst ke, fsHandler)] |},
       MapKeyed.map_store m (fst ke) fsHandler)
  | NotFoundFileHandler _ => (r, m)
  | _ =>
      ({| middlewares := middlewares r;
          NotFoundHandler := NotFoundHandler r;
          routes := routes r ++ [(fst ke, snd ke)] |},
       m)
  end.

(** [Start] up to the call of [http.ListenAndServe]: the router, and the
    map as the second loop leaves it. *)
Definition Start (s : MapKeyed.Server) (order1 order2 : list (string * Handler))
  : Router * MapKeyed.HandlerMap :=
  let r := fold_left Start_notFound order1 NewRouter in
  fold_left Start_route order2 (r, MapKeyed.endpoints s).

(** A map entry as an endpoint. *)
Definition entry (ke : string * Handler) : Endpoint :=
  {| MountPoint := fst ke; Destination := snd ke |}.

End MapKeyedStart.
(** * Checks on sample inputs *)

Example clean1 : Filepath.Clean "/srv/dist///./" = "/srv/dist". Proof. reflexivity. Qed.
Example clean2 : Filepath.Clean "/srv/dist/../dist-secret/f" = "/srv/dist-secret/f". Proof. reflexivity. Qed.
Example clean3 : Filepath.Clean "/srv/dist///../../../etc/passwd" = "/etc/passwd". Proof. reflexivity. Qed.
Example clean4 : Filepath.Clean "a/../../b/./c//" = "../b/c". Proof. reflexivity. Qed.
Example clean5 : Filepath.Clean "./dist/" = "dist". Proof. reflexivity. Qed.
Example clean6 : Filepath.Clean "/.." = "/". Proof. reflexivity. Qed.
Example clean7 : Filepath.Clean "../../a/.." = "../..". Proof. reflexivity. Qed.
Example clean8 : Filepath.Clean "/a/..b/.c/..." = "/a/..b/.c/...". Proof. reflexivity. Qed.
(** The cases of Go's own table of tests for [Clean]. *)
Example clean_table :
  forallb (fun t => String.eqb (Filepath.Clean (fst t)) (snd t))
    [ ("", "."); ("abc", "abc"); ("abc/def", "abc/def"); ("a/b/c", "a/b/c");
      (".", "."); ("..", ".."); ("../..", "../.."); ("../../abc", "../../abc");
      ("/abc", "/abc"); ("/", "/"); ("abc/", "abc"); ("abc/def/", "abc/def");
      ("a/b/c/", "a/b/c"); ("./", "."); ("../", ".."); ("../../", "../..");
      ("/abc/", "/abc"); ("abc//def//ghi", "abc/def/ghi"); ("//abc", "/abc");
      ("///abc", "/abc"); ("//abc//", "/abc"); ("abc//", "abc");
      ("abc/./def", "abc/def"); ("/./abc/def", "/abc/def"); ("abc/.", "abc");
      ("abc/def/ghi/../jkl", "abc/def/jkl"); ("abc/def/../ghi/../jkl", "abc/jkl");
      ("abc/def/..", "abc"); ("abc/def/../..", "."); ("/abc/def/../..", "/");
      ("abc/def/../../..", ".."); ("/abc/def/../../..", "/");
      ("abc/def/../../../ghi/jkl/../../../mno", "../../mno");
      ("abc/./../def", "def"); ("abc//./../def", "def");
      ("abc/../../././../def", "../../def") ]
  = true.
Proof. reflexivity. Qed.

Example ext1 : Filepath.Ext "/srv/dist/index.html" = ".html". Proof. reflexivity. Qed.
Example ext2 : Filepath.Ext "/srv/di.st/index" = "". Proof. reflexivity. Qed.
Example split1 : SplitAfterN "/api:proxy=http://h:1" ":" 2 = ["/api:"; "proxy=http://h:1"]. Proof. reflexivity. Qed.
Example split2 : SplitAfterN "nocolon" ":" 2 = ["nocolon"]. Proof. reflexivity. Qed.
Example split3 : SplitAfterN "" ":" 2 = [""]. Proof. reflexivity. Qed.
Example repl1 : Replace "/api:" ":" "" 1 = "/api". Proof. reflexivity. Qed.

Example serve_index :
  serve Sample.srv (filesystemHandler "/srv/dist" None) (Sample.GET "/" "/" "")
  = {| writer := {| Header := [("Content-Type", "")];
                    wroteHeader := Some 200;
                    Body := "<html>hello</html>" |};
       trace := [EvStat "/srv/dist"; EvOpen "/srv/dist/index.html"] |}.
Proof. reflexivity. Qed.

Example parse_readme :
  parseEndpoint Sample.srv "/:file=./dist/"
  = Ok {| MountPoint := "/"; Destination := filesystemHandler "/home/dev/dist" None |}.
Proof. reflexivity. Qed.

Example parse_proxy :
  parseEndpoint Sample.srv "/api:proxy=http://127.0.0.1:8080/base"
  = Ok {| MountPoint := "/api";
          Destination := ReverseProxy {| Scheme := "http"; Host := "127.0.0.1:8080";
                                         Path := "/base"; RawQuery := "" |} |}.
Proof. reflexivity. Qed.

Example parse_nocolon :
  parseEndpoint Sample.srv "nocolon"
  = Panic "runtime error: index out of range [1] with length 1".
Proof. reflexivity. Qed.

Example readme_endpoints :
  exists s,
    New Sample.srv ["/api:proxy=http://127.0.0.1:8080";
                    "/static:proxy=http://127.0.0.1:8080";
                    "/:file=./dist/";
                    "404:404=./dist/index.html"] = Ok s
    /\ map fst (routes (Start s)) = ["/api"; "/static"; "/"]
    /\ NotFoundHandler (Start s)
       = Some (LoggingMiddleware (NotFoundFileHandler "./dist/index.html")).
Proof. eexists. repeat split. Qed.


Example parse_url_table :
  map Sample.parse_url
      ["http://127.0.0.1:8080/base"; "HTTP://H/x?q=1#f"; "localhost"; "localhost:8080";
       "//h/p"; "///p"; "http:///p"; "/a?b?c"; "/a?"; "a/b:c"; "*"; ""]
  = map inl
      [ {| Scheme := "http"; Host := "127.0.0.1:8080"; Path := "/base"; RawQuery := "" |};
        {| Scheme := "http"; Host := "H"; Path := "/x"; RawQuery := "q=1" |};
        {| Scheme := ""; Host := ""; Path := "localhost"; RawQuery := "" |};
        {| Scheme := "localhost"; Host := ""; Path := ""; RawQuery := "" |};
        {| Scheme := ""; Host := "h"; Path := "/p"; RawQuery := "" |};
        {| Scheme := ""; Host := ""; Path := "///p"; RawQuery := "" |};
        {| Scheme := "http"; Host := ""; Path := "/p"; RawQuery := "" |};
        {| Scheme := ""; Host := ""; Path := "/a"; RawQuery := "b?c" |};
        {| Scheme := ""; Host := ""; Path := "/a"; RawQuery := "" |};
        {| Scheme := ""; Host := ""; Path := "a/b:c"; RawQuery := "" |};
        {| Scheme := ""; Host := ""; Path := "*"; RawQuery := "" |};
        {| Scheme := ""; Host := ""; Path := ""; RawQuery := "" |} ].
Proof. reflexivity. Qed.

Example parse_url_errors :
  map Sample.parse_url [":foo"; "127.0.0.1:8080"; "http://h:p/base"; "1http://h"]
  = map inr
      [ "parse " ++ Sample.quote ":foo" ++ ": missing protocol scheme";
        "parse " ++ Sample.quote "127.0.0.1:8080"
          ++ ": first path segment in URL cannot contain colon";
        "parse " ++ Sample.quote "http://h:p/base" ++ ": invalid port "
          ++ Sample.quote ":p" ++ " after host";
        "parse " ++ Sample.quote "1http://h"
          ++ ": first path segment in URL cannot contain colon" ].
Proof. reflexivity. Qed.
(** * Properties *)

(** ** Byte strings *)

Section StringFacts.

Lemma append_empty_r (s : string) : s ++ "" = s.
Proof. induction s as [|c s IH]; simpl; [reflexivity | now rewrite IH]. Qed.

Lemma append_assoc (s t u : string) : (s ++ t) ++ u = s ++ t ++ u.
Proof. induction s as [|c s IH]; simpl; [reflexivity | now rewrite IH]. Qed.

Lemma length_append (s t : string) :
  String.length (s ++ t) = String.length s + String.length t.
Proof. induction s as [|c s IH]; simpl; [reflexivity | now rewrite IH]. Qed.

Lemma slice_to_append (s t : string) (k : nat) :
  slice_to (s ++ t) (String.length s + k) = s ++ slice_to t k.
Proof. induction s as [|c s IH]; simpl; [reflexivity | now rewrite IH]. Qed.

Lemma slice_from_append (s t : string) (k : nat) :
  slice_from (s ++ t) (String.length s + k) = slice_from t k.
Proof. induction s as [|c s IH]; simpl; [reflexivity | exact IH]. Qed.

Lemma slice_to_0 (s : string) : slice_to s 0 = "".
Proof. destruct s; reflexivity. Qed.

Lemma slice_from_0 (s : string) : slice_from s 0 = s.
Proof. destruct s; reflexivity. Qed.

Lemma prefix_nil (s : string) : String.prefix "" s = true.
Proof. destruct s; reflexivity. Qed.

Lemma prefix_cons (a b : ascii) (s t : string) :
  String.prefix (String a s) (String b t)
  = if Ascii.eqb a b then String.prefix s t else false.
Proof.
  simpl. destruct (ascii_dec a b) as [->|n].
  - now rewrite Ascii.eqb_refl.
  - apply Ascii.eqb_neq in n. now rewrite n.
Qed.

Lemma HasPrefix_refl (s : string) : HasPrefix s s = true.
Proof.
  unfold HasPrefix. induction s as [|c s IH]; [reflexivity|].
  now rewrite prefix_cons, Ascii.eqb_refl.
Qed.

Lemma HasPrefix_append (s t : string) : HasPrefix (s ++ t) s = true.
Proof.
  unfold HasPrefix. induction s as [|c s IH]; simpl append.
  - apply prefix_nil.
  - now rewrite prefix_cons, Ascii.eqb_refl.
Qed.

(** [strings.HasPrefix] is the plain string-prefix test. *)
Lemma HasPrefix_iff (s pre : string) :
  HasPrefix s pre = true <-> exists rest, s = pre ++ rest.
Proof.
  unfold HasPrefix. revert s. induction pre as [|a pre IH]; intros s.
  - rewrite prefix_nil. split; [intros _; now exists s | reflexivity].
  - destruct s as [|b s].
    + split; [discriminate | intros [rest H]; discriminate].
    + rewrite prefix_cons. destruct (Ascii.eqb a b) eqn:E.
      * apply Ascii.eqb_eq in E. subst b. rewrite IH. split.
        -- intros [rest ->]. now exists rest.
        -- intros [rest H]. simpl in H. injection H as ->. now exists rest.
      * split; [discriminate|]. intros [rest H]. simpl in H.
        injection H as -> _. now rewrite Ascii.eqb_refl in E.
Qed.

(** [strings.Index] for a one-byte separator. *)
Lemma Index_byte_nil (c : ascii) : Index "" (String c "") = None.
Proof. reflexivity. Qed.

Lemma Index_byte_cons (c a : ascii) (s : string) :
  Index (String a s) (String c "")
  = if Ascii.eqb c a then Some 0
    else match Index s (String c "") with
         | Some n => Some (S n)
         | None => None
         end.
Proof.
  unfold Index. cbn [String.index]. rewrite prefix_cons, prefix_nil.
  now destruct (Ascii.eqb c a).
Qed.

Lemma Index_byte_append (c : ascii) (m rest : string) :
  Index m (String c "") = None ->
  Index (m ++ String c rest) (String c "") = Some (String.length m).
Proof.
  induction m as [|a m IH]; intros H.
  - simpl append. now rewrite Index_byte_cons, Ascii.eqb_refl.
  - rewrite Index_byte_cons in H. simpl append. rewrite Index_byte_cons.
    destruct (Ascii.eqb c a); [discriminate|].
    destruct (Index m (String c "")) eqn:E; [discriminate|].
    now rewrite IH.
Qed.

(** Cutting after the first separator byte. *)
Lemma SplitAfterN_no_sep (c : ascii) (s : string) :
  Index s (String c "") = None ->
  SplitAfterN s (String c "") 2 = [s].
Proof.
  intros H. unfold SplitAfterN.
  destruct (String.length s + 1 <? 2)%nat.
  - destruct (String.length s + 1 - 1)%nat; simpl; [reflexivity | now rewrite H].
  - simpl. now rewrite H.
Qed.

Lemma SplitAfterN_first_sep (c : ascii) (m rest : string) :
  Index m (String c "") = None ->
  SplitAfterN (m ++ String c rest) (String c "") 2 = [m ++ String c ""; rest].
Proof.
  intros H. unfold SplitAfterN.
  assert (L : (String.length (m ++ String c rest) + 1 <? 2)%nat = false).
  { apply Nat.ltb_ge. rewrite length_append. simpl. lia. }
  rewrite L. simpl Nat.sub. cbn [genSplit_loop].
  rewrite (Index_byte_append _ _ _ H). simpl String.length.
  rewrite slice_to_append, slice_from_append. cbn [slice_to slice_from].
  now rewrite slice_to_0, slice_from_0.
Qed.

Lemma Replace_trailing_sep (c : ascii) (m : string) :
  Index m (String c "") = None ->
  Replace (m ++ String c "") (String c "") "" 1 = m.
Proof.
  intros H. cbn [Replace]. rewrite (Index_byte_append _ _ _ H).
  rewrite <- (Nat.add_0_r (String.length m)) at 1.
  rewrite slice_to_append, slice_to_0, append_empty_r.
  simpl String.length. rewrite slice_from_append. simpl.
  apply append_empty_r.
Qed.

Lemma Replace_no_sep (c : ascii) (s : string) :
  Index s (String c "") = None -> Replace s (String c "") "" 1 = s.
Proof. intros H. cbn [Replace]. now rewrite H. Qed.

End StringFacts.

(** ** The endpoint parser *)

Section ParserFacts.

Variable env : Env.

(** Without a [':'] the second piece of the split does not exist. *)
Lemma parseEndpoint_no_colon (e : string) :
  Index e ":" = None ->
  parseEndpoint env e
  = Panic "runtime error: index out of range [1] with length 1".
Proof.
  intros H. unfold parseEndpoint. rewrite (SplitAfterN_no_sep _ _ H).
  reflexivity.
Qed.

Lemma parseDest_no_equals (dest : string) :
  Index dest "=" = None ->
  parseDest env dest
  = Panic "runtime error: index out of range [1] with length 1".
Proof.
  intros H. unfold parseDest. rewrite (SplitAfterN_no_sep _ _ H).
  reflexivity.
Qed.

Lemma parseEndpoint_first_colon (m rest : string) :
  Index m ":" = None ->
  parseEndpoint env (m ++ ":" ++ rest)
  = rbind (parseDest env rest)
          (fun destObj => Ok {| MountPoint := m; Destination := destObj |}).
Proof.
  intros H. unfold parseEndpoint.
  change (m ++ ":" ++ rest) with (m ++ String ":" rest).
  rewrite (SplitAfterN_first_sep _ _ _ H). cbn [slice_index nth_error rbind].
  now rewrite (Replace_trailing_sep _ _ H).
Qed.

Lemma parseDest_first_equals (k a : string) :
  Index k "=" = None ->
  parseDest env (k ++ "=" ++ a)
  = if String.eqb k "proxy" then
      match reverseProxy env a with
      | Err err => Err ("unable to parse proxy: " ++ err)
      | r => r
      end
    else if String.eqb k "file" then staticFiles env a
    else if String.eqb k "404" then Ok (notFound a)
    else Err ("unknown type " ++ k).
Proof.
  intros H. unfold parseDest.
  change (k ++ "=" ++ a) with (k ++ String "=" a).
  rewrite (SplitAfterN_first_sep _ _ _ H). cbn [slice_index nth_error rbind].
  now rewrite (Replace_trailing_sep _ _ H).
Qed.

Lemma parseEndpoint_no_equals (m rest : string) :
  Index m ":" = None ->
  Index rest "=" = None ->
  parseEndpoint env (m ++ ":" ++ rest)
  = Panic "runtime error: index out of range [1] with length 1".
Proof.
  intros Hm Hr. rewrite (parseEndpoint_first_colon _ _ Hm).
  now rewrite (parseDest_no_equals _ Hr).
Qed.

(** [New] stops at the first endpoint that does not parse. *)
Lemma New_loop_app (es : list string) (eps acc : list Endpoint) :
  Forall2 (fun e ep => parseEndpoint env e = Ok ep) es eps ->
  New_loop env es {| endpoints := acc |} = Ok {| endpoints := (acc ++ eps)%list |}.
Proof.
  intros H. revert acc. induction H as [|e ep es eps He _ IH]; intros acc.
  - simpl. now rewrite app_nil_r.
  - simpl. rewrite He. cbn [endpoints]. rewrite IH, <- app_assoc. reflexivity.
Qed.


Lemma New_total (es : list string) (eps : list Endpoint) :
  Forall2 (fun e ep => parseEndpoint env e = Ok ep) es eps ->
  New env es = Ok {| endpoints := eps |}.
Proof. intros H. unfold New. now rewrite (New_loop_app _ _ [] H). Qed.

End ParserFacts.

(** ** [Clean] *)

Section CleanFacts.

Import Filepath.

Lemma copy_element_length (p : list ascii) (out : lazybuf) :
  List.length (fst (copy_element p out)) <= List.length p.
Proof.
  revert out. induction p as [|c p IH]; intros out; simpl; [lia|].
  destruct (Ascii.eqb c slash); simpl; [lia|]. specialize (IH (c :: out)). lia.
Qed.

Lemma copy_element_app (p q : list ascii) (out : lazybuf) :
  copy_element (p ++ slash :: q) out
  = ((fst (copy_element p out) ++ slash :: q)%list, snd (copy_element p out)).
Proof.
  revert out. induction p as [|c p IH]; intros out; simpl.
  - reflexivity.
  - destruct (Ascii.eqb c slash); [reflexivity | apply IH].
Qed.

Lemma at_end_or_slash_app (l q : list ascii) :
  at_end_or_slash (l ++ slash :: q) = at_end_or_slash l.
Proof. destruct l; reflexivity. Qed.

(** Every iteration consumes input. *)
Lemma clean_step_length (rooted : bool) (c : ascii) (p : list ascii)
      (out : lazybuf) (dotdot : nat) :
  List.length (fst (fst (clean_step rooted (c :: p) out dotdot))) <= List.length p.
Proof.
  unfold clean_step.
  destruct (Ascii.eqb c slash) eqn:Es; [simpl; lia|].
  destruct (Ascii.eqb c dot && at_end_or_slash p); [simpl; lia|].
  destruct (Ascii.eqb c dot && _).
  - destruct (_ <? _)%nat; [|destruct (negb rooted)];
      simpl; destruct p; simpl; lia.
  - match goal with |- context [copy_element ?a ?b] =>
      pose proof (copy_element_length a b) as L;
      assert (E : copy_element a b = copy_element p (c :: b))
        by (simpl; now rewrite Es);
      rewrite E in *; destruct (copy_element p (c :: b)) as [r o] eqn:C
    end.
    simpl. pose proof (copy_element_length p
      (c :: (if (rooted && negb (List.length out =? 1)%nat
                 || negb rooted && negb (List.length out =? 0)%nat)%bool
             then slash :: out else out))) as L'.
    rewrite C in L'. exact L'.
Qed.

(** The iteration does not look past the next separator. *)
Lemma clean_step_app (rooted : bool) (c : ascii) (p q : list ascii)
      (out : lazybuf) (dotdot : nat) :
  clean_step rooted ((c :: p) ++ slash :: q) out dotdot
  = let '(p', out', dotdot') := clean_step rooted (c :: p) out dotdot in
    ((p' ++ slash :: q)%list, out', dotdot').
Proof.
  unfold clean_step. cbn [app].
  destruct (Ascii.eqb c slash) eqn:Es; [reflexivity|].
  rewrite at_end_or_slash_app.
  destruct (Ascii.eqb c dot && at_end_or_slash p) eqn:E1; [reflexivity|].
  destruct p as [|c1 p2].
  - cbn [at_end_or_slash] in E1. rewrite andb_true_r in E1.
    rewrite E1. cbn [app andb copy_element]. now rewrite Es.
  - cbn [app tl]. rewrite at_end_or_slash_app.
    destruct (Ascii.eqb c dot && (Ascii.eqb c1 dot && at_end_or_slash p2)).
    + destruct (_ <? _)%nat; [reflexivity|]. now destruct (negb rooted).
    + rewrite (copy_element_app (c :: c1 :: p2) q).
      now destruct (copy_element (c :: c1 :: p2) _).
Qed.

(** [length p] iterations are enough. *)
Lemma clean_loop_fuel (rooted : bool) (f1 f2 : nat) (p : list ascii)
      (out : lazybuf) (dotdot : nat) :
  List.length p <= f1 -> List.length p <= f2 ->
  clean_loop f1 rooted p out dotdot = clean_loop f2 rooted p out dotdot.
Proof.
  revert f2 p out dotdot.
  induction f1 as [|f1 IH]; intros f2 p out dotdot H1 H2.
  - destruct p; [|simpl in H1; lia]. now destruct f2.
  - destruct p as [|c p]; [now destruct f2|].
    destruct f2 as [|f2]; [simpl in H2; lia|].
    cbn [clean_loop].
    pose proof (clean_step_length rooted c p out dotdot) as L.
    destruct (clean_step rooted (c :: p) out dotdot) as [[p' out'] dd'].
    simpl in L, H1, H2. apply IH; lia.
Qed.

Lemma clean_loop_app (rooted : bool) (f f' : nat) (p q : list ascii)
      (out : lazybuf) (dotdot : nat) :
  List.length p <= f ->
  List.length (p ++ slash :: q) <= f' ->
  clean_loop f' rooted (p ++ slash :: q) out dotdot
  = let '(out', dotdot') := clean_loop f rooted p out dotdot in
    clean_loop f' rooted (slash :: q) out' dotdot'.
Proof.
  revert f' p out dotdot.
  induction f as [|f IH]; intros f' p out dotdot Hf Hf'.
  - destruct p; [reflexivity | simpl in Hf; lia].
  - destruct p as [|c p]; [reflexivity|].
    destruct f' as [|f']; [simpl in Hf'; lia|].
    cbn [clean_loop]. change ((c :: p) ++ slash :: q)%list
      with (c :: (p ++ slash :: q))%list.
    change (c :: (p ++ slash :: q))%list with ((c :: p) ++ slash :: q)%list at 2.
    rewrite clean_step_app.
    pose proof (clean_step_length rooted c p out dotdot) as L.
    destruct (clean_step rooted (c :: p) out dotdot) as [[p' out'] dd'].
    simpl in L, Hf, Hf'. rewrite length_app in Hf'. simpl in Hf'.
    rewrite IH; [| lia | rewrite length_app; simpl; lia].
    destruct (clean_loop f rooted p' out' dd') as [o d].
    change (clean_loop f' rooted (slash :: q) o d
            = clean_loop (S f') rooted (slash :: q) o d).
    apply clean_loop_fuel; simpl; lia.
Qed.

Local Ltac len_solve := simpl; rewrite ?length_app; simpl; lia.

Lemma list_ascii_of_string_append (s t : string) :
  list_ascii_of_string (s ++ t)
  = (list_ascii_of_string s ++ list_ascii_of_string t)%list.
Proof. induction s as [|c s IH]; simpl; [reflexivity | now rewrite IH]. Qed.

Lemma length_list_ascii_of_string (s : string) :
  List.length (list_ascii_of_string s) = String.length s.
Proof. induction s as [|c s IH]; simpl; [reflexivity | now rewrite IH]. Qed.

(** What [Clean] does with a path that continues with a separator and a
    tail [t]: the tail is read from the state the first part leaves. *)
Lemma clean_loop_tail_skipped (rooted : bool) (f : nat) (out : lazybuf) (dotdot : nat) :
  5 <= f ->
  clean_loop f rooted [slash; slash; slash; dot; slash] out dotdot = (out, dotdot).
Proof.
  intros H. do 5 (destruct f as [|f]; [lia|]). destruct f; reflexivity.
Qed.

(** Joining the directory-root marker onto [s] changes nothing:
    [s + "/" + "/" + "/" + "./"] cleans to what [s] cleans to. *)
Lemma Clean_root_marker (s : string) :
  s <> "" -> Clean (s ++ "///./") = Clean s.
Proof.
  destruct s as [|c0 s]; [congruence|]. intros _.
  unfold Clean. cbn [append].
  change (list_ascii_of_string (String c0 (s ++ "///./")))
    with (c0 :: list_ascii_of_string (s ++ "///./")).
  change (list_ascii_of_string (String c0 s)) with (c0 :: list_ascii_of_string s).
  rewrite list_ascii_of_string_append.
  change (list_ascii_of_string "///./") with [slash; slash; slash; dot; slash].
  set (l := list_ascii_of_string s).
  destruct (Ascii.eqb c0 slash).
  - cbn [tl].
    rewrite (clean_loop_app true (List.length (c0 :: l))); [| len_solve ..].
    destruct (clean_loop _ true l [slash] 1) as [o d].
    rewrite clean_loop_tail_skipped; [reflexivity | len_solve].
  - change (c0 :: l ++ [slash; slash; slash; dot; slash])%list
      with ((c0 :: l) ++ [slash; slash; slash; dot; slash])%list.
    rewrite (clean_loop_app false (List.length (c0 :: l))); [| len_solve ..].
    destruct (clean_loop _ false (c0 :: l) [] 0) as [o d].
    rewrite clean_loop_tail_skipped; [reflexivity | len_solve].
Qed.

End CleanFacts.

(** ** [Clean] on rooted paths is idempotent *)

Section CleanRooted.

Import Filepath.
Local Open Scope list_scope.

Lemma canon_rooted (out : lazybuf) :
  canon out -> exists l, rev out = slash :: l.
Proof.
  induction 1 as [| seg _ | seg out _ _ [l E] _].
  - now exists [].
  - exists seg. rewrite rev_app_distr, rev_involutive. reflexivity.
  - exists (l ++ slash :: seg)%list.
    rewrite rev_app_distr, rev_involutive. cbn [rev]. rewrite E.
    cbn [app]. now rewrite <- app_assoc.
Qed.

Lemma real_rev_nonempty (seg : list ascii) :
  real seg -> exists c l, rev seg = c :: l /\ ~ In slash (c :: l).
Proof.
  intros [Hne [Hs _]]. destruct (rev seg) as [|c l] eqn:E.
  - apply (f_equal (@rev ascii)) in E. rewrite rev_involutive in E. now subst.
  - exists c, l. split; [reflexivity|]. rewrite <- E. intros Hin.
    apply Hs. now apply in_rev.
Qed.

Lemma canon_length_1 (out : lazybuf) :
  canon out -> List.length out = 1 -> out = [slash].
Proof.
  intros H L. destruct H as [| seg R | seg out R _ _]; [reflexivity | |];
    destruct (real_rev_nonempty _ R) as [c [l [E _]]]; rewrite E in L;
    simpl in L; rewrite length_app in L; simpl in L; lia.
Qed.

Lemma not_slash (c : ascii) (l : list ascii) :
  ~ In slash (c :: l) -> Ascii.eqb c slash = false /\ ~ In slash l.
Proof.
  intros H. split.
  - apply Ascii.eqb_neq. intros ->. apply H. now left.
  - intros Hin. apply H. now right.
Qed.

(** Dropping the last element of the buffer. *)
Lemma backtrack_loop_first (l : list ascii) (c : ascii) :
  ~ In slash (c :: l) -> backtrack_loop 1 (l ++ [slash]) c = [slash].
Proof.
  revert c. induction l as [|a l IH]; intros c H; [reflexivity|].
  destruct (not_slash _ _ H) as [E Hl]. cbn [app backtrack_loop].
  rewrite E. cbn [negb]. rewrite andb_true_r.
  replace (1 <? List.length (a :: l ++ [slash]))%nat with true
    by (symmetry; apply Nat.ltb_lt; simpl; rewrite length_app; simpl; lia).
  now apply IH.
Qed.

Lemma backtrack_loop_more (l O : list ascii) (c : ascii) :
  ~ In slash (c :: l) -> O <> [] -> backtrack_loop 1 (l ++ slash :: O) c = O.
Proof.
  revert c. induction l as [|a l IH]; intros c H HO;
    destruct (not_slash _ _ H) as [E Hl]; cbn [app backtrack_loop];
    rewrite E; cbn [negb]; rewrite andb_true_r.
  - destruct O as [|o O]; [congruence|]. cbn [List.length Nat.ltb Nat.leb].
    cbn [backtrack_loop]. rewrite Ascii.eqb_refl. cbn [negb].
    now rewrite andb_false_r.
  - replace (1 <? List.length (a :: l ++ slash :: O))%nat with true
      by (symmetry; apply Nat.ltb_lt; simpl; rewrite length_app; simpl; lia).
    now apply IH.
Qed.

Lemma backtrack_canon (out : lazybuf) :
  canon out -> 1 < List.length out -> canon (backtrack 1 out).
Proof.
  intros H L. destruct H as [| seg R | seg out R C N].
  - simpl in L. lia.
  - destruct (real_rev_nonempty _ R) as [c [l [E Hs]]]. rewrite E.
    cbn [app backtrack]. rewrite backtrack_loop_first by exact Hs. constructor.
  - destruct (real_rev_nonempty _ R) as [c [l [E Hs]]]. rewrite E.
    cbn [app backtrack]. rewrite backtrack_loop_more; [exact C | exact Hs |].
    intros ->. inversion C as [| seg' R' E' | seg' out' R' _ _ E'];
      destruct (real_rev_nonempty _ R') as [c' [l' [E'' _]]];
      rewrite E'' in E'; discriminate.
Qed.

(** What the copy of an element takes and what it leaves. *)
Lemma copy_element_spec (p : list ascii) (out : lazybuf) :
  exists seg rest,
    p = (seg ++ rest)%list /\ ~ In slash seg /\ at_end_or_slash rest = true
    /\ copy_element p out = (rest, (rev seg ++ out)%list).
Proof.
  revert out. induction p as [|c p IH]; intros out.
  - exists [], []. repeat split. intros [].
  - cbn [copy_element]. destruct (Ascii.eqb c slash) eqn:E.
    + exists [], (c :: p). repeat split; [intros [] | exact E].
    + destruct (IH (c :: out)) as [seg [rest [Hp [Hs [Hr Hc]]]]].
      exists (c :: seg), rest. rewrite Hc. repeat split.
      * now rewrite Hp.
      * intros [H | H]; [subst c; now rewrite Ascii.eqb_refl in E | now apply Hs].
      * exact Hr.
      * cbn [rev]. now rewrite <- app_assoc.
Qed.

(** A rooted iteration keeps the buffer in shape. *)
Lemma clean_step_canon (c : ascii) (p : list ascii) (out : lazybuf) :
  canon out ->
  canon (snd (fst (clean_step true (c :: p) out 1)))
  /\ snd (clean_step true (c :: p) out 1) = 1.
Proof.
  intros C. unfold clean_step.
  destruct (Ascii.eqb c slash) eqn:Es; [now split|].
  destruct (Ascii.eqb c dot && at_end_or_slash p) eqn:E1; [now split|].
  destruct (Ascii.eqb c dot
            && match p with
               | c1 :: p2 => Ascii.eqb c1 dot && at_end_or_slash p2
               | [] => false
               end) eqn:E2.
  - destruct (1 <? List.length out)%nat eqn:L; cbn [negb fst snd]; [|now split].
    split; [|reflexivity]. apply backtrack_canon; [exact C | now apply Nat.ltb_lt].
  - cbn [andb negb orb]. rewrite orb_false_r.
    match goal with |- context [copy_element _ ?o] => set (o1 := o) end.
    destruct (copy_element_spec (c :: p) o1) as [seg [rest [Hp [Hs [Hr ->]]]]].
    subst o1.
    cbn [fst snd]. split; [|reflexivity].
    assert (R : real seg).
    { destruct seg as [|a seg].
      - cbn [app] in Hp. subst rest. cbn [at_end_or_slash] in Hr. congruence.
      - injection Hp as <- Hp. repeat split.
        + discriminate.
        + exact Hs.
        + intros H. injection H as -> ->. cbn [app] in Hp. subst p.
          rewrite Hr in E1. now rewrite Ascii.eqb_refl in E1.
        + intros H. injection H as -> ->. cbn [app] in Hp. subst p.
          rewrite Hr, !Ascii.eqb_refl in E2. discriminate. }
    destruct (List.length out =? 1)%nat eqn:L; cbn [negb].
    + apply Nat.eqb_eq in L. rewrite (canon_length_1 _ C L). now constructor.
    + constructor; [exact R | exact C |]. intros ->. discriminate.
Qed.

Lemma clean_loop_canon (f : nat) (p : list ascii) (out : lazybuf) :
  canon out -> canon (fst (clean_loop f true p out 1)).
Proof.
  revert p out. induction f as [|f IH]; intros p out C; [exact C|].
  destruct p as [|c p]; [exact C|]. cbn [clean_loop].
  destruct (clean_step_canon c p _ C) as [C' D].
  destruct (clean_step true (c :: p) out 1) as [[p' out'] dd'].
  cbn [fst snd] in C', D. subst dd'. now apply IH.
Qed.

(** Reading a buffer in shape back gives the same buffer. *)
Lemma clean_loop_real (f : nat) (seg : list ascii) (out : lazybuf) :
  real seg -> List.length seg <= f ->
  clean_loop (S f) true seg out 1
  = ((rev seg ++ (if (List.length out =? 1)%nat then out else slash :: out))%list, 1).
Proof.
  intros [Hne [Hs [Hd Hdd]]] Hf. destruct seg as [|c seg]; [congruence|].
  cbn [clean_loop]. unfold clean_step.
  assert (Es : Ascii.eqb c slash = false).
  { apply Ascii.eqb_neq. intros ->. apply Hs. now left. }
  rewrite Es.
  assert (E1 : Ascii.eqb c dot && at_end_or_slash seg = false).
  { destruct (Ascii.eqb c dot) eqn:E; [|reflexivity]. apply Ascii.eqb_eq in E.
    subst c. destruct seg as [|a seg]; [congruence|]. cbn [andb at_end_or_slash].
    apply Ascii.eqb_neq. intros ->. apply Hs. right. now left. }
  rewrite E1.
  assert (E2 : Ascii.eqb c dot
               && match seg with
                  | c1 :: p2 => Ascii.eqb c1 dot && at_end_or_slash p2
                  | [] => false
                  end = false).
  { destruct (Ascii.eqb c dot) eqn:E; [|reflexivity]. apply Ascii.eqb_eq in E.
    subst c. destruct seg as [|a seg]; [reflexivity|]. cbn [andb].
    destruct (Ascii.eqb a dot) eqn:E'; [|reflexivity]. apply Ascii.eqb_eq in E'.
    subst a. destruct seg as [|b seg]; [congruence|]. cbn [andb at_end_or_slash].
    apply Ascii.eqb_neq. intros ->. apply Hs. right. right. now left. }
  rewrite E2.
  cbn [andb negb orb]. rewrite orb_false_r.
  match goal with |- context [copy_element _ ?o] => set (o1 := o) end.
  destruct (copy_element_spec (c :: seg) o1) as [seg' [rest [Hp [Hs' [Hr ->]]]]].
  subst o1.
  assert (rest = []).
  { destruct rest as [|r rest]; [reflexivity|]. cbn [at_end_or_slash] in Hr.
    apply Ascii.eqb_eq in Hr. subst r. exfalso. apply Hs. rewrite Hp.
    apply in_or_app. right. now left. }
  subst rest. rewrite app_nil_r in Hp. subst seg'.
  destruct f; destruct (List.length out =? 1)%nat; reflexivity.
Qed.

Lemma clean_loop_reads_back (out : lazybuf) :
  canon out ->
  forall f, List.length out <= f ->
            clean_loop f true (tl (rev out)) [slash] 1 = (out, 1).
Proof.
  induction 1 as [| seg R | seg out R C IH N]; intros f Hf.
  - now destruct f.
  - rewrite rev_app_distr, rev_involutive. cbn [rev app tl].
    rewrite length_app, length_rev in Hf. simpl in Hf.
    destruct f as [|f]; [lia|].
    rewrite clean_loop_real by (try exact R; lia). reflexivity.
  - rewrite rev_app_distr, rev_involutive. cbn [rev].
    destruct (canon_rooted _ C) as [l E]. rewrite E. cbn [app tl].
    rewrite <- app_assoc. cbn [app].
    assert (Lo : List.length out = S (List.length l)).
    { rewrite <- length_rev, E. reflexivity. }
    rewrite length_app, length_rev in Hf. simpl in Hf.
    rewrite (clean_loop_app true (List.length out));
      [| lia | rewrite length_app; simpl; lia].
    replace l with (tl (rev out)) by now rewrite E.
    rewrite (IH _ (le_n _)).
    destruct f as [|f]; [lia|]. cbn [clean_loop clean_step].
    rewrite Ascii.eqb_refl.
    destruct f as [|f]; [lia|].
    rewrite clean_loop_real by (try exact R; lia).
    destruct (List.length out =? 1)%nat eqn:L; [|reflexivity].
    apply Nat.eqb_eq in L. now rewrite (canon_length_1 _ C L) in N.
Qed.

Lemma canon_nonempty (out : lazybuf) : canon out -> out <> [].
Proof.
  intros C ->. destruct (canon_rooted _ C) as [l E]. discriminate.
Qed.

Lemma Clean_rooted (s : string) :
  exists out, canon out /\ Clean (String slash s) = string_of_list_ascii (rev out).
Proof.
  unfold Clean. rewrite Ascii.eqb_refl. cbn [list_ascii_of_string tl].
  pose proof (clean_loop_canon (List.length (slash :: list_ascii_of_string s))
                (list_ascii_of_string s) _ canon_root) as C.
  destruct (clean_loop _ true (list_ascii_of_string s) [slash] 1) as [out dd].
  cbn [fst] in C. exists out. split; [exact C|].
  pose proof (canon_nonempty _ C). now destruct out.
Qed.

Lemma Clean_of_canon (out : lazybuf) :
  canon out ->
  Clean (string_of_list_ascii (rev out)) = string_of_list_ascii (rev out).
Proof.
  intros C. destruct (canon_rooted _ C) as [l E]. rewrite E.
  cbn [string_of_list_ascii]. unfold Clean. rewrite Ascii.eqb_refl.
  change (list_ascii_of_string (String slash (string_of_list_ascii l)))
    with (slash :: list_ascii_of_string (string_of_list_ascii l)).
  rewrite list_ascii_of_string_of_list_ascii. cbn [tl].
  replace l with (tl (rev out)) at 2 by now rewrite E.
  rewrite (clean_loop_reads_back _ C)
    by (rewrite <- (length_rev out), E; apply le_n).
  pose proof (canon_nonempty _ C). destruct out; [congruence|].
  now rewrite E.
Qed.

(** [Clean] of a rooted path is rooted and clean. *)
Lemma Clean_rooted_idempotent (s : string) :
  IsAbs s = true ->
  IsAbs (Clean s) = true /\ Clean (Clean s) = Clean s.
Proof.
  destruct s as [|c0 s]; [discriminate|]. unfold IsAbs, HasPrefix.
  rewrite prefix_cons, prefix_nil. intros H.
  assert (c0 = slash)
    by (destruct (Ascii.eqb_spec "/"%char c0); [now subst | discriminate]).
  subst c0. destruct (Clean_rooted s) as [out [C ->]]. split.
  - destruct (canon_rooted _ C) as [l ->]. cbn [string_of_list_ascii].
    now rewrite prefix_cons, prefix_nil.
  - now apply Clean_of_canon.
Qed.

End CleanRooted.

(** ** The roots [newFSHandler] produces *)

Section RootFacts.

Variable env : Env.

(** Where the working directory is an absolute path, [filepath.Abs]
    yields a cleaned absolute path. *)
Lemma Abs_clean (path p : string) :
  (forall wd, Getwd env = inl wd -> Filepath.IsAbs wd = true) ->
  Filepath.Abs (Getwd env) path = inl p ->
  Filepath.IsAbs p = true /\ Filepath.Clean p = p.
Proof.
  intros Hwd. unfold Filepath.Abs.
  destruct (Filepath.IsAbs path) eqn:Ea.
  - intros H. injection H as <-. now apply Clean_rooted_idempotent.
  - destruct (Getwd env) as [wd | err]; [|discriminate].
    specialize (Hwd wd eq_refl). intros H. injection H as <-.
    destruct wd as [|c wd]; [discriminate|].
    cbn [Filepath.Join String.eqb GoString.Join].
    apply Clean_rooted_idempotent.
    unfold Filepath.IsAbs, HasPrefix in *. cbn [append].
    rewrite prefix_cons, prefix_nil in *. exact Hwd.
Qed.

Lemma newFSHandler_root (path fpath : string) (nf : option Handler) :
  (forall wd, Getwd env = inl wd -> Filepath.IsAbs wd = true) ->
  newFSHandler env path = Ok (filesystemHandler fpath nf) ->
  Filepath.IsAbs fpath = true /\ Filepath.Clean fpath = fpath /\ nf = None.
Proof.
  intros Hwd. unfold newFSHandler.
  destruct (Filepath.Abs (Getwd env) path) as [p | err] eqn:E; [|discriminate].
  intros H. injection H as <- <-.
  destruct (Abs_clean path p Hwd E) as [H1 H2]. now repeat split.
Qed.

End RootFacts.

(** ** Leaving the root through [..] *)

Section Sibling.

Import Filepath.
Local Open Scope list_scope.

(** A buffer in shape that holds more than the root slash ends with a
    real element. *)
Lemma canon_last_element (out : lazybuf) :
  canon out -> 1 < List.length out ->
  exists name B, real name /\ out = rev name ++ slash :: B
                 /\ canon (backtrack 1 out)
                 /\ rev name
                      ++ (if (List.length (backtrack 1 out) =? 1)%nat
                          then backtrack 1 out else slash :: backtrack 1 out)
                    = out.
Proof.
  intros C L. pose proof (backtrack_canon _ C L) as CB.
  destruct C as [| seg R | seg out R C N].
  - simpl in L. lia.
  - exists seg, []. split; [exact R|]. split; [reflexivity|].
    split; [exact CB|].
    destruct (real_rev_nonempty _ R) as [c [l [E Hs]]]. rewrite E.
    cbn [app backtrack]. now rewrite backtrack_loop_first.
  - exists seg, out. split; [exact R|]. split; [reflexivity|].
    split; [exact CB|].
    destruct (real_rev_nonempty _ R) as [c [l [E Hs]]]. rewrite E.
    cbn [app backtrack].
    rewrite backtrack_loop_more; [| exact Hs | exact (canon_nonempty _ C)].
    destruct (List.length out =? 1)%nat eqn:L1; [|reflexivity].
    apply Nat.eqb_eq in L1. now rewrite (canon_length_1 _ C L1) in N.
Qed.

Lemma real_extended (name x : list ascii) :
  real name -> x <> [] -> ~ In slash x -> real (name ++ x).
Proof.
  intros [Hne [Hs [Hd Hdd]]] Hx Hsx. repeat split.
  - intros E. apply app_eq_nil in E. now destruct E.
  - intros Hin. apply in_app_or in Hin. tauto.
  - intros E. destruct name as [|a [|b name]]; [congruence | |]; cbn [app] in E.
    + destruct x; [congruence | discriminate].
    + discriminate.
  - intros E. destruct name as [|a [|b [|c name]]]; [congruence | | |]; cbn [app] in E.
    + destruct x as [|y [|z x]]; [congruence | | discriminate].
      injection E as -> ->. congruence.
    + destruct x; [congruence | discriminate].
    + discriminate.
Qed.

Lemma clean_loop_empty_element (rooted : bool) (fuel : nat) (p : list ascii)
      (out : lazybuf) (dotdot : nat) :
  clean_loop (S fuel) rooted (slash :: p) out dotdot
  = clean_loop fuel rooted p out dotdot.
Proof. reflexivity. Qed.

Lemma clean_loop_dotdot (fuel : nat) (p : list ascii) (out : lazybuf) :
  at_end_or_slash p = true -> 1 < List.length out ->
  clean_loop (S fuel) true (dot :: dot :: p) out 1
  = clean_loop fuel true p (backtrack 1 out) 1.
Proof.
  intros Hp L. cbn [clean_loop clean_step at_end_or_slash tl].
  change (Ascii.eqb dot slash) with false.
  change (Ascii.eqb dot dot) with true. cbn [andb]. rewrite Hp.
  apply Nat.ltb_lt in L. now rewrite L.
Qed.

(** From a buffer that ends with the element [name]: three empty
    elements, [..], then [name ++ x] and [f] leave the buffer with [x]
    glued to its last element and [f] below it. *)
Lemma clean_loop_sibling (out : lazybuf) :
  canon out -> 1 < List.length out ->
  exists name B,
    real name /\ out = rev name ++ slash :: B
    /\ forall x f fuel,
        x <> [] -> ~ In slash x -> real f ->
        List.length
          ([slash; slash; slash; dot; dot; slash] ++ (name ++ x) ++ slash :: f) <= fuel ->
        clean_loop fuel true
          ([slash; slash; slash; dot; dot; slash] ++ (name ++ x) ++ slash :: f) out 1
        = (rev f ++ slash :: rev x ++ out, 1).
Proof.
  intros C L. destruct (canon_last_element _ C L) as [name [B [R [E [CB EB]]]]].
  exists name, B. split; [exact R|]. split; [exact E|].
  intros x f fuel Hx Hsx Rf Hfuel.
  pose proof (real_extended _ _ R Hx Hsx) as Rn.
  rewrite !length_app in Hfuel. cbn [List.length] in Hfuel.
  assert (Ln : 1 <= List.length name)
    by (destruct R as [Hne _]; destruct name; [congruence | simpl; lia]).
  assert (Lx : 1 <= List.length x) by (destruct x; [congruence | simpl; lia]).
  assert (Lf : 1 <= List.length f)
    by (destruct Rf as [Hne _]; destruct f; [congruence | simpl; lia]).
  do 8 (destruct fuel as [|fuel]; [simpl in Hfuel; lia|]).
  cbn [app]. rewrite !clean_loop_empty_element.
  rewrite clean_loop_dotdot by (reflexivity || exact L).
  rewrite clean_loop_empty_element.
  rewrite (clean_loop_app true (S (List.length (name ++ x))));
    [| lia | rewrite !length_app; simpl; lia].
  rewrite (clean_loop_real _ _ _ Rn (le_n _)).
  rewrite clean_loop_empty_element.
  rewrite clean_loop_real; [| exact Rf | simpl in Hfuel; lia].
  rewrite rev_app_distr, <- app_assoc, EB.
  replace (List.length (rev x ++ out) =? 1)%nat with false; [reflexivity|].
  symmetry. apply Nat.eqb_neq. rewrite length_app. lia.
Qed.

(** The same, read from the start of a cleaned rooted path. *)
Lemma clean_loop_sibling_path (out : lazybuf) :
  canon out -> 1 < List.length out ->
  exists name B,
    real name /\ out = rev name ++ slash :: B
    /\ forall x f fuel,
        x <> [] -> ~ In slash x -> real f ->
        List.length
          (tl (rev out) ++ [slash; slash; slash; dot; dot; slash]
             ++ (name ++ x) ++ slash :: f) <= fuel ->
        clean_loop fuel true
          (tl (rev out) ++ [slash; slash; slash; dot; dot; slash]
             ++ (name ++ x) ++ slash :: f) [slash] 1
        = (rev f ++ slash :: rev x ++ out, 1).
Proof.
  intros C L. destruct (clean_loop_sibling _ C L) as [name [B [Rn [E H]]]].
  exists name, B. split; [exact Rn|]. split; [exact E|].
  intros x f fuel Hx Hsx Rf Hfuel.
  assert (Lt : List.length (tl (rev out)) < List.length out).
  { destruct (canon_rooted _ C) as [l El]. rewrite El. cbn [tl].
    rewrite <- (length_rev out), El. simpl. lia. }
  rewrite length_app in Hfuel.
  change ([slash; slash; slash; dot; dot; slash] ++ (name ++ x) ++ slash :: f)
    with (slash :: ([slash; slash; dot; dot; slash] ++ (name ++ x) ++ slash :: f)) in *.
  rewrite (clean_loop_app true (List.length out));
    [| lia | rewrite length_app; lia].
  rewrite (clean_loop_reads_back _ C _ (le_n _)).
  apply H; try assumption. cbn [app List.length] in Hfuel |- *. lia.
Qed.

End Sibling.

Section SiblingPaths.

Variable env : Env.

Lemma HasPrefix_append_both (r s t : string) :
  HasPrefix (r ++ s) (r ++ t) = HasPrefix s t.
Proof.
  unfold HasPrefix. induction r as [|c r IH]; [reflexivity|].
  cbn [append]. now rewrite prefix_cons, Ascii.eqb_refl.
Qed.

Lemma string_of_list_ascii_app (l m : list ascii) :
  string_of_list_ascii (l ++ m) = string_of_list_ascii l ++ string_of_list_ascii m.
Proof. induction l as [|c l IH]; simpl; [reflexivity | now rewrite IH]. Qed.

(** Every root but [/] has requests that resolve next to it: the target
    [/../name x/f], with [name] the last element of the root, resolves to
    the root's bytes followed by [x/f], which passes the guard and is not
    inside the root. *)
Lemma Clean_rooted_loop (s : string) (out : Filepath.lazybuf) (dd : nat) :
  Filepath.clean_loop (S (String.length s)) true (list_ascii_of_string s) [slash] 1
  = (out, dd) ->
  out <> [] ->
  Filepath.Clean (String slash s) = string_of_list_ascii (rev out).
Proof.
  intros E Hne. unfold Filepath.Clean. rewrite Ascii.eqb_refl.
  cbn [list_ascii_of_string tl List.length].
  rewrite length_list_ascii_of_string, E. now destruct out.
Qed.

Lemma sibling_of_any_root (R : string) :
  Filepath.IsAbs R = true -> Filepath.Clean R = R -> R <> "/" ->
  exists name,
    (exists D, R = D ++ "/" ++ name)
    /\ forall (x f : string) (req : Request),
        x <> "" -> ~ In slash (list_ascii_of_string x) ->
        real (list_ascii_of_string f) ->
        RequestURI req = "/../" ++ name ++ x ++ "/" ++ f ->
        absFilePathOf env R req = inl (R ++ x ++ "/" ++ f)
        /\ HasPrefix (R ++ x ++ "/" ++ f) R = true
        /\ within_root R (R ++ x ++ "/" ++ f) = false.
Proof.
  intros Habs Hclean Hroot.
  destruct R as [|c0 s]; [discriminate|].
  assert (c0 = slash).
  { unfold Filepath.IsAbs, HasPrefix in Habs. rewrite prefix_cons, prefix_nil in Habs.
    destruct (Ascii.eqb_spec "/"%char c0); [now subst | discriminate]. }
  subst c0. destruct (Clean_rooted s) as [out [C EC]]. rewrite Hclean in EC.
  assert (EL : rev out = slash :: list_ascii_of_string s).
  { apply (f_equal list_ascii_of_string) in EC.
    now rewrite list_ascii_of_string_of_list_ascii in EC. }
  assert (L : 1 < List.length out).
  { destruct (Nat.eq_dec (List.length out) 1) as [L1 | L1].
    - exfalso. apply Hroot. rewrite EC, (canon_length_1 _ C L1). reflexivity.
    - pose proof (canon_nonempty _ C). destruct out; [congruence | simpl in *; lia]. }
  destruct (clean_loop_sibling_path _ C L) as [name [B [Rn [Eout Hloop]]]].
  exists (string_of_list_ascii name). split.
  { exists (string_of_list_ascii (rev B)). rewrite EC, Eout.
    rewrite rev_app_distr, rev_involutive. cbn [rev].
    rewrite <- app_assoc. cbn [app].
    now rewrite string_of_list_ascii_app. }
  intros x f req Hx Hsx Rf Huri.
  set (lx := list_ascii_of_string x) in *.
  set (lf := list_ascii_of_string f) in *.
  assert (Hlx : lx <> []) by (subst lx; destruct x; [congruence | discriminate]).
  set (tail := "/" ++ "/" ++ "/" ++ "../" ++ string_of_list_ascii name ++ x ++ "/" ++ f).
  assert (Elist : list_ascii_of_string (s ++ tail)
                  = (tl (rev out) ++ [slash; slash; slash; dot; dot; slash]
                       ++ (name ++ lx) ++ slash :: lf)%list).
  { subst tail. rewrite !list_ascii_of_string_append.
    rewrite list_ascii_of_string_of_list_ascii, EL. cbn [tl].
    change (list_ascii_of_string "/") with [slash].
    change (list_ascii_of_string "../") with [dot; dot; slash].
    cbn [app]. now rewrite <- app_assoc. }
  assert (Hfull : Filepath.Clean (String slash s ++ tail)
                  = String slash s ++ x ++ "/" ++ f).
  { cbn [append].
    rewrite (Clean_rooted_loop (s ++ tail) (rev lf ++ slash :: rev lx ++ out)%list 1).
    - rewrite !rev_app_distr. cbn [rev]. rewrite !rev_app_distr, !rev_involutive.
      cbn [rev app]. rewrite <- !app_assoc. cbn [app].
      rewrite !string_of_list_ascii_app. rewrite EL. cbn [string_of_list_ascii].
      subst lx lf. now rewrite !string_of_list_ascii_of_string.
    - rewrite Elist. apply Hloop; try assumption.
      rewrite <- Elist, length_list_ascii_of_string. apply Nat.le_succ_diag_r.
    - destruct (rev lf); discriminate. }
  assert (Hres : absFilePathOf env (String slash s) req
                 = inl (String slash s ++ x ++ "/" ++ f)).
  { unfold absFilePathOf, requestFile. rewrite Huri.
    change (HasPrefix ("/../" ++ string_of_list_ascii name ++ x ++ "/" ++ f) "/")
      with true. cbv iota.
    change (slice_from ("/../" ++ string_of_list_ascii name ++ x ++ "/" ++ f) 1)
      with ("../" ++ string_of_list_ascii name ++ x ++ "/" ++ f).
    change (String.eqb ("../" ++ string_of_list_ascii name ++ x ++ "/" ++ f) "")
      with false. cbv iota.
    cbn [Filepath.Join String.eqb GoString.Join].
    change (String slash s ++ "/" ++ "/" ++ "/" ++ "../"
              ++ string_of_list_ascii name ++ x ++ "/" ++ f)
      with (String slash s ++ tail).
    assert (At : Filepath.IsAbs (String slash s ++ tail) = true).
    { unfold Filepath.IsAbs, HasPrefix. cbn [append].
      now rewrite prefix_cons, prefix_nil. }
    destruct (Clean_rooted_idempotent (String slash s ++ tail) At) as [A I].
    rewrite I. unfold Filepath.Abs. rewrite A, I. now rewrite Hfull. }
  split; [exact Hres|]. split; [apply HasPrefix_append|].
  unfold within_root.
  replace (String.eqb (String slash s ++ x ++ "/" ++ f) (String slash s)) with false.
  - cbn [orb]. destruct (String.eqb_spec (String slash s) "/") as [E | _];
      [congruence|].
    rewrite <- (append_empty_r (String slash s)) at 2.
    rewrite append_assoc, HasPrefix_append_both. cbn [append].
    destruct x as [|cx x]; [congruence|]. cbn [append].
    unfold HasPrefix. rewrite prefix_cons, prefix_nil.
    destruct (Ascii.eqb_spec "/"%char cx) as [<- | _]; [|reflexivity].
    exfalso. apply Hsx. subst lx. now left.
  - symmetry. apply String.eqb_neq. intros E.
    apply (f_equal String.length) in E. rewrite !length_append in E.
    destruct x; [congruence | simpl in E; lia].
Qed.

End SiblingPaths.

(** ** Handlers *)

(** Running the monad: unfold its operations, then read the state. *)
Ltac run :=
  cbv beta iota delta
    [serve bind ret emit os_Stat os_Open Printf http_Error Write WriteHeader
     Header_Set modify_writer io_Copy];
  cbn [fst snd writer trace Header wroteHeader Body app].

Ltac fin :=
  cbn [trace app]; rewrite <- ?app_assoc; eexists; reflexivity.

Section HandlerFacts.

Variable env : Env.

(** A handler only adds to the trace. *)
Lemma ServeHTTP_trace_extends :
  forall (h : Handler) (req : Request) (s : St),
    exists evs, trace (snd (ServeHTTP env h req s)) = (trace s ++ evs)%list.
Proof.
  fix IH 1. intros [destUrl | fpath nf | filePath | next] req s.
  - exists [EvRoundTrip (director destUrl req)]. reflexivity.
  - cbn [ServeHTTP].
    destruct (absFilePathOf env fpath req) as [p | err].
    + destruct (HasPrefix p fpath); cbn [negb].
      * run. destruct (Stat env p) as [isDir | err].
        -- destruct (Open env (if isDir then p ++ "/index.html" else p)) as [f | err].
           ++ destruct (io_ReadAll f); run; fin.
           ++ destruct nf as [h' |].
              ** edestruct (IH h' req) as [evs E]. rewrite E. fin.
              ** run. fin.
        -- destruct nf as [h' |].
           ++ edestruct (IH h' req) as [evs E]. rewrite E. fin.
           ++ run. fin.
      * run. fin.
    + run. fin.
  - cbn [ServeHTTP]. run. destruct (Open env filePath) as [f | err].
    + run. destruct (String.eqb (data f) ""); destruct (readErr f); run; fin.
    + run. fin.
  - cbn [ServeHTTP]. run. edestruct (IH next req) as [evs E]. rewrite E. fin.
Qed.

Lemma traversal_guard_rejects (fpath : string) (nf : option Handler)
      (req : Request) (p : string) :
  absFilePathOf env fpath req = inl p ->
  HasPrefix p fpath = false ->
  serve env (filesystemHandler fpath nf) req
  = {| writer := notFoundWriter "404 - Not found";
       trace := [EvLog ("path traversal: " ++ p)] |}.
Proof.
  intros Hp Hg. unfold serve. cbn [ServeHTTP]. rewrite Hp, Hg. reflexivity.
Qed.

(** A request that passes the guard starts with a [Stat] of the
    resolved path. *)
Lemma traversal_guard_accepts (fpath : string) (nf : option Handler)
      (req : Request) (p : string) :
  absFilePathOf env fpath req = inl p ->
  HasPrefix p fpath = true ->
  exists evs, trace (serve env (filesystemHandler fpath nf) req) = EvStat p :: evs.
Proof.
  intros Hp Hg.
  pose (s1 := {| writer := newWriter; trace := [EvStat p] |}).
  assert (E : serve env (filesystemHandler fpath nf) req
              = snd ((stat <- ret (Stat env p) ;;
                      match stat with
                      | inr err =>
                          Printf ("unable to open file " ++ requestFile req ++ ": " ++ err) ;;;
                          match nf with
                          | None => http_Error "404 - Not found (not found handler missing)" 404
                          | Some h => ServeHTTP env h req
                          end
                      | inl isDir =>
                          file <- os_Open env (if isDir then p ++ "/index.html" else p) ;;
                          match file with
                          | inr err =>
                              Printf ("unable to open file " ++ requestFile req ++ ": " ++ err) ;;;
                              match nf with
                              | None => http_Error "404 - Not found" 404
                              | Some h => ServeHTTP env h req
                              end
                          | inl file =>
                              match io_ReadAll file with
                              | inr _ => http_Error "Internal server error" 500
                              | inl fileBytes =>
                                  Header_Set "Content-Type"
                                    (TypeByExtension env ("." ++ Filepath.Ext (if isDir then p ++ "/index.html" else p))) ;;;
                                  Write fileBytes
                              end
                          end
                      end) s1)).
  { unfold serve. cbn [ServeHTTP]. rewrite Hp, Hg. reflexivity. }
  rewrite E. clear E. unfold bind at 1, ret at 1.
  destruct (Stat env p) as [isDir | err].
  - run. destruct (Open env (if isDir then p ++ "/index.html" else p)) as [f | err].
    + destruct (io_ReadAll f); run; fin.
    + destruct nf as [h |].
      * edestruct (ServeHTTP_trace_extends h req) as [evs E]. rewrite E. fin.
      * run. fin.
  - run. destruct nf as [h |].
    + edestruct (ServeHTTP_trace_extends h req) as [evs E]. rewrite E. fin.
    + run. fin.
Qed.

End HandlerFacts.

(** ** Router assembly *)

Section StartFacts.

Lemma Start_notFound_routes (es : list Endpoint) (r : Router) :
  routes (fold_left Start_notFound es r) = routes r.
Proof.
  revert r. induction es as [|e es IH]; intros r; [reflexivity|].
  cbn [fold_left]. rewrite IH. unfold Start_notFound.
  now destruct (Destination e).
Qed.

Lemma Start_route_notFound (es : list Endpoint) (r : Router) :
  NotFoundHandler (fold_left Start_route es r) = NotFoundHandler r.
Proof.
  revert r. induction es as [|e es IH]; intros r; [reflexivity|].
  cbn [fold_left]. rewrite IH. unfold Start_route.
  now destruct (Destination e).
Qed.

Lemma Start_route_mounts (es : list Endpoint) (r : Router) :
  map fst (routes (fold_left Start_route es r))
  = (map fst (routes r) ++ map MountPoint (filter routable es))%list.
Proof.
  revert r. induction es as [|e es IH]; intros r.
  - simpl. now rewrite app_nil_r.
  - cbn [fold_left filter]. rewrite IH. unfold Start_route, routable.
    destruct (Destination e); cbn [routes NotFoundHandler];
      rewrite ?map_app; cbn [map fst]; rewrite <- ?app_assoc; reflexivity.
Qed.

Lemma Start_middlewares (s : Server) :
  middlewares (Start s) = [LoggingMiddleware].
Proof.
  unfold Start.
  assert (H1 : forall es r, middlewares (fold_left Start_notFound es r) = middlewares r).
  { induction es as [|e es IH]; intros r0; [reflexivity|]. cbn [fold_left].
    rewrite IH. unfold Start_notFound. now destruct (Destination e). }
  assert (H2 : forall es r, middlewares (fold_left Start_route es r) = middlewares r).
  { induction es as [|e es IH]; intros r0; [reflexivity|]. cbn [fold_left].
    rewrite IH. unfold Start_route. now destruct (Destination e). }
  rewrite H2, H1. reflexivity.
Qed.

(** The routes are the routable endpoints, in the order of the slice. *)
Lemma Start_routes_in_order (s : Server) :
  map fst (routes (Start s)) = map MountPoint (filter routable (endpoints s)).
Proof.
  unfold Start. rewrite Start_route_mounts, Start_notFound_routes. reflexivity.
Qed.

Lemma Start_notFound_wired (es : list Endpoint) (r : Router) :
  wired_fallback (NotFoundHandler r) ->
  wired_fallback (NotFoundHandler (fold_left Start_notFound es r)).
Proof.
  revert r. induction es as [|e es IH]; intros r H; [exact H|].
  cbn [fold_left]. apply IH. unfold Start_notFound.
  destruct (Destination e) as [u | fp' nf | fp' | h]; try exact H.
  right. now exists fp'.
Qed.

(** The router's not-found handler is absent or a logged
    [NotFoundFileHandler]. *)
Lemma Start_NotFoundHandler (s : Server) :
  wired_fallback (NotFoundHandler (Start s)).
Proof.
  unfold Start. rewrite Start_route_notFound.
  apply Start_notFound_wired. now left.
Qed.

Lemma Start_route_injects (es : list Endpoint) (r : Router) :
  (forall m fp nf, In (m, filesystemHandler fp nf) (routes r) ->
                   nf = NotFoundHandler r) ->
  forall m fp nf,
    In (m, filesystemHandler fp nf) (routes (fold_left Start_route es r)) ->
    nf = NotFoundHandler r.
Proof.
  revert r. induction es as [|e es IH]; intros r H m fp nf Hin; [now apply (H m fp)|].
  cbn [fold_left] in Hin.
  assert (N : NotFoundHandler (Start_route r e) = NotFoundHandler r)
    by (unfold Start_route; now destruct (Destination e)).
  rewrite <- N. apply (IH (Start_route r e)) with (m := m) (fp := fp); [|exact Hin].
  clear Hin m fp nf. intros m fp nf Hin. rewrite N.
  unfold Start_route in Hin.
  destruct (Destination e) as [u | fp' nf' | fp' | h]; cbn [routes] in Hin;
    try (now apply (H m fp));
    apply in_app_or in Hin; destruct Hin as [Hin | [Hin | []]];
    try (now apply (H m fp)); try discriminate.
  now injection Hin as _ _ <-.
Qed.

(** Every static-file route carries the router's not-found handler. *)
Lemma Start_injects_fallback (s : Server) (m fp : string) (nf : option Handler) :
  In (m, filesystemHandler fp nf) (routes (Start s)) ->
  nf = NotFoundHandler (Start s).
Proof.
  unfold Start. rewrite Start_route_notFound. apply Start_route_injects.
  intros m' fp' nf'. now rewrite Start_notFound_routes.
Qed.

End StartFacts.

(** ** Serving a file *)

Section ServeFacts.

Variable env : Env.

(** The response when the file is found and read. *)
Lemma ServeHTTP_served (fpath : string) (nf : option Handler) (req : Request)
      (p : string) (isDir : bool) (f : File) :
  absFilePathOf env fpath req = inl p ->
  HasPrefix p fpath = true ->
  Stat env p = inl isDir ->
  Open env (if isDir then p ++ "/index.html" else p) = inl f ->
  readErr f = None ->
  serve env (filesystemHandler fpath nf) req
  = {| writer :=
         {| Header :=
              [("Content-Type",
                TypeByExtension env
                  ("." ++ Filepath.Ext (if isDir then p ++ "/index.html" else p)))];
            wroteHeader := Some 200;
            Body := data f |};
       trace := [EvStat p; EvOpen (if isDir then p ++ "/index.html" else p)] |}.
Proof.
  intros Hp Hg Hs Ho Hr. unfold serve. cbn [ServeHTTP].
  rewrite Hp, Hg. cbn [negb]. run. rewrite Hs. run. rewrite Ho.
  unfold io_ReadAll. rewrite Hr. reflexivity.
Qed.

(** When the file cannot be served and a fallback is there, the request
    goes to the fallback with the writer untouched. *)
Lemma ServeHTTP_delegates (fpath : string) (h : Handler) (req : Request)
      (p : string) (s : St) :
  absFilePathOf env fpath req = inl p ->
  HasPrefix p fpath = true ->
  stat_or_open_fails env p ->
  exists evs,
    ServeHTTP env (filesystemHandler fpath (Some h)) req s
    = ServeHTTP env h req {| writer := writer s; trace := (trace s ++ evs)%list |}.
Proof.
  intros Hp Hg [[err Hs] | [isDir [err [Hs Ho]]]];
    cbn [ServeHTTP]; rewrite Hp, Hg; cbn [negb]; run; rewrite Hs; run.
  - eexists. rewrite <- app_assoc. reflexivity.
  - rewrite Ho. run. eexists. rewrite <- !app_assoc. reflexivity.
Qed.

Lemma ServeHTTP_no_fallback (fpath : string) (req : Request) (p : string) :
  absFilePathOf env fpath req = inl p ->
  HasPrefix p fpath = true ->
  stat_or_open_fails env p ->
  writer (serve env (filesystemHandler fpath None) req)
  = notFoundWriter "404 - Not found (not found handler missing)"
  \/ writer (serve env (filesystemHandler fpath None) req)
     = notFoundWriter "404 - Not found".
Proof.
  intros Hp Hg [[err Hs] | [isDir [err [Hs Ho]]]];
    unfold serve; cbn [ServeHTTP]; rewrite Hp, Hg; cbn [negb]; run; rewrite Hs; run.
  - left. reflexivity.
  - rewrite Ho. run. right. reflexivity.
Qed.

(** The not-found handler on a file that opens and reads to its end. *)
Lemma NotFoundFile_readable (h : Handler) (fp d : string) (req : Request) (s : St) :
  serves_file h fp ->
  Open env fp = inl {| data := d; readErr := None |} ->
  Header (writer (snd (ServeHTTP env h req s))) = Header (writer s)
  /\ Body (writer (snd (ServeHTTP env h req s))) = Body (writer s) ++ d
  /\ (wroteHeader (writer s) = None ->
      StatusCode (writer (snd (ServeHTTP env h req s))) = 200).
Proof.
  intros [-> | ->] Ho; cbn [ServeHTTP]; run; rewrite Ho; run; cbn [data readErr];
    destruct (String.eqb_spec d "") as [-> | _]; run;
    rewrite ?append_empty_r; repeat split;
    intros E; unfold StatusCode; cbn [wroteHeader]; now rewrite E.
Qed.

(** A file next to the root, under a name that extends the root's last
    element, is served. *)
Lemma sibling_of_any_root_served (fpath : string) (nf : option Handler) :
  Filepath.IsAbs fpath = true -> Filepath.Clean fpath = fpath -> fpath <> "/" ->
  exists name,
    (exists D, fpath = D ++ "/" ++ name)
    /\ forall (x f d : string) (req : Request),
        x <> "" -> ~ In slash (list_ascii_of_string x) ->
        real (list_ascii_of_string f) ->
        RequestURI req = "/../" ++ name ++ x ++ "/" ++ f ->
        Stat env (fpath ++ x ++ "/" ++ f) = inl false ->
        Open env (fpath ++ x ++ "/" ++ f) = inl {| data := d; readErr := None |} ->
        within_root fpath (fpath ++ x ++ "/" ++ f) = false
        /\ StatusCode (writer (serve env (filesystemHandler fpath nf) req)) = 200
        /\ Body (writer (serve env (filesystemHandler fpath nf) req)) = d
        /\ trace (serve env (filesystemHandler fpath nf) req)
           = [EvStat (fpath ++ x ++ "/" ++ f); EvOpen (fpath ++ x ++ "/" ++ f)].
Proof.
  intros Habs Hclean Hroot.
  destruct (sibling_of_any_root env fpath Habs Hclean Hroot) as [name [HD H]].
  exists name. split; [exact HD|].
  intros x f d req Hx Hsx Rf Huri Hs Ho.
  destruct (H x f req Hx Hsx Rf Huri) as [Hp [Hg Hw]].
  split; [exact Hw|].
  rewrite (ServeHTTP_served fpath nf req _ false _ Hp Hg Hs Ho eq_refl).
  repeat split.
Qed.

End ServeFacts.

(** [Ext] yields nothing or a suffix that starts with its dot. *)
Lemma Ext_rev_shape (rp acc : list ascii) :
  Filepath.Ext_rev rp acc = [] \/ exists l, Filepath.Ext_rev rp acc = dot :: l.
Proof.
  revert acc. induction rp as [|c rp IH]; intros acc; simpl; [now left|].
  destruct (Ascii.eqb c slash); [now left|].
  destruct (Ascii.eqb c dot) eqn:E; [|apply IH].
  apply Ascii.eqb_eq in E. subst c. right. now exists acc.
Qed.

Lemma Ext_shape (p : string) :
  Filepath.Ext p = "" \/ exists s, Filepath.Ext p = String dot s.
Proof.
  unfold Filepath.Ext.
  destruct (Ext_rev_shape (rev (list_ascii_of_string p)) []) as [-> | [l ->]].
  - now left.
  - right. now exists (string_of_list_ascii l).
Qed.

Lemma Load_absent (m : list (string * string)) (k : string) :
  (forall v, ~ In (k, v) m) -> Mime.Load m k = None.
Proof.
  induction m as [|[k' v'] m IH]; intros H; [reflexivity|].
  cbn [Mime.Load]. destruct (String.eqb_spec k' k) as [-> | _].
  - exfalso. apply (H v'). now left.
  - apply IH. intros v Hin. apply (H v). now right.
Qed.

(** In a table with plain keys, the extension [ServeHTTP] looks up, a dot
    followed by [Ext], is never found. *)
Lemma TypeByExtensionIn_dotted_Ext (t1 t2 : list (string * string)) (p : string) :
  plain_keys t1 -> plain_keys t2 ->
  Mime.TypeByExtensionIn t1 t2 ("." ++ Filepath.Ext p) = "".
Proof.
  intros H1 H2. unfold Mime.TypeByExtensionIn.
  destruct (Ext_shape p) as [-> | [s ->]].
  - rewrite !Load_absent; [reflexivity | |];
      intros v Hin; [apply H2 in Hin | apply H1 in Hin]; now destruct Hin.
  - rewrite !Load_absent; [reflexivity | |]; intros v Hin;
      [apply H2 in Hin | apply H1 in Hin]; destruct Hin as [_ Hin];
      unfold HasPrefix in Hin; cbn [append Mime.lower] in Hin;
      rewrite !prefix_cons, prefix_nil in Hin; discriminate.
Qed.

Lemma builtinTypesLower_plain : plain_keys Mime.builtinTypesLower.
Proof.
  intros k v Hin. cbn [Mime.builtinTypesLower In] in Hin.
  repeat (destruct Hin as [Hin | Hin];
          [injection Hin as <- _; split; [discriminate | reflexivity] |]).
  destruct Hin.
Qed.

(** No extension of the built-in table starts with two dots, so the
    extension [ServeHTTP] looks up is never found. *)
Lemma builtin_type_of_dotted_Ext (p : string) :
  Mime.builtinTypeByExtension ("." ++ Filepath.Ext p) = "".
Proof.
  apply TypeByExtensionIn_dotted_Ext; apply builtinTypesLower_plain.
Qed.

(** So every file served on a host with the built-in table goes out with
    an empty [Content-Type]. *)
Lemma served_content_type_is_empty (env : Env) (fpath : string)
      (nf : option Handler) (req : Request) (p : string) (isDir : bool) (f : File) :
  TypeByExtension env = Mime.builtinTypeByExtension ->
  absFilePathOf env fpath req = inl p ->
  HasPrefix p fpath = true ->
  Stat env p = inl isDir ->
  Open env (if isDir then p ++ "/index.html" else p) = inl f ->
  readErr f = None ->
  writer (serve env (filesystemHandler fpath nf) req)
  = {| Header := [("Content-Type", "")]; wroteHeader := Some 200; Body := data f |}.
Proof.
  intros Ht Hp Hg Hs Ho Hr.
  rewrite (ServeHTTP_served env fpath nf req p isDir f Hp Hg Hs Ho Hr).
  cbn [writer]. now rewrite Ht, builtin_type_of_dotted_Ext.
Qed.

(** ** The map-keyed revision *)

Section MapKeyedFacts.

Variable env : Env.

(** Its director rewrites the URL as the other one does, and the host
    header too. *)
Lemma mapkeyed_director_rewrites (destUrl : URL) (req : Request) :
  ReqURL (MapKeyed.director destUrl req) = ReqURL (director destUrl req)
  /\ ReqHost (MapKeyed.director destUrl req) = Host destUrl.
Proof. split; reflexivity. Qed.

(** Its guard turns down what lacks the root as a string prefix. *)
Lemma mapkeyed_guard_rejects (fpath : string) (nf : option Handler) (req : Request) :
  let p := Filepath.Clean (Filepath.Join [fpath; "/"; requestFile req]) in
  HasPrefix p fpath = false ->
  MapKeyed.serve env (filesystemHandler fpath nf) req
  = {| writer := notFoundWriter "404 - Not found";
       trace := [EvLog ("path traversal: " ++ p)] |}.
Proof.
  cbv zeta. intros H. unfold MapKeyed.serve. cbn [MapKeyed.ServeHTTP].
  unfold MapKeyed.FromSlash. rewrite H. reflexivity.
Qed.

(** In the map, the endpoint declared last under a mount point is the
    one that stays. *)
Lemma mapkeyed_New_loop_snoc (es : list string) (e : string) (ep : Endpoint)
      (m : MapKeyed.HandlerMap) (s : MapKeyed.Server) :
  MapKeyed.parseEndpoint env e = Ok ep ->
  MapKeyed.New_loop env (es ++ [e]) {| MapKeyed.endpoints := m |} = Ok s ->
  MapKeyed.endpoints s (MountPoint ep) = Some (Destination ep).
Proof.
  intros He. revert m. induction es as [|e' es IH]; intros m H.
  - cbn [app MapKeyed.New_loop] in H. rewrite He in H. injection H as <-.
    cbn [MapKeyed.endpoints]. unfold MapKeyed.map_store. now rewrite String.eqb_refl.
  - cbn [app MapKeyed.New_loop] in H.
    destruct (MapKeyed.parseEndpoint env e') as [ep' | |]; try discriminate.
    exact (IH _ H).
Qed.

Lemma mapkeyed_New_last_wins (es : list string) (e : string) (ep : Endpoint)
      (s : MapKeyed.Server) :
  MapKeyed.parseEndpoint env e = Ok ep ->
  MapKeyed.New env (es ++ [e]) = Ok s ->
  MapKeyed.endpoints s (MountPoint ep) = Some (Destination ep).
Proof. intros He H. exact (mapkeyed_New_loop_snoc es e ep _ s He H). Qed.

End MapKeyedFacts.

(** On the sample host: two endpoints declared at [/] leave one handler,
    the second; a sibling of the root is served; the header of a served
    file is empty; a root given as [./dist/] turns every request down. *)
Lemma mapkeyed_on_sample_host :
  (exists s, MapKeyed.New Sample.srv ["/:file=/srv/a"; "/:file=/srv/b"] = Ok s
             /\ MapKeyed.endpoints s "/" = Some (filesystemHandler "/srv/b" None))
  /\ MapKeyed.serve Sample.srv (filesystemHandler "/srv/dist" None)
       (Sample.GET "/../dist-secret/f" "/../dist-secret/f" "")
     = {| writer := {| Header := [("Content-Type", "")];
                       wroteHeader := Some 200;
                       Body := "secret" |};
          trace := [EvStat "/srv/dist-secret/f"; EvOpen "/srv/dist-secret/f"] |}
  /\ MapKeyed.serve Sample.srv (filesystemHandler "./dist/" None)
       (Sample.GET "/index.html" "/index.html" "")
     = {| writer := notFoundWriter "404 - Not found";
          trace := [EvLog "path traversal: dist/index.html"] |}.
Proof.
  split; [|split; reflexivity].
  eexists. split; reflexivity.
Qed.

(** ** More on the parser *)

Section ParserMore.

Variable env : Env.

(** Where the separator byte first occurs. *)
Lemma Index_byte_split (c : ascii) (s : string) (i : nat) :
  Index s (String c "") = Some i ->
  exists m rest, s = m ++ String c rest /\ Index m (String c "") = None.
Proof.
  revert i. induction s as [|a s IH]; intros i H.
  - discriminate.
  - rewrite Index_byte_cons in H. destruct (Ascii.eqb c a) eqn:E.
    + apply Ascii.eqb_eq in E. subst a. exists "", s. split; reflexivity.
    + destruct (Index s (String c "")) as [j|] eqn:Ej; [|discriminate].
      destruct (IH j eq_refl) as [m [rest [-> Hm]]].
      exists (String a m), rest. split; [reflexivity|].
      now rewrite Index_byte_cons, E, Hm.
Qed.

Lemma Index_byte_cases (c : ascii) (s : string) :
  Index s (String c "") = None
  \/ exists m rest, s = m ++ String c rest /\ Index m (String c "") = None.
Proof.
  destruct (Index s (String c "")) as [i|] eqn:E; [right | now left].
  exact (Index_byte_split c s i E).
Qed.

(** A destination that parses has a kind, an ['='] and an argument. *)
Lemma parseDest_Ok_inv (dest : string) (h : Handler) :
  parseDest env dest = Ok h ->
  exists k a,
    dest = k ++ "=" ++ a /\ Index k "=" = None
    /\ ((k = "proxy" /\ exists u, url_Parse env a = inl u /\ h = ReverseProxy u)
        \/ (k = "file" /\ exists p, Filepath.Abs (Getwd env) a = inl p
                                    /\ h = filesystemHandler p None)
        \/ (k = "404" /\ h = NotFoundFileHandler a)).
Proof.
  intros H. destruct (Index_byte_cases "=" dest) as [N | [k [a [-> Hk]]]].
  - rewrite (parseDest_no_equals env dest N) in H. discriminate.
  - exists k, a. split; [reflexivity|]. split; [exact Hk|].
    change (k ++ String "=" a) with (k ++ "=" ++ a) in H.
    rewrite (parseDest_first_equals env k a Hk) in H.
    destruct (String.eqb_spec k "proxy") as [-> | _].
    { left. split; [reflexivity|]. unfold reverseProxy in H.
      destruct (url_Parse env a) as [u | err]; [|discriminate].
      injection H as <-. now exists u. }
    destruct (String.eqb_spec k "file") as [-> | _].
    { right. left. split; [reflexivity|]. unfold staticFiles, newFSHandler in H.
      destruct (Filepath.Abs (Getwd env) a) as [p | err]; [|discriminate].
      injection H as <-. now exists p. }
    destruct (String.eqb_spec k "404") as [-> | _]; [|discriminate].
    right. right. split; [reflexivity|]. now injection H as <-.
Qed.

Lemma parseEndpoint_Ok_inv (e : string) (ep : Endpoint) :
  parseEndpoint env e = Ok ep ->
  exists rest,
    e = MountPoint ep ++ ":" ++ rest /\ Index (MountPoint ep) ":" = None
    /\ parseDest env rest = Ok (Destination ep).
Proof.
  intros H. destruct (Index_byte_cases ":" e) as [N | [m [rest [-> Hm]]]].
  - rewrite (parseEndpoint_no_colon env e N) in H. discriminate.
  - change (m ++ String ":" rest) with (m ++ ":" ++ rest) in H.
    rewrite (parseEndpoint_first_colon env m rest Hm) in H.
    destruct (parseDest env rest) as [d | |] eqn:D; try discriminate.
    cbn [rbind] in H. injection H as <-. cbn [MountPoint Destination].
    exists rest. now repeat split.
Qed.

(** [New] up to the first string that does not parse. *)
Lemma New_loop_stops (pre : list string) (e : string) (post : list string)
      (eps acc : list Endpoint) :
  Forall2 (fun e ep => parseEndpoint env e = Ok ep) pre eps ->
  New_loop env (pre ++ e :: post) {| endpoints := acc |}
  = match parseEndpoint env e with
    | Ok ep => New_loop env post {| endpoints := (acc ++ eps ++ [ep])%list |}
    | Err err => Err ("unable to parse endpoint: " ++ err)
    | Panic m => Panic m
    end.
Proof.
  intros H. revert acc. induction H as [|e0 ep0 pre eps He _ IH]; intros acc.
  - cbn [app New_loop endpoints]. destruct (parseEndpoint env e); reflexivity.
  - cbn [app New_loop]. rewrite He. cbn [endpoints]. rewrite IH.
    destruct (parseEndpoint env e); try reflexivity.
    now rewrite <- app_assoc.
Qed.

(** Every list of strings parses up to its first failure, if any. *)
Lemma first_failure (es : list string) :
  (exists eps, Forall2 (fun e ep => parseEndpoint env e = Ok ep) es eps)
  \/ (exists pre e post eps,
         es = (pre ++ e :: post)%list
         /\ Forall2 (fun e ep => parseEndpoint env e = Ok ep) pre eps
         /\ forall ep, parseEndpoint env e <> Ok ep).
Proof.
  induction es as [|e es IH].
  - left. exists []. constructor.
  - destruct (parseEndpoint env e) as [ep | err | m] eqn:E.
    + destruct IH as [[eps F] | [pre [e' [post [eps [-> [F N]]]]]]].
      * left. exists (ep :: eps). now constructor.
      * right. exists (e :: pre), e', post, (ep :: eps).
        split; [reflexivity|]. split; [now constructor | exact N].
    + right. exists [], e, es, []. split; [reflexivity|].
      split; [constructor|]. intros ep. now rewrite E.
    + right. exists [], e, es, []. split; [reflexivity|].
      split; [constructor|]. intros ep. now rewrite E.
Qed.

End ParserMore.

(** ** More on router assembly *)

Section StartMore.

Lemma Start_notFound_snoc (es : list Endpoint) (e : Endpoint) (r : Router) :
  fold_left Start_notFound (es ++ [e]) r
  = Start_notFound (fold_left Start_notFound es r) e.
Proof. now rewrite fold_left_app. Qed.

Lemma Start_notFound_last (es : list Endpoint) (r : Router) :
  NotFoundHandler (fold_left Start_notFound es r)
  = match lastNotFound es with
    | Some h => Some h
    | None => NotFoundHandler r
    end.
Proof.
  induction es as [|e es IH] using rev_ind; [reflexivity|].
  rewrite Start_notFound_snoc. unfold lastNotFound in *.
  rewrite rev_app_distr. cbn [rev app find]. unfold Start_notFound, routable at 1.
  destruct (Destination e) eqn:D; cbn [negb NotFoundHandler]; try exact IH.
  now rewrite D.
Qed.

Lemma Start_route_exact (es : list Endpoint) (r : Router) :
  routes (fold_left Start_route es r)
  = (routes r
       ++ map (fun e => (MountPoint e, wire (NotFoundHandler r) (Destination e)))
              (filter routable es))%list.
Proof.
  revert r. induction es as [|e es IH]; intros r.
  - cbn [fold_left filter map]. now rewrite app_nil_r.
  - cbn [fold_left filter]. rewrite IH. unfold Start_route, routable, wire.
    destruct (Destination e) eqn:D; cbn [routes NotFoundHandler map];
      rewrite ?D; rewrite <- ?app_assoc; reflexivity.
Qed.

End StartMore.

(** ** More on the handlers *)

Section HandlerMore.

Variable env : Env.

(** A handler reads the writer it is given and nothing of the trace: on
    any state it does what it does from an empty trace, after what was
    there. *)
Lemma ServeHTTP_frame :
  forall (h : Handler) (req : Request) (w : ResponseWriter) (t : list Event),
    snd (ServeHTTP env h req {| writer := w; trace := t |})
    = {| writer := writer (snd (ServeHTTP env h req {| writer := w; trace := [] |}));
         trace := (t ++ trace (snd (ServeHTTP env h req {| writer := w; trace := [] |})))%list |}.
Proof.
  fix IH 1. intros [destUrl | fpath nf | filePath | next] req w t.
  - reflexivity.
  - cbn [ServeHTTP].
    destruct (absFilePathOf env fpath req) as [p | err]; [|reflexivity].
    destruct (HasPrefix p fpath); cbn [negb]; [|reflexivity].
    run. destruct (Stat env p) as [isDir | err].
    + destruct (Open env (if isDir then p ++ "/index.html" else p)) as [f | err].
      * destruct (io_ReadAll f); run; now rewrite <- ?app_assoc.
      * destruct nf as [h' |]; run; [|now rewrite <- ?app_assoc].
        rewrite (IH h' req w (_ ++ _)%list).
        rewrite (IH h' req w (_ :: _)%list).
        cbn [writer trace app]. rewrite <- !app_assoc. reflexivity.
    + destruct nf as [h' |]; run; [|now rewrite <- ?app_assoc].
      rewrite (IH h' req w (_ ++ _)%list).
      rewrite (IH h' req w (_ :: _)%list).
      cbn [writer trace app]. rewrite <- !app_assoc. reflexivity.
  - cbn [ServeHTTP]. run. destruct (Open env filePath) as [f | err]; [|reflexivity].
    run. destruct (String.eqb (data f) ""); destruct (readErr f); reflexivity.
  - cbn [ServeHTTP]. run.
    rewrite (IH next req w (t ++ _)%list). rewrite (IH next req w (_ :: _)%list).
    cbn [writer trace app]. rewrite <- !app_assoc. reflexivity.
Qed.

(** The handler's own part of a request that passes the guard. *)
Lemma HasPrefix_append_r (p r s : string) :
  HasPrefix p r = true -> HasPrefix (p ++ s) r = true.
Proof.
  intros H. apply HasPrefix_iff in H. destruct H as [rest ->].
  rewrite append_assoc. apply HasPrefix_append.
Qed.

End HandlerMore.


(** ** More on path resolution *)

Section ResolveMore.

Import Filepath.

Variable env : Env.

Lemma rooted_string (s : string) :
  IsAbs s = true -> exists t, s = String slash t.
Proof.
  destruct s as [|c s]; [discriminate|]. unfold IsAbs, HasPrefix.
  rewrite prefix_cons, prefix_nil. intros H. exists s.
  destruct (Ascii.eqb_spec "/"%char c); [now subst | discriminate].
Qed.

Lemma IsAbs_append (s t : string) : IsAbs s = true -> IsAbs (s ++ t) = true.
Proof.
  intros H. destruct (rooted_string s H) as [u ->]. unfold IsAbs, HasPrefix.
  cbn [append]. now rewrite prefix_cons, prefix_nil.
Qed.

(** With an absolute root the three cleanings of [ServeHTTP] are one, and
    the working directory is not asked for. *)
Lemma absFilePathOf_absolute (root : string) (req : Request) :
  IsAbs root = true ->
  absFilePathOf env root req
  = inl (Clean (root ++ "/" ++ "/" ++ "/" ++ requestFile req)).
Proof.
  intros H. pose proof (IsAbs_append root ("/" ++ "/" ++ "/" ++ requestFile req) H) as A.
  destruct (Clean_rooted_idempotent _ A) as [A' I].
  unfold absFilePathOf. destruct (rooted_string root H) as [t ->].
  cbn [Join String.eqb GoString.Join]. rewrite I. unfold Abs. now rewrite A', I.
Qed.

(** Reading a clean rooted path onto a buffer appends it. *)
Lemma clean_loop_onto (U : lazybuf) :
  canon U ->
  forall (X O : lazybuf) (f : nat),
    U = (X ++ [slash])%list -> X <> [] -> canon O -> List.length X <= f ->
    clean_loop f true (rev X) O 1
    = ((X ++ (if (List.length O =? 1)%nat then O else slash :: O))%list, 1).
Proof.
  induction 1 as [| seg R | seg out R C IH N]; intros X O f E HX CO Hf.
  - destruct X as [|a [|b X]]; [congruence | discriminate | discriminate].
  - apply app_inj_tail in E. destruct E as [<- _]. rewrite rev_involutive.
    rewrite length_rev in Hf.
    rewrite (clean_loop_fuel true f (S (List.length seg))) by lia.
    now rewrite clean_loop_real by (try exact R; lia).
  - destruct (canon_rooted _ C) as [l El].
    assert (Eo : out = (rev l ++ [slash])%list).
    { apply (f_equal (@rev ascii)) in El. now rewrite rev_involutive in El. }
    assert (Hl : rev l <> []).
    { intros Z. apply N. now rewrite Eo, Z. }
    assert (EX : X = (rev seg ++ slash :: rev l)%list).
    { rewrite Eo in E.
      change (rev seg ++ slash :: rev l ++ [slash])%list
        with (rev seg ++ (slash :: rev l) ++ [slash])%list in E.
      rewrite app_assoc in E. apply app_inj_tail in E. now destruct E as [<- _]. }
    subst X. rewrite rev_app_distr. cbn [rev]. rewrite !rev_involutive, <- app_assoc.
    cbn [app]. rewrite length_app in Hf. cbn [List.length] in Hf.
    rewrite !length_rev in Hf.
    rewrite (clean_loop_app true (List.length l));
      [| lia | rewrite length_app; cbn [List.length]; lia].
    pose proof (IH (rev l) O (List.length l) Eo Hl CO) as H1.
    rewrite length_rev, rev_involutive in H1. rewrite (H1 (le_n _)).
    rewrite (clean_loop_fuel true f (S (S (List.length seg))))
      by (cbn [List.length]; lia).
    rewrite clean_loop_empty_element.
    rewrite clean_loop_real by (try exact R; lia).
    pose proof (canon_nonempty _ CO) as HO.
    replace (List.length (rev l ++ (if (List.length O =? 1)%nat then O else slash :: O))
               =? 1)%nat with false.
    + now rewrite <- app_assoc.
    + symmetry. apply Nat.eqb_neq. rewrite length_app.
      destruct (rev l); [congruence|].
      destruct (List.length O =? 1)%nat; destruct O; cbn [List.length]; try congruence; lia.
Qed.

(** A rooted clean string and its buffer. *)
Lemma canon_of_clean (s : string) :
  Clean (String slash s) = String slash s ->
  exists out, canon out /\ rev out = slash :: list_ascii_of_string s.
Proof.
  intros H. destruct (Clean_rooted s) as [out [C E]]. rewrite H in E.
  exists out. split; [exact C|].
  apply (f_equal list_ascii_of_string) in E.
  now rewrite list_ascii_of_string_of_list_ascii in E.
Qed.

(** Joining a clean absolute target onto a clean absolute root puts the
    one after the other. *)
Lemma Clean_onto_root (R U : string) :
  IsAbs R = true -> Clean R = R -> R <> "/" ->
  IsAbs U = true -> Clean U = U -> U <> "/" ->
  Clean (R ++ "/" ++ "/" ++ U) = R ++ U.
Proof.
  intros AR CR NR AU CU NU.
  destruct (rooted_string R AR) as [s ->]. destruct (rooted_string U AU) as [u ->].
  destruct (canon_of_clean s CR) as [oR [CoR ER]].
  destruct (canon_of_clean u CU) as [oU [CoU EU]].
  assert (EoU : oU = (rev (list_ascii_of_string u) ++ [slash])%list).
  { apply (f_equal (@rev ascii)) in EU. now rewrite rev_involutive in EU. }
  assert (Hu : rev (list_ascii_of_string u) <> []).
  { intros Z. apply NU. destruct u; [reflexivity|].
    cbn [list_ascii_of_string rev] in Z. now destruct (rev (list_ascii_of_string u)). }
  assert (LR : (List.length oR =? 1)%nat = false).
  { apply Nat.eqb_neq. intros L. apply NR.
    rewrite (canon_length_1 _ CoR L) in ER. injection ER as ER.
    destruct s; [reflexivity | discriminate]. }
  change (String slash s ++ "/" ++ "/" ++ String slash u)
    with (String slash (s ++ "/" ++ "/" ++ String slash u)).
  rewrite (Clean_rooted_loop (s ++ "/" ++ "/" ++ String slash u)
             (rev (list_ascii_of_string u) ++ slash :: oR)%list 1).
  - rewrite rev_app_distr. cbn [rev]. rewrite rev_involutive, ER, <- app_assoc.
    cbn [app string_of_list_ascii].
    rewrite string_of_list_ascii_app. cbn [string_of_list_ascii].
    now rewrite !string_of_list_ascii_of_string.
  - rewrite !list_ascii_of_string_append, !length_append.
    change (list_ascii_of_string "/") with [slash].
    change (list_ascii_of_string (String slash u))
      with (slash :: list_ascii_of_string u).
    cbn [app String.length].
    assert (Es : list_ascii_of_string s = tl (rev oR)) by now rewrite ER.
    assert (LoR : List.length oR = S (String.length s)).
    { rewrite <- length_rev, ER. cbn [List.length].
      now rewrite length_list_ascii_of_string. }
    rewrite (clean_loop_app true (List.length oR));
      [| rewrite length_list_ascii_of_string; lia
       | rewrite length_app; cbn [List.length];
         rewrite !length_list_ascii_of_string; lia].
    rewrite Es, (clean_loop_reads_back _ CoR _ (le_n _)).
    rewrite (clean_loop_fuel true _ (S (S (S (List.length (list_ascii_of_string u))))))
      by (cbn [List.length]; rewrite ?length_list_ascii_of_string; lia).
    rewrite !clean_loop_empty_element.
    pose proof (clean_loop_onto oU CoU (rev (list_ascii_of_string u)) oR
                  (List.length (list_ascii_of_string u)) EoU Hu CoR) as H.
    rewrite rev_involutive, length_rev, LR in H. exact (H (le_n _)).
  - destruct (rev (list_ascii_of_string u)); discriminate.
Qed.

(** [Clean] does not see a separator at the end. *)
Lemma Clean_trailing_slash (s : string) :
  IsAbs s = true -> Clean (s ++ "/") = Clean s.
Proof.
  intros A. destruct (rooted_string s A) as [t ->]. unfold Clean. cbn [append].
  rewrite Ascii.eqb_refl.
  change (list_ascii_of_string (String slash (t ++ "/")))
    with (slash :: list_ascii_of_string (t ++ "/")).
  change (list_ascii_of_string (String slash t)) with (slash :: list_ascii_of_string t).
  cbn [tl List.length]. rewrite list_ascii_of_string_append.
  change (list_ascii_of_string "/") with [slash].
  rewrite (clean_loop_app true (List.length (list_ascii_of_string t)));
    [| lia | rewrite length_app; cbn [List.length]; lia].
  rewrite (clean_loop_fuel true (S (List.length (list_ascii_of_string t)))
             (List.length (list_ascii_of_string t))) by lia.
  destruct (clean_loop _ true (list_ascii_of_string t) [slash] 1) as [o d].
  rewrite length_app. cbn [List.length]. rewrite Nat.add_comm. reflexivity.
Qed.

(** What the target's request file becomes when a separator is put
    after the target. *)
Lemma requestFile_trailing_slash (req req' : Request) :
  RequestURI req' = RequestURI req ++ "/" ->
  (requestFile req' = requestFile req)
  \/ (requestFile req' = requestFile req ++ "/" /\ requestFile req <> "./")
  \/ (requestFile req' = "/" /\ requestFile req = "./")
  \/ (requestFile req' = ".//" /\ requestFile req = "./").
Proof.
  intros E. unfold requestFile. rewrite E.
  destruct (RequestURI req) as [|c u]; [now left|].
  unfold HasPrefix. cbn [append]. rewrite !prefix_cons, !prefix_nil.
  destruct (Ascii.eqb_spec "/"%char c) as [<- | N].
  - change (slice_from (String "/" (u ++ "/")) 1) with (slice_from (u ++ "/") 0).
    change (slice_from (String "/" u) 1) with (slice_from u 0).
    rewrite !slice_from_0. destruct u as [|d u]; [right; right; left; now split|].
    cbn [append String.eqb].
    destruct (String.eqb_spec (String d u) "./") as [Eq | N'].
    + injection Eq as -> ->. right. right. right. now split.
    + right. left. now split.
  - cbn [String.eqb]. destruct (String.eqb_spec (String c u) "./") as [Eq | N'].
    + injection Eq as -> ->. right. right. right. now split.
    + right. left. now split.
Qed.

(** Without a fallback the answer depends on the request through the
    resolved path only. *)
Lemma writer_by_resolution (root : string) (req req' : Request) :
  absFilePathOf env root req' = absFilePathOf env root req ->
  writer (serve env (filesystemHandler root None) req')
  = writer (serve env (filesystemHandler root None) req).
Proof.
  intros E. unfold serve. cbn [ServeHTTP]. rewrite E.
  destruct (absFilePathOf env root req) as [p | err]; [|reflexivity].
  destruct (HasPrefix p root); cbn [negb]; [|reflexivity].
  run. destruct (Stat env p) as [isDir | err]; [|reflexivity].
  destruct (Open env (if isDir then p ++ "/index.html" else p)) as [f | err];
    [|reflexivity].
  destruct (io_ReadAll f); reflexivity.
Qed.

End ResolveMore.

(** ** More on the map-keyed revision *)

Section MapKeyedMore.

Variable env : Env.

Lemma find_snoc {A : Type} (f : A -> bool) (l : list A) (x : A) :
  find f (l ++ [x])
  = match find f l with
    | Some y => Some y
    | None => if f x then Some x else None
    end.
Proof.
  induction l as [|a l IH]; cbn [app find]; [reflexivity|].
  now destruct (f a).
Qed.

(** What the map holds after the loop of [New]. *)
Lemma mapkeyed_New_loop_lookup (es : list string) (eps : list Endpoint) :
  Forall2 (fun e ep => MapKeyed.parseEndpoint env e = Ok ep) es eps ->
  forall m : MapKeyed.HandlerMap,
  exists s,
    MapKeyed.New_loop env es {| MapKeyed.endpoints := m |} = Ok s
    /\ forall k,
        MapKeyed.endpoints s k
        = match find (fun ep => String.eqb k (MountPoint ep)) (rev eps) with
          | Some ep => Some (Destination ep)
          | None => m k
          end.
Proof.
  induction 1 as [|e ep es eps He _ IH]; intros m.
  - exists {| MapKeyed.endpoints := m |}. split; reflexivity.
  - cbn [MapKeyed.New_loop]. rewrite He. cbn [MapKeyed.endpoints].
    destruct (IH (MapKeyed.map_store m (MountPoint ep) (Destination ep)))
      as [s [Hs Hk]].
    exists s. split; [exact Hs|]. intros k. rewrite Hk. cbn [rev].
    rewrite find_snoc.
    destruct (find (fun ep0 => String.eqb k (MountPoint ep0)) (rev eps));
      [reflexivity|].
    unfold MapKeyed.map_store. now destruct (String.eqb k (MountPoint ep)).
Qed.


(** Under an absolute root the map-keyed handler resolves as the other
    one does. *)
Lemma mapkeyed_resolution (root : string) (req : Request) :
  Filepath.IsAbs root = true ->
  MapKeyed.FromSlash
    (Filepath.Clean (Filepath.Join [root; "/"; requestFile req]))
  = Filepath.Clean (root ++ "/" ++ "/" ++ "/" ++ requestFile req).
Proof.
  intros A. destruct (rooted_string root A) as [t ->].
  unfold MapKeyed.FromSlash. cbn [Filepath.Join String.eqb GoString.Join].
  apply Clean_rooted_idempotent.
  apply (IsAbs_append (String slash t) _ A).
Qed.

End MapKeyedMore.

(** ** More on [Clean] *)

Section CleanMore.

Import Filepath.

Local Open Scope list_scope.

Lemma no_dot_start_app (l m : list ascii) :
  no_dot_start l -> l <> [] -> no_dot_start (l ++ m).
Proof.
  destruct l as [|c [|c2 t]]; [congruence | |]; intros [H1 H2] _; cbn [app].
  - split; [exact H1|]. intros E. destruct (H2 E) as [? [? [? _]]]. discriminate.
  - split; [exact H1|]. intros E. destruct (H2 E) as [x [t' [Et Hx]]].
    injection Et as <- <-. now exists c2, (t ++ m).
Qed.

Lemma no_dot_start_prefix (l m : list ascii) :
  no_dot_start (l ++ m) -> 2 <= List.length l -> no_dot_start l.
Proof.
  destruct l as [|c [|c2 t]]; cbn [List.length]; [lia | lia |]. intros [H1 H2] _.
  split; [exact H1|]. intros E. destruct (H2 E) as [x [t' [Et Hx]]].
  cbn [app] in Et. injection Et as <- _. now exists c2, t.
Qed.

Lemma no_dot_start_before_slash (l m : list ascii) :
  no_dot_start (l ++ slash :: m) -> no_dot_start l.
Proof.
  destruct l as [|c [|c2 t]]; [easy | |].
  - intros [H1 H2]. split; [exact H1|]. intros E.
    destruct (H2 E) as [x [t' [Et Hx]]]. cbn [app] in Et. injection Et as <- _.
    congruence.
  - intros H. apply (no_dot_start_prefix _ (slash :: m) H). cbn [List.length]. lia.
Qed.

Lemma copy_element_no_dot_start (p : list ascii) (out : lazybuf) :
  no_dot_start (rev out) -> out <> [] ->
  no_dot_start (rev (snd (copy_element p out))).
Proof.
  revert out. induction p as [|c p IH]; intros out H N; [exact H|].
  cbn [copy_element]. destruct (Ascii.eqb c slash); [exact H|].
  apply IH; [|discriminate]. cbn [rev]. apply no_dot_start_app; [exact H|].
  intros E. apply N. apply (f_equal (@rev ascii)) in E.
  now rewrite rev_involutive in E.
Qed.

(** Where the loop of [..] stops: at [dotdot] bytes, or behind a
    separator. *)
Lemma backtrack_loop_stops (d : nat) (out : lazybuf) (c : ascii) :
  d <= List.length out ->
  (exists X, c :: out = X ++ backtrack_loop d out c
             /\ List.length (backtrack_loop d out c) = d)
  \/ (exists X, c :: out = X ++ slash :: backtrack_loop d out c).
Proof.
  revert c. induction out as [|c' out IH]; intros c H.
  - left. exists [c]. cbn [List.length] in H. split; [reflexivity|].
    cbn [backtrack_loop List.length]. lia.
  - cbn [backtrack_loop].
    destruct (d <? List.length (c' :: out))%nat eqn:L; cbn [andb].
    + destruct (Ascii.eqb_spec c slash) as [-> | Nc]; cbn [negb].
      * right. now exists [].
      * apply Nat.ltb_lt in L. cbn [List.length] in L.
        destruct (IH c' ltac:(lia)) as [[X [E Hl]] | [X E]].
        -- left. exists (c :: X). split; [|exact Hl]. cbn [app]. now rewrite <- E.
        -- right. exists (c :: X). cbn [app]. now rewrite <- E.
    + left. exists [c]. split; [reflexivity|]. apply Nat.ltb_ge in L. lia.
Qed.

Lemma backtrack_no_dot_start (d : nat) (out : lazybuf) :
  no_dot_start (rev out) -> d <> 1 -> d < List.length out ->
  no_dot_start (rev (backtrack d out)).
Proof.
  intros H Hd L. destruct out as [|c out]; [exact H|]. cbn [backtrack].
  cbn [List.length] in L.
  destruct (backtrack_loop_stops d out c ltac:(lia)) as [[X [E Hl]] | [X E]];
    rewrite E in H; rewrite rev_app_distr in H.
  - destruct (Nat.eq_dec d 0) as [-> | N0].
    + now destruct (backtrack_loop 0 out c).
    + apply (no_dot_start_prefix _ _ H). rewrite length_rev. lia.
  - cbn [rev] in H. rewrite <- app_assoc in H. cbn [app] in H.
    exact (no_dot_start_before_slash _ _ H).
Qed.

(** A relative [Clean] never has a [.] element first in its buffer. *)
Lemma clean_step_no_dot_start (c : ascii) (p : list ascii) (out : lazybuf)
      (dd : nat) :
  no_dot_start (rev out) -> dd <> 1 ->
  no_dot_start (rev (snd (fst (clean_step false (c :: p) out dd))))
  /\ snd (clean_step false (c :: p) out dd) <> 1.
Proof.
  intros H Hd. unfold clean_step.
  destruct (Ascii.eqb_spec c slash) as [Es | Ns]; [now split|].
  destruct (Ascii.eqb c dot && at_end_or_slash p) eqn:E1; [now split|].
  destruct (Ascii.eqb c dot
            && match p with
               | c1 :: p2 => Ascii.eqb c1 dot && at_end_or_slash p2
               | [] => false
               end) eqn:E2.
  - destruct (dd <? List.length out)%nat eqn:L; cbn [negb fst snd].
    + split; [|exact Hd]. apply Nat.ltb_lt in L. now apply backtrack_no_dot_start.
    + split; [|cbn [List.length]; lia].
      destruct out as [|o out]; [cbn; split; [discriminate | intros _];
                                 exists dot, []; split; [reflexivity | discriminate]|].
      cbn [List.length Nat.ltb Nat.leb]. cbn [rev] in H |- *.
      rewrite <- !app_assoc. rewrite app_assoc.
      apply no_dot_start_app; [exact H | now destruct (rev out)].
  - cbn [andb negb orb].
    assert (K : forall o1, no_dot_start (rev (c :: o1)) ->
                no_dot_start (rev (snd (copy_element (c :: p) o1)))).
    { intros o1 Ho. cbn [copy_element].
      destruct (Ascii.eqb_spec c slash) as [|_]; [contradiction|].
      apply copy_element_no_dot_start; [exact Ho | discriminate]. }
    match goal with |- context [copy_element (c :: p) ?o] => set (o1 := o) end.
    enough (G : no_dot_start (rev (snd (copy_element (c :: p) o1))))
      by (destruct (copy_element (c :: p) o1) as [rest out2]; now split).
    subst o1. destruct out as [|o out]; cbn [List.length Nat.eqb negb].
    + destruct (Ascii.eqb_spec c dot) as [-> | Nd].
      * cbn [andb] in E1, E2. destruct p as [|c1 p2]; [discriminate|].
        cbn [at_end_or_slash] in E1. cbn [copy_element].
        change (Ascii.eqb dot slash) with false. cbv iota. rewrite E1.
        apply copy_element_no_dot_start; [|discriminate].
        cbn. split; [discriminate|]. intros _. exists c1, []. split; [reflexivity|].
        intros ->. now rewrite Ascii.eqb_refl in E1.
      * apply K. cbn. split; [exact Ns|]. intros E. contradiction.
    + apply K. cbn [rev] in H |- *. rewrite <- !app_assoc. rewrite app_assoc.
      apply no_dot_start_app; [exact H | now destruct (rev out)].
Qed.

Lemma clean_loop_no_dot_start (f : nat) (p : list ascii) (out : lazybuf) (dd : nat) :
  no_dot_start (rev out) -> dd <> 1 ->
  no_dot_start (rev (fst (clean_loop f false p out dd))).
Proof.
  revert p out dd. induction f as [|f IH]; intros p out dd H Hd; [exact H|].
  destruct p as [|c p]; [exact H|]. cbn [clean_loop].
  destruct (clean_step_no_dot_start c p out dd H Hd) as [H' Hd'].
  destruct (clean_step false (c :: p) out dd) as [[p' out'] dd'].
  cbn [fst snd] in H', Hd'. now apply IH.
Qed.

(** What [Clean] returns never begins with [./]. *)
Lemma Clean_no_dot_slash (s : string) : HasPrefix (Clean s) "./" = false.
Proof.
  destruct s as [|c0 s]; [reflexivity|].
  destruct (Ascii.eqb_spec c0 slash) as [-> | N].
  - destruct (Clean_rooted s) as [out [C ->]]. destruct (canon_rooted _ C) as [l ->].
    reflexivity.
  - unfold Clean. apply Ascii.eqb_neq in N. rewrite N.
    pose proof (clean_loop_no_dot_start
                  (List.length (list_ascii_of_string (String c0 s)))
                  (list_ascii_of_string (String c0 s)) [] 0 I ltac:(lia)) as H.
    destruct (clean_loop _ false _ [] 0) as [out dd]. cbn [fst] in H.
    destruct out as [|o out]; [reflexivity|].
    destruct (rev (o :: out)) as [|c t]; [reflexivity|].
    destruct H as [H1 H2]. cbn [string_of_list_ascii]. unfold HasPrefix.
    rewrite prefix_cons. destruct (Ascii.eqb_spec "."%char c) as [<- | _]; [|reflexivity].
    destruct (H2 eq_refl) as [c2 [t' [-> Hc]]]. cbn [string_of_list_ascii].
    rewrite prefix_cons. destruct (Ascii.eqb_spec "/"%char c2) as [<- | _]; [|reflexivity].
    now contradiction Hc.
Qed.

(** [Clean] writes no more than it has read. *)
Lemma backtrack_loop_length (d : nat) (out : lazybuf) (c : ascii) :
  List.length (backtrack_loop d out c) <= List.length out.
Proof.
  revert c. induction out as [|c' out IH]; intros c; [reflexivity|].
  cbn [backtrack_loop].
  destruct ((d <? List.length (c' :: out))%nat && negb (Ascii.eqb c slash));
    [|reflexivity].
  specialize (IH c'). cbn [List.length]. lia.
Qed.

Lemma backtrack_length (d : nat) (out : lazybuf) :
  List.length (backtrack d out) <= List.length out.
Proof.
  destruct out as [|c out]; [reflexivity|]. cbn [backtrack List.length].
  pose proof (backtrack_loop_length d out c). lia.
Qed.

Lemma clean_step_slack (n : nat) (rooted : bool) (c : ascii) (p : list ascii)
      (out : lazybuf) (dd : nat) :
  slack_ok n rooted (c :: p) out ->
  slack_ok n rooted (fst (fst (clean_step rooted (c :: p) out dd)))
           (snd (fst (clean_step rooted (c :: p) out dd))).
Proof.
  intros [Hn Hs]. cbn [List.length] in Hn. unfold clean_step.
  destruct (Ascii.eqb c slash) eqn:Es.
  { cbn [fst snd]. split; [lia | right; left; lia]. }
  destruct (Ascii.eqb c dot && at_end_or_slash p) eqn:E1.
  { cbn [fst snd]. split; [lia | right; left; lia]. }
  assert (Hs' : List.length out + S (List.length p) < n
                \/ sep_needed rooted out = false).
  { destruct Hs as [Hs | Hs]; [|exact Hs]. cbn [at_end_or_slash] in Hs. congruence. }
  destruct (Ascii.eqb c dot
            && match p with
               | c1 :: p2 => Ascii.eqb c1 dot && at_end_or_slash p2
               | [] => false
               end) eqn:E2.
  - destruct p as [|c1 p2]; [now rewrite andb_false_r in E2|].
    apply andb_prop in E2. destruct E2 as [_ E2]. apply andb_prop in E2.
    destruct E2 as [_ E2]. cbn [List.length tl] in *.
    destruct (dd <? List.length out)%nat; [|destruct rooted; cbn [negb]];
      cbn [fst snd]; (split; [|left; exact E2]).
    + pose proof (backtrack_length dd out). lia.
    + lia.
    + destruct out as [|o out]; cbn [List.length Nat.ltb Nat.leb]; [lia|].
      destruct Hs' as [Hs' | Hs']; [cbn [List.length] in Hs'; lia|].
      discriminate Hs'.
  - match goal with |- context [copy_element (c :: p) ?o] => set (o1 := o) end.
    destruct (copy_element_spec (c :: p) o1) as [seg [rest [Ep [_ [Hr C]]]]].
    rewrite C. cbn [fst snd]. split; [|left; exact Hr].
    apply (f_equal (@List.length ascii)) in Ep. rewrite length_app in Ep.
    cbn [List.length] in Ep. rewrite length_app, length_rev. subst o1.
    unfold sep_needed in Hs'.
    match goal with
    | |- context [if ?b then slash :: out else out] => destruct b eqn:B
    end; cbn [List.length]; [|lia].
    destruct Hs' as [Hs' | Hs']; [lia | congruence].
Qed.

Lemma clean_loop_slack (n f : nat) (rooted : bool) (p : list ascii)
      (out : lazybuf) (dd : nat) :
  slack_ok n rooted p out ->
  List.length (fst (clean_loop f rooted p out dd)) <= n.
Proof.
  revert p out dd. induction f as [|f IH]; intros p out dd H.
  - destruct H as [H _]. cbn [clean_loop fst]. lia.
  - destruct p as [|c p]; [destruct H as [H _]; cbn [clean_loop fst]; lia|].
    cbn [clean_loop]. pose proof (clean_step_slack n rooted c p out dd H) as H'.
    destruct (clean_step rooted (c :: p) out dd) as [[p' out'] dd'].
    cbn [fst snd] in H'. now apply IH.
Qed.

Lemma length_string_of_list_ascii (l : list ascii) :
  String.length (string_of_list_ascii l) = List.length l.
Proof. induction l as [|c l IH]; simpl; [reflexivity | now rewrite IH]. Qed.

Lemma Clean_length (s : string) :
  s <> "" -> String.length (Clean s) <= String.length s.
Proof.
  destruct s as [|c0 s]; [congruence|]. intros _. unfold Clean.
  set (p := list_ascii_of_string (String c0 s)).
  assert (Lp : List.length p = String.length (String c0 s))
    by apply length_list_ascii_of_string.
  assert (H : forall out dd,
             (if Ascii.eqb c0 slash
              then clean_loop (List.length p) (Ascii.eqb c0 slash) (tl p) [slash] 1
              else clean_loop (List.length p) (Ascii.eqb c0 slash) p [] 0) = (out, dd) ->
             List.length out <= List.length p).
  { intros out dd E. change out with (fst (out, dd)). rewrite <- E.
    destruct (Ascii.eqb c0 slash); apply clean_loop_slack;
      (split; [subst p; cbn [list_ascii_of_string tl List.length]; lia|]);
      right; right; reflexivity. }
  destruct (if Ascii.eqb c0 slash then _ else _) as [out dd].
  specialize (H out dd eq_refl).
  destruct out as [|o out]; [cbn [String.length]; lia|].
  rewrite length_string_of_list_ascii, length_rev. lia.
Qed.

(** A string that comes out of [Clean] with itself as a prefix comes out
    as it is. *)
Lemma Clean_prefix_fixed (s : string) :
  s <> "" -> HasPrefix (Clean s) s = true -> Clean s = s.
Proof.
  intros N H. apply HasPrefix_iff in H. destruct H as [rest E].
  pose proof (Clean_length s N) as L. rewrite E, length_append in L.
  destruct rest; [now rewrite append_empty_r in E | cbn [String.length] in L; lia].
Qed.

End CleanMore.

(** ** The map-keyed revision and roots as given *)

Section MapKeyedRoots.

Variable env : Env.

(** A [file] endpoint of the map-keyed revision keeps the path as it is
    written. *)
Lemma mapkeyed_parse_file (m a : string) :
  Index m ":" = None ->
  MapKeyed.parseEndpoint env (m ++ ":file=" ++ a)
  = Ok {| MountPoint := m; Destination := filesystemHandler a None |}.
Proof.
  intros H. unfold MapKeyed.parseEndpoint.
  change (m ++ ":file=" ++ a) with (m ++ String ":" ("file" ++ String "=" a)).
  rewrite (SplitAfterN_first_sep _ _ _ H). cbn [slice_index nth_error rbind].
  rewrite (Replace_trailing_sep _ _ H). unfold MapKeyed.parseDest.
  assert (F : Index "file" "=" = None) by reflexivity.
  rewrite (SplitAfterN_first_sep _ _ _ F). cbn [slice_index nth_error rbind].
  rewrite (Replace_trailing_sep _ _ F). reflexivity.
Qed.

Lemma HasPrefix_trans (s t u : string) :
  HasPrefix s t = true -> HasPrefix t u = true -> HasPrefix s u = true.
Proof.
  intros H1 H2. apply HasPrefix_iff in H1, H2. destruct H1 as [r1 ->].
  destruct H2 as [r2 ->]. rewrite append_assoc. apply HasPrefix_append.
Qed.

End MapKeyedRoots.

(** ** Targets without a [..] element *)

Section ConfineMore.

Import Filepath.

Local Open Scope list_scope.

Example dotdot_free_table :
  map (fun s => dotdot_free true (list_ascii_of_string s))
      ["/a/b"; "/.."; "/../x"; "/a/../b"; "a/.."; ".."; "/..."; "/a.."; "/..a/b";
       "/a/./b//c/"; "/.a/.."]%string
  = [true; false; false; false; false; false; true; true; true; true; false].
Proof. reflexivity. Qed.

Lemma dotdot_free_at_boundary (b : bool) (p : list ascii) :
  at_end_or_slash p = true -> dotdot_free b p = dotdot_free true p.
Proof.
  destruct p as [|c p]; [reflexivity|]. cbn [at_end_or_slash dotdot_free].
  now intros ->.
Qed.

Lemma copy_element_dotdot_free (p : list ascii) (out : lazybuf) :
  dotdot_free false p = true ->
  dotdot_free true (fst (copy_element p out)) = true
  /\ exists seg, snd (copy_element p out) = seg ++ out.
Proof.
  revert out. induction p as [|c p IH]; intros out H.
  - split; [reflexivity | now exists []].
  - cbn [copy_element]. cbn [dotdot_free] in H.
    destruct (Ascii.eqb c slash) eqn:Es.
    + cbn [fst snd]. split; [|now exists []]. cbn [dotdot_free]. now rewrite Es.
    + cbn [andb] in H. destruct (IH (c :: out) H) as [H1 [seg ->]].
      split; [exact H1|]. exists (seg ++ [c]). now rewrite <- app_assoc.
Qed.

(** Without a [..] element the buffer stays the root's, or the root's
    followed by a separator and more. *)
Lemma clean_step_stays_below (oR : lazybuf) (c : ascii) (p : list ascii)
      (out : lazybuf) :
  1 < List.length oR ->
  out = oR \/ (exists Y, out = Y ++ slash :: oR) ->
  dotdot_free true (c :: p) = true ->
  (snd (fst (clean_step true (c :: p) out 1)) = oR
   \/ exists Y, snd (fst (clean_step true (c :: p) out 1)) = Y ++ slash :: oR)
  /\ dotdot_free true (fst (fst (clean_step true (c :: p) out 1))) = true
  /\ snd (clean_step true (c :: p) out 1) = 1.
Proof.
  intros L B H. unfold clean_step. cbn [dotdot_free] in H.
  destruct (Ascii.eqb c slash) eqn:Es; [now repeat split|].
  destruct (Ascii.eqb c dot && at_end_or_slash p) eqn:E1.
  { cbn [fst snd]. split; [exact B|]. split; [|reflexivity].
    apply andb_prop in E1. destruct E1 as [_ E1].
    rewrite <- (dotdot_free_at_boundary false p E1).
    destruct (true && Ascii.eqb c dot && _); [discriminate | exact H]. }
  cbn [andb] in H.
  destruct (Ascii.eqb c dot
            && match p with
               | c1 :: p2 => Ascii.eqb c1 dot && at_end_or_slash p2
               | [] => false
               end) eqn:E2; [discriminate|].
  assert (L1 : (List.length out =? 1)%nat = false).
  { apply Nat.eqb_neq. destruct B as [-> | [Y ->]]; [lia|].
    rewrite length_app. cbn [List.length]. lia. }
  rewrite L1. cbn [andb negb orb].
  assert (Hc : dotdot_free false (c :: p) = true).
  { cbn [dotdot_free]. now rewrite Es. }
  destruct (copy_element_dotdot_free (c :: p) (slash :: out) Hc) as [H1 [seg E]].
  destruct (copy_element (c :: p) (slash :: out)) as [rest out2].
  cbn [fst snd] in *. subst out2. split; [|now split]. right.
  destruct B as [-> | [Y ->]]; [now exists seg|].
  exists (seg ++ slash :: Y). now rewrite <- app_assoc.
Qed.

Lemma clean_loop_stays_below (oR : lazybuf) (f : nat) (p : list ascii)
      (out : lazybuf) :
  1 < List.length oR ->
  out = oR \/ (exists Y, out = Y ++ slash :: oR) ->
  dotdot_free true p = true ->
  fst (clean_loop f true p out 1) = oR
  \/ exists Y, fst (clean_loop f true p out 1) = Y ++ slash :: oR.
Proof.
  intros L. revert p out. induction f as [|f IH]; intros p out B H; [exact B|].
  destruct p as [|c p]; [exact B|]. cbn [clean_loop].
  destruct (clean_step_stays_below oR c p out L B H) as [B' [H' D]].
  destruct (clean_step true (c :: p) out 1) as [[p' out'] dd'].
  cbn [fst snd] in B', H', D. subst dd'. now apply IH.
Qed.

End ConfineMore.

Section ConfineStrings.

Import Filepath.

Lemma requestFile_dotdot_free (req : Request) :
  dotdot_free true (list_ascii_of_string (RequestURI req)) = true ->
  dotdot_free true (list_ascii_of_string (requestFile req)) = true.
Proof.
  unfold requestFile. destruct (RequestURI req) as [|c u]; [reflexivity|].
  unfold HasPrefix. rewrite prefix_cons, prefix_nil.
  destruct (Ascii.eqb_spec "/"%char c) as [<- | N].
  - change (slice_from (String "/" u) 1) with (slice_from u 0). rewrite slice_from_0.
    destruct u as [|d u]; [reflexivity|]. cbn [String.eqb]. intros H. exact H.
  - cbn [String.eqb]. intros H. exact H.
Qed.

Lemma within_root_below (R p s : string) :
  within_root R p = true -> within_root R (p ++ "/" ++ s) = true.
Proof.
  unfold within_root. intros H. apply orb_true_iff in H. apply orb_true_iff. right.
  destruct H as [H | H].
  - apply String.eqb_eq in H. subst p.
    destruct (String.eqb_spec R "/") as [-> | _]; [reflexivity|].
    rewrite <- append_assoc. apply HasPrefix_append.
  - now apply HasPrefix_append_r.
Qed.

Lemma within_root_HasPrefix (R p : string) :
  within_root R p = true -> HasPrefix p R = true.
Proof.
  unfold within_root. intros H. apply orb_true_iff in H. destruct H as [H | H].
  - apply String.eqb_eq in H. subst p. apply HasPrefix_refl.
  - destruct (String.eqb_spec R "/") as [-> | _]; [exact H|].
    apply HasPrefix_iff in H. destruct H as [rest ->].
    rewrite append_assoc. apply HasPrefix_append.
Qed.

(** A request file without a [..] element is cleaned to the root or to
    something below it. *)
Lemma Clean_below_root (R rf : string) :
  IsAbs R = true -> Clean R = R ->
  dotdot_free true (list_ascii_of_string rf) = true ->
  within_root R (Clean (R ++ "/" ++ "/" ++ "/" ++ rf)) = true.
Proof.
  intros A C H. destruct (String.eqb_spec R "/") as [-> | NR].
  { assert (A' : IsAbs ("/" ++ "/" ++ "/" ++ "/" ++ rf) = true) by reflexivity.
    destruct (Clean_rooted_idempotent _ A') as [A2 _].
    unfold within_root. cbn [String.eqb Ascii.eqb Bool.eqb]. unfold IsAbs in A2.
    rewrite A2. apply orb_true_r. }
  destruct (rooted_string R A) as [s ->].
  destruct (canon_of_clean s C) as [oR [CoR ER]].
  assert (LoR : List.length oR = S (String.length s)).
  { rewrite <- length_rev, ER. cbn [List.length].
    now rewrite length_list_ascii_of_string. }
  assert (L : 1 < List.length oR).
  { destruct s; [now contradiction NR | cbn [String.length] in LoR; lia]. }
  assert (Es : list_ascii_of_string s = tl (rev oR)) by now rewrite ER.
  change (String slash s ++ "/" ++ "/" ++ "/" ++ rf)
    with (String slash (s ++ "/" ++ "/" ++ "/" ++ rf)).
  pose proof (clean_loop_stays_below oR
                (S (String.length (s ++ "/" ++ "/" ++ "/" ++ rf)))
                (slash :: slash :: slash :: list_ascii_of_string rf) oR L
                (or_introl eq_refl) H) as B.
  assert (E : clean_loop (S (String.length (s ++ "/" ++ "/" ++ "/" ++ rf))) true
                (list_ascii_of_string (s ++ "/" ++ "/" ++ "/" ++ rf)) [slash] 1
              = clean_loop (S (String.length (s ++ "/" ++ "/" ++ "/" ++ rf))) true
                  (slash :: slash :: slash :: list_ascii_of_string rf) oR 1).
  { rewrite !list_ascii_of_string_append, !length_append.
    change (list_ascii_of_string "/") with [slash]. cbn [app String.length].
    rewrite (clean_loop_app true (List.length oR));
      [| rewrite length_list_ascii_of_string; lia
       | rewrite length_app; cbn [List.length];
         rewrite !length_list_ascii_of_string; lia].
    now rewrite Es, (clean_loop_reads_back _ CoR _ (le_n _)). }
  destruct (clean_loop _ true (slash :: slash :: slash :: list_ascii_of_string rf) oR 1)
    as [out dd] eqn:Eo.
  cbn [fst] in B.
  assert (Hne : out <> []).
  { destruct B as [-> | [Y ->]]; [intros Z; rewrite Z in L; cbn in L; lia|].
    now destruct Y. }
  rewrite (Clean_rooted_loop _ out dd E Hne).
  destruct B as [-> | [Y ->]].
  - rewrite ER. cbn [string_of_list_ascii]. rewrite string_of_list_ascii_of_string.
    unfold within_root. now rewrite String.eqb_refl.
  - rewrite rev_app_distr. cbn [rev]. rewrite <- app_assoc, ER. cbn [app].
    cbn [string_of_list_ascii]. rewrite string_of_list_ascii_app.
    rewrite string_of_list_ascii_of_string. cbn [string_of_list_ascii].
    unfold within_root. apply orb_true_iff. right.
    destruct (String.eqb_spec (String slash s) "/") as [Z | _]; [congruence|].
    change (String slash (s ++ String slash (string_of_list_ascii (rev Y))))
      with (String slash s ++ "/" ++ string_of_list_ascii (rev Y)).
    rewrite <- append_assoc. apply HasPrefix_append.
Qed.

End ConfineStrings.

(** ** The file accesses of the static-file handler *)

Section AccessMore.

Variable env : Env.

(** What the handler itself stats and opens: the resolved path, and the
    index below it. *)
Lemma static_own_accesses (root : string) (nf : option Handler) (req : Request)
      (p : string) (ev : Event) (name : string) :
  absFilePathOf env root req = inl p ->
  In ev (trace (serve env (filesystemHandler root nf) req)) ->
  touched ev = Some name ->
  (name = p \/ name = p ++ "/index.html")
  \/ exists h, nf = Some h /\ In ev (trace (serve env h req)).
Proof.
  intros Hp. unfold serve. cbn [ServeHTTP]. rewrite Hp.
  destruct (HasPrefix p root); cbn [negb];
    [|run; intros [<- | []]; discriminate].
  run. destruct (Stat env p) as [isDir | err].
  - assert (G : (if isDir then p ++ "/index.html" else p) = p
                \/ (if isDir then p ++ "/index.html" else p) = p ++ "/index.html")
      by (destruct isDir; [now right | now left]).
    destruct (Open env (if isDir then p ++ "/index.html" else p)) as [f | err].
    + destruct (io_ReadAll f); run;
        (intros [<- | [<- | []]]; intros T; injection T as <-; left; tauto).
    + destruct nf as [h |]; run.
      * rewrite (ServeHTTP_frame env h req newWriter [_; _; _]). cbn [trace app].
        intros [<- | [<- | [<- | Hin]]] T; try discriminate;
          try (injection T as <-; left; tauto).
        right. exists h. now split.
      * intros [<- | [<- | [<- | []]]] T; try discriminate;
          injection T as <-; left; tauto.
  - destruct nf as [h |]; run.
    + rewrite (ServeHTTP_frame env h req newWriter [_; _]). cbn [trace app].
      intros [<- | [<- | Hin]] T; try discriminate;
        try (injection T as <-; left; tauto).
      right. exists h. now split.
    + intros [<- | [<- | []]] T; try discriminate; injection T as <-; left; tauto.
Qed.

End AccessMore.

(** ** [Start] of the map-keyed revision *)

Section MapKeyedStartFacts.

Local Open Scope list_scope.

(** On the router the two loops do what those of the other revision do
    on the entries taken as endpoints. *)
Lemma mapkeyed_notFound_loop (o : list (string * Handler)) (r : Router) :
  fold_left MapKeyedStart.Start_notFound o r
  = fold_left Start_notFound (map MapKeyedStart.entry o) r.
Proof.
  revert r. induction o as [|ke o IH]; intros r; [reflexivity|].
  cbn [fold_left map]. now rewrite <- IH.
Qed.

Lemma mapkeyed_route_loop (o : list (string * Handler)) (r : Router)
      (m : MapKeyed.HandlerMap) :
  fst (fold_left MapKeyedStart.Start_route o (r, m))
  = fold_left Start_route (map MapKeyedStart.entry o) r.
Proof.
  revert r m. induction o as [|[k h] o IH]; intros r m; [reflexivity|].
  cbn [fold_left map]. unfold MapKeyedStart.Start_route at 2, Start_route at 2.
  cbn [snd fst MapKeyedStart.entry Destination MountPoint].
  destruct h; apply IH.
Qed.

(** The map after the second loop: every entry visited holds its handler
    as registered. *)
Lemma mapkeyed_route_writeback (o : list (string * Handler)) :
  forall (r : Router) (m : MapKeyed.HandlerMap),
    NoDup (map fst o) ->
    (forall k h, In (k, h) o -> m k = Some h) ->
    forall k,
      snd (fold_left MapKeyedStart.Start_route o (r, m)) k
      = if existsb (String.eqb k) (map fst o)
        then option_map (wire (NotFoundHandler r)) (m k)
        else m k.
Proof.
  induction o as [|[k1 h1] o IH]; intros r m N H k; [reflexivity|].
  cbn [map fst] in N. inversion N as [|? ? Hn N']. subst.
  cbn [fold_left map fst existsb].
  assert (Hk1 : m k1 = Some h1) by (apply H; now left).
  assert (Hrest : forall m1,
             (forall k', k' <> k1 -> m1 k' = m k') ->
             forall k' h', In (k', h') o -> m1 k' = Some h').
  { intros m1 Hm k' h' Hin. rewrite Hm; [apply H; now right|].
    intros ->. apply Hn. apply in_map_iff. now exists (k1, h'). }
  assert (Hout : existsb (String.eqb k1) (map fst o) = false).
  { destruct (existsb (String.eqb k1) (map fst o)) eqn:E; [|reflexivity].
    apply existsb_exists in E. destruct E as [x [Hx Ex]].
    apply String.eqb_eq in Ex. subst x. contradiction. }
  unfold MapKeyedStart.Start_route at 2. cbn [snd fst].
  destruct h1 as [u | p nf0 | fp | next].
  - rewrite (IH _ m N' (Hrest m (fun _ _ => eq_refl)) k). cbn [NotFoundHandler].
    destruct (String.eqb_spec k k1) as [-> | _]; [|reflexivity].
    cbn [orb]. now rewrite Hout, Hk1.
  - rewrite (IH _ (MapKeyed.map_store m k1 (filesystemHandler p (NotFoundHandler r)))
               N').
    + cbn [NotFoundHandler]. unfold MapKeyed.map_store.
      destruct (String.eqb_spec k k1) as [-> | _]; cbn [orb].
      * now rewrite Hout, Hk1.
      * reflexivity.
    + apply Hrest. intros k' Hk'. unfold MapKeyed.map_store.
      now destruct (String.eqb_spec k' k1).
  - rewrite (IH _ m N' (Hrest m (fun _ _ => eq_refl)) k).
    destruct (String.eqb_spec k k1) as [-> | _]; [|reflexivity].
    cbn [orb]. now rewrite Hout, Hk1.
  - rewrite (IH _ m N' (Hrest m (fun _ _ => eq_refl)) k). cbn [NotFoundHandler].
    destruct (String.eqb_spec k k1) as [-> | _]; [|reflexivity].
    cbn [orb]. now rewrite Hout, Hk1.
Qed.

Lemma filter_map_entry (o : list (string * Handler)) :
  filter routable (map MapKeyedStart.entry o)
  = map MapKeyedStart.entry (filter (fun ke => routable (MapKeyedStart.entry ke)) o).
Proof.
  induction o as [|ke o IH]; [reflexivity|]. cbn [map filter].
  destruct (routable (MapKeyedStart.entry ke)); cbn [map]; now rewrite IH.
Qed.

Lemma ranges_key (m : MapKeyed.HandlerMap) (o : list (string * Handler)) (k : string) :
  MapKeyedStart.ranges m o ->
  existsb (String.eqb k) (map fst o) = false -> m k = None.
Proof.
  intros [_ H] E. destruct (m k) as [h|] eqn:Hk; [|reflexivity].
  apply H in Hk. assert (X : existsb (String.eqb k) (map fst o) = true).
  { apply existsb_exists. exists k. split; [|apply String.eqb_refl].
    apply in_map_iff. now exists (k, h). }
  congruence.
Qed.

End MapKeyedStartFacts.
(** * Main results *)

(** C1.  The guard turns down every path that lacks the root as a string
    prefix, yet a traversal can leave the root: with the root [/srv/dist],
    a request for [/../dist-secret/f] (or [/?/../../dist-secret/f], whose
    path is just [/]) resolves to [/srv/dist-secret/f], which passes the
    guard, is stat'ed, opened and sent with status 200, although it is not
    inside [/srv/dist]; [/../../etc/passwd] is answered 404 untouched. *)
Theorem traversal_reaches_sibling_of_root :
  let root := "/srv/dist" in
  let h := filesystemHandler root None in
  parseEndpoint Sample.srv "/:file=/srv/dist"
  = Ok {| MountPoint := "/"; Destination := h |}
  /\ within_root root "/srv/dist-secret/f" = false
  /\ serve Sample.srv h (Sample.GET "/../dist-secret/f" "/../dist-secret/f" "")
     = {| writer := {| Header := [("Content-Type", "")];
                       wroteHeader := Some 200;
                       Body := "secret" |};
          trace := [EvStat "/srv/dist-secret/f"; EvOpen "/srv/dist-secret/f"] |}
  /\ serve Sample.srv h (Sample.GET "/?/../../dist-secret/f" "/" "/../../dist-secret/f")
     = {| writer := {| Header := [("Content-Type", "")];
                       wroteHeader := Some 200;
                       Body := "secret" |};
          trace := [EvStat "/srv/dist-secret/f"; EvOpen "/srv/dist-secret/f"] |}
  /\ serve Sample.srv h (Sample.GET "/../../etc/passwd" "/../../etc/passwd" "")
     = {| writer := notFoundWriter "404 - Not found";
          trace := [EvLog "path traversal: /etc/passwd"] |}.
Proof. cbv zeta. repeat split. Qed.

(** C2.  An endpoint string with no [':'], or with no ['='] after its
    first [':'], does not make the parser return an error: the second piece
    of the split is indexed without a length check, so [parseEndpoint]
    (and [New] with it) panics with an index out of range. *)
Theorem parseEndpoint_missing_separator_panics (env : Env) (e : string) :
  Index e ":" = None
  \/ (exists m rest,
        e = m ++ ":" ++ rest /\ Index m ":" = None /\ Index rest "=" = None) ->
  parseEndpoint env e = Panic "runtime error: index out of range [1] with length 1"
  /\ New env [e] = Panic "runtime error: index out of range [1] with length 1".
Proof.
  intros H.
  assert (P : parseEndpoint env e
              = Panic "runtime error: index out of range [1] with length 1").
  { destruct H as [H | [m [rest [-> [Hm Hr]]]]].
    - now apply parseEndpoint_no_colon.
    - now apply parseEndpoint_no_equals. }
  split; [exact P|]. unfold New. cbn [New_loop]. now rewrite P.
Qed.

Lemma parseEndpoint_missing_separator_panics_witness :
  parseEndpoint Sample.srv "/static"
  = Panic "runtime error: index out of range [1] with length 1"
  /\ New Sample.srv ["/static"]
     = Panic "runtime error: index out of range [1] with length 1".
Proof.
  apply (parseEndpoint_missing_separator_panics Sample.srv "/static").
  left. reflexivity.
Defined.

(** C3.  When the resolved path passes the guard and cannot be stat'ed, or
    the file to send cannot be opened: without a fallback the response is a
    plain 404; with a fallback the whole request is handed to it, the
    writer untouched, and when the fallback is the not-found handler of a
    file that opens and reads to its end, the response is that file's
    bytes with status 200. *)
Theorem fallback_on_missing_file (env : Env) (fpath : string)
        (nf : option Handler) (req : Request) (p : string) :
  absFilePathOf env fpath req = inl p ->
  HasPrefix p fpath = true ->
  stat_or_open_fails env p ->
  match nf with
  | None =>
      StatusCode (writer (serve env (filesystemHandler fpath None) req)) = 404
      /\ (writer (serve env (filesystemHandler fpath None) req)
          = notFoundWriter "404 - Not found (not found handler missing)"
          \/ writer (serve env (filesystemHandler fpath None) req)
             = notFoundWriter "404 - Not found")
  | Some h =>
      (forall s, exists evs,
          ServeHTTP env (filesystemHandler fpath (Some h)) req s
          = ServeHTTP env h req
              {| writer := writer s; trace := (trace s ++ evs)%list |})
      /\ (forall fp d,
             serves_file h fp ->
             Open env fp = inl {| data := d; readErr := None |} ->
             StatusCode (writer (serve env (filesystemHandler fpath (Some h)) req)) = 200
             /\ Body (writer (serve env (filesystemHandler fpath (Some h)) req)) = d)
  end.
Proof.
  intros Hp Hg Hf. destruct nf as [h |].
  - split.
    + intros s. now apply ServeHTTP_delegates with (p := p).
    + intros fp d Hh Ho. unfold serve.
      destruct (ServeHTTP_delegates env fpath h req p
                  {| writer := newWriter; trace := [] |} Hp Hg Hf) as [evs ->].
      destruct (NotFoundFile_readable env h fp d req
                  {| writer := newWriter; trace := ([] ++ evs)%list |} Hh Ho)
        as [_ [B S]].
      split; [now apply S | exact B].
  - destruct (ServeHTTP_no_fallback env fpath req p Hp Hg Hf) as [E | E];
      rewrite E; split; auto.
Qed.

Lemma fallback_on_missing_file_witness :
  let env := Sample.srv in
  let h := LoggingMiddleware (NotFoundFileHandler "/srv/dist/index.html") in
  let req := Sample.GET "/missing.js" "/missing.js" "" in
  StatusCode (writer (serve env (filesystemHandler "/srv/dist" (Some h)) req)) = 200
  /\ Body (writer (serve env (filesystemHandler "/srv/dist" (Some h)) req))
     = "<html>hello</html>".
Proof.
  cbv zeta.
  refine (proj2 (fallback_on_missing_file Sample.srv "/srv/dist"
                   (Some (LoggingMiddleware (NotFoundFileHandler "/srv/dist/index.html")))
                   (Sample.GET "/missing.js" "/missing.js" "")
                   "/srv/dist/missing.js" eq_refl eq_refl _)
                "/srv/dist/index.html" "<html>hello</html>" _ eq_refl).
  - left. eexists. reflexivity.
  - right. reflexivity.
Defined.

(** C4.  The header of a served file is not the type of its extension:
    [ServeHTTP] looks up ["." + filepath.Ext(path)], and [Ext] already
    starts with the dot, so for [index.html] the look-up is for [..html]
    and the [Content-Type] header is set to the empty string, while the
    type registered for [.html] is [text/html; charset=utf-8]. *)
Theorem content_type_of_served_file_is_empty :
  let h := filesystemHandler "/srv/dist" None in
  let r := serve Sample.srv h (Sample.GET "/index.html" "/index.html" "") in
  StatusCode (writer r) = 200
  /\ Body (writer r) = "<html>hello</html>"
  /\ Filepath.Ext "/srv/dist/index.html" = ".html"
  /\ TypeByExtension Sample.srv ".html" = "text/html; charset=utf-8"
  /\ TypeByExtension Sample.srv ("." ++ Filepath.Ext "/srv/dist/index.html") = ""
  /\ Header_Get (Header (writer r)) "Content-Type" = Some "".
Proof. cbv zeta. repeat split. Qed.

(** C5, as stated, fails on its own example: for the upstream
    [http://h:8080/base] and a request for [/x] the outbound path is
    [/base/x], the request path keeping its leading slash, and not
    [/basex]. *)
Lemma director_keeps_request_slash :
  let destUrl := {| Scheme := "http"; Host := "h:8080"; Path := "/base";
                    RawQuery := "" |} in
  Sample.parse_url "http://h:8080/base" = inl destUrl
  /\ Path (ReqURL (director destUrl (Sample.GET "/x" "/x" ""))) = "/base/x"
  /\ Path (ReqURL (director destUrl (Sample.GET "/x" "/x" ""))) <> "/basex".
Proof. cbv zeta. repeat split. discriminate. Qed.

(** C5, amended.  The proxy built from an upstream URL rewrites every
    request to the upstream's scheme and host and to the path made of the
    upstream's path followed by the request's path, byte for byte: nothing
    is put between the two and nothing is taken away. *)
Theorem director_concatenates_paths (env : Env) (dest : string) (destUrl : URL)
        (req : Request) :
  url_Parse env dest = inl destUrl ->
  reverseProxy env dest = Ok (ReverseProxy destUrl)
  /\ Scheme (ReqURL (director destUrl req)) = Scheme destUrl
  /\ Host (ReqURL (director destUrl req)) = Host destUrl
  /\ Path (ReqURL (director destUrl req)) = Path destUrl ++ Path (ReqURL req)
  /\ trace (serve env (ReverseProxy destUrl) req)
     = [EvRoundTrip (director destUrl req)].
Proof.
  intros H. unfold reverseProxy. rewrite H. repeat split.
Qed.

Lemma director_concatenates_paths_witness :
  reverseProxy Sample.srv "http://127.0.0.1:9000/base"
  = Ok (ReverseProxy {| Scheme := "http"; Host := "127.0.0.1:9000";
                        Path := "/base"; RawQuery := "" |})
  /\ Path (ReqURL (director {| Scheme := "http"; Host := "127.0.0.1:9000";
                               Path := "/base"; RawQuery := "" |}
                            (Sample.GET "/x" "/x" ""))) = "/base/x".
Proof.
  pose proof (director_concatenates_paths Sample.srv "http://127.0.0.1:9000/base"
                {| Scheme := "http"; Host := "127.0.0.1:9000";
                   Path := "/base"; RawQuery := "" |}
                (Sample.GET "/x" "/x" "") eq_refl) as [H1 [_ [_ [H4 _]]]].
  split; [exact H1 | exact H4].
Defined.




(** C7, as stated, fails: the file is resolved from the request target
    with its query string, not from the path alone.  Two requests with the
    same path [/index.html] get different answers. *)
Lemma resolution_depends_on_query :
  let h := filesystemHandler "/srv/dist" None in
  let r1 := Sample.GET "/index.html" "/index.html" "" in
  let r2 := Sample.GET "/index.html?v=1" "/index.html" "v=1" in
  Path (ReqURL r1) = Path (ReqURL r2)
  /\ absFilePathOf Sample.srv "/srv/dist" r1 = inl "/srv/dist/index.html"
  /\ absFilePathOf Sample.srv "/srv/dist" r2 = inl "/srv/dist/index.html?v=1"
  /\ StatusCode (writer (serve Sample.srv h r1)) = 200
  /\ StatusCode (writer (serve Sample.srv h r2)) = 404.
Proof. cbv zeta. repeat split. Qed.

(** C7, amended.  The file is resolved from [RequestURI] alone, the
    request target as sent, query string included: one leading ['/'] is
    stripped if there is one, and an empty rest stands for [./]; so a
    request whose target is [/], on a handler whose root is a cleaned
    absolute path (as [newFSHandler] makes them, see [newFSHandler_root])
    naming a directory with a readable [index.html], is answered with
    that file's bytes and status 200. *)
Theorem resolution_uses_RequestURI (env : Env) (fpath : string)
        (nf : option Handler) (req : Request) :
  (forall req', RequestURI req' = RequestURI req ->
                requestFile req' = requestFile req
                /\ absFilePathOf env fpath req' = absFilePathOf env fpath req
                /\ serve env (filesystemHandler fpath None) req'
                   = serve env (filesystemHandler fpath None) req)
  /\ (forall u, RequestURI req = String "/" u ->
                requestFile req = if String.eqb u "" then "./" else u)
  /\ (HasPrefix (RequestURI req) "/" = false ->
      requestFile req
      = if String.eqb (RequestURI req) "" then "./" else RequestURI req)
  /\ (RequestURI req = "/" ->
      Filepath.IsAbs fpath = true ->
      Filepath.Clean fpath = fpath ->
      Stat env fpath = inl true ->
      forall d,
        Open env (fpath ++ "/index.html") = inl {| data := d; readErr := None |} ->
        StatusCode (writer (serve env (filesystemHandler fpath nf) req)) = 200
        /\ Body (writer (serve env (filesystemHandler fpath nf) req)) = d
        /\ trace (serve env (filesystemHandler fpath nf) req)
           = [EvStat fpath; EvOpen (fpath ++ "/index.html")]).
Proof.
  split; [|split; [|split]].
  - intros req' E. unfold serve. cbn [ServeHTTP].
    unfold absFilePathOf, requestFile. now rewrite E.
  - intros u E. unfold requestFile. rewrite E. unfold HasPrefix.
    rewrite prefix_cons, prefix_nil. cbn [Ascii.eqb Bool.eqb slice_from].
    now rewrite slice_from_0.
  - intros H. unfold requestFile. now rewrite H.
  - intros E Habs Hclean Hs d Ho.
    assert (Hp : absFilePathOf env fpath req = inl fpath).
    { unfold absFilePathOf, requestFile. rewrite E. cbn [HasPrefix].
      change (HasPrefix "/" "/") with true. cbv iota.
      change (slice_from "/" 1) with "". cbn [String.eqb].
      destruct fpath as [|c0 fp] eqn:Ef; [discriminate|].
      rewrite <- Ef in *. unfold Filepath.Join. rewrite Ef at 1.
      cbn [String.eqb]. cbn [GoString.Join].
      change (fpath ++ "/" ++ "/" ++ "/" ++ "./") with (fpath ++ "///./").
      rewrite Clean_root_marker by (rewrite Ef; discriminate).
      rewrite Hclean, Hclean. unfold Filepath.Abs. now rewrite Habs, Hclean. }
    rewrite (ServeHTTP_served env fpath nf req fpath true _
               Hp (HasPrefix_refl fpath) Hs Ho eq_refl).
    repeat split.
Qed.

Lemma resolution_uses_RequestURI_witness :
  let r := serve Sample.srv (filesystemHandler "/srv/dist" None) (Sample.GET "/" "/" "") in
  StatusCode (writer r) = 200
  /\ Body (writer r) = "<html>hello</html>"
  /\ trace r = [EvStat "/srv/dist"; EvOpen "/srv/dist/index.html"].
Proof.
  cbv zeta.
  exact (proj2 (proj2 (proj2 (resolution_uses_RequestURI Sample.srv "/srv/dist" None
                                (Sample.GET "/" "/" ""))))
               eq_refl eq_refl eq_refl eq_refl "<html>hello</html>" eq_refl).
Defined.

(** C8.  On a string [m:kind=a] with a known kind, where [m] holds no
    [':'], the parser returns the endpoint mounted at [m] whose handler is
    built from exactly [a]: the string is cut at its first [':'] and at the
    first ['='] after it and nowhere else, whatever [':'] and ['='] the
    argument holds.  (The handler exists when the argument is usable: any
    string for [404], a path [filepath.Abs] resolves for [file], a URL
    [url.Parse] accepts for [proxy].)  The result is a function of the
    string and the host. *)
Theorem parseEndpoint_valid (env : Env) (m a : string) :
  Index m ":" = None ->
  parseEndpoint env (m ++ ":404=" ++ a)
  = Ok {| MountPoint := m; Destination := NotFoundFileHandler a |}
  /\ (forall p, Filepath.Abs (Getwd env) a = inl p ->
                parseEndpoint env (m ++ ":file=" ++ a)
                = Ok {| MountPoint := m; Destination := filesystemHandler p None |})
  /\ (forall u, url_Parse env a = inl u ->
                parseEndpoint env (m ++ ":proxy=" ++ a)
                = Ok {| MountPoint := m; Destination := ReverseProxy u |}).
Proof.
  intros Hm. repeat split.
  - change (m ++ ":404=" ++ a) with (m ++ ":" ++ ("404" ++ "=" ++ a)).
    rewrite (parseEndpoint_first_colon env _ _ Hm).
    rewrite parseDest_first_equals by reflexivity. reflexivity.
  - intros p Hp.
    change (m ++ ":file=" ++ a) with (m ++ ":" ++ ("file" ++ "=" ++ a)).
    rewrite (parseEndpoint_first_colon env _ _ Hm).
    rewrite parseDest_first_equals by reflexivity.
    cbn [String.eqb Ascii.eqb Bool.eqb]. unfold staticFiles, newFSHandler.
    now rewrite Hp.
  - intros u Hu.
    change (m ++ ":proxy=" ++ a) with (m ++ ":" ++ ("proxy" ++ "=" ++ a)).
    rewrite (parseEndpoint_first_colon env _ _ Hm).
    rewrite parseDest_first_equals by reflexivity.
    cbn [String.eqb Ascii.eqb Bool.eqb]. unfold reverseProxy.
    now rewrite Hu.
Qed.

Lemma parseEndpoint_valid_witness :
  parseEndpoint Sample.srv "/api:proxy=http://127.0.0.1:8080/v1=a:b"
  = Ok {| MountPoint := "/api";
          Destination := ReverseProxy {| Scheme := "http"; Host := "127.0.0.1:8080";
                                         Path := "/v1=a:b"; RawQuery := "" |} |}.
Proof.
  exact (proj2 (proj2 (parseEndpoint_valid Sample.srv "/api"
                         "http://127.0.0.1:8080/v1=a:b" eq_refl))
               _ eq_refl).
Defined.

(** C9, as stated, fails when the copy breaks after some bytes went out:
    the body is then those bytes followed by the diagnostic, not the
    diagnostic alone. *)
Lemma partial_copy_precedes_diagnostic :
  let env :=
    {| Getwd := inl "/";
       Stat := fun _ => inl false;
       Open := fun _ => inl {| data := "<h1>"; readErr := Some "input/output error" |};
       TypeByExtension := Mime.builtinTypeByExtension;
       url_Parse := Sample.parse_url |} in
  let r := serve env (NotFoundFileHandler "/srv/404.html") (Sample.GET "/x" "/x" "") in
  StatusCode (writer r) = 200
  /\ Body (writer r) = "<h1>unable to send 404 page"
  /\ Body (writer r) <> "unable to send 404 page".
Proof. cbv zeta. repeat split. discriminate. Qed.

(** C9, amended.  On every request the not-found handler opens its file
    and nothing else, and answers with status 200 and no header of its
    own: the file's bytes when it opens and reads to its end; the body
    [unable to get 404 page] when it does not open; when reading breaks,
    the bytes copied before the failure followed by
    [unable to send 404 page], so exactly that line when nothing was
    copied.  It never answers 500 and calls no other handler. *)
Theorem NotFoundFileHandler_response (env : Env) (filePath : string) (req : Request) :
  let r := serve env (NotFoundFileHandler filePath) req in
  trace r = [EvOpen filePath]
  /\ StatusCode (writer r) = 200
  /\ Header (writer r) = []
  /\ Body (writer r)
     = match Open env filePath with
       | inr _ => "unable to get 404 page"
       | inl f =>
           match readErr f with
           | Some _ => data f ++ "unable to send 404 page"
           | None => data f
           end
       end.
Proof.
  cbv zeta. unfold serve. cbn [ServeHTTP]. run.
  destruct (Open env filePath) as [f | err]; [|repeat split].
  destruct (String.eqb_spec (data f) "") as [E | _]; destruct (readErr f);
    cbn [fst snd writer trace Header wroteHeader Body app newWriter];
    rewrite ?E; repeat split.
Qed.

(** C10.  The guard is [strings.HasPrefix] on the resolved path and the
    root: it lets through exactly the paths that extend the root's bytes,
    whatever byte comes next.  A request it lets through is stat'ed; one it
    turns down is answered 404 with no file touched.  So for every root
    but [/], with [name] its last element, the request for [/../name x/f]
    resolves to the root's bytes followed by [x/f], a file next to the
    root and not inside it, and that file, when it is there, is sent with
    status 200; on the sample host, [/srv/dist-secret/f] is sent from the
    root [/srv/dist]. *)
Theorem guard_is_plain_string_prefix (env : Env) (fpath : string)
        (nf : option Handler) (req : Request) (p : string) :
  absFilePathOf env fpath req = inl p ->
  (HasPrefix p fpath = true <-> exists rest, p = fpath ++ rest)
  /\ (HasPrefix p fpath = true ->
      exists evs, trace (serve env (filesystemHandler fpath nf) req) = EvStat p :: evs)
  /\ (HasPrefix p fpath = false ->
      serve env (filesystemHandler fpath nf) req
      = {| writer := notFoundWriter "404 - Not found";
           trace := [EvLog ("path traversal: " ++ p)] |})
  /\ (Filepath.IsAbs fpath = true -> Filepath.Clean fpath = fpath -> fpath <> "/" ->
      exists name,
        (exists D, fpath = D ++ "/" ++ name)
        /\ forall (x f d : string) (req' : Request),
            x <> "" -> ~ In slash (list_ascii_of_string x) ->
            real (list_ascii_of_string f) ->
            RequestURI req' = "/../" ++ name ++ x ++ "/" ++ f ->
            Stat env (fpath ++ x ++ "/" ++ f) = inl false ->
            Open env (fpath ++ x ++ "/" ++ f) = inl {| data := d; readErr := None |} ->
            within_root fpath (fpath ++ x ++ "/" ++ f) = false
            /\ StatusCode (writer (serve env (filesystemHandler fpath nf) req')) = 200
            /\ Body (writer (serve env (filesystemHandler fpath nf) req')) = d)
  /\ (exists env0 root req0 target,
         absFilePathOf env0 root req0 = inl target
         /\ HasPrefix target root = true
         /\ within_root root target = false
         /\ StatusCode (writer (serve env0 (filesystemHandler root None) req0)) = 200
         /\ Open env0 target
            = inl {| data := Body (writer (serve env0 (filesystemHandler root None) req0));
                     readErr := None |}).
Proof.
  intros Hp. split; [apply HasPrefix_iff|]. split; [|split; [|split]].
  - intros Hg. now apply traversal_guard_accepts.
  - intros Hg. now apply traversal_guard_rejects.
  - intros Habs Hclean Hroot.
    destruct (sibling_of_any_root_served env fpath nf Habs Hclean Hroot)
      as [name [HD H]].
    exists name. split; [exact HD|].
    intros x f d req' Hx Hsx Rf Huri Hs Ho.
    destruct (H x f d req' Hx Hsx Rf Huri Hs Ho) as [Hw [S200 [B _]]].
    now repeat split.
  - exists Sample.srv, "/srv/dist",
      (Sample.GET "/../dist-secret/f" "/../dist-secret/f" ""), "/srv/dist-secret/f".
    repeat split.
Qed.

Lemma guard_is_plain_string_prefix_witness :
  HasPrefix "/srv/dist-secret/f" "/srv/dist" = true
  <-> exists rest, "/srv/dist-secret/f" = "/srv/dist" ++ rest.
Proof.
  exact (proj1 (guard_is_plain_string_prefix Sample.srv "/srv/dist" None
                  (Sample.GET "/../dist-secret/f" "/../dist-secret/f" "")
                  "/srv/dist-secret/f" eq_refl)).
Defined.

(** * Further results *)

(** X1.  What parses has the form: when [parseEndpoint] returns an
    endpoint, the string is its mount point, a [':'], one of the three
    kinds, an ['='] and an argument; the mount point holds no [':'], and
    the handler is the one that kind builds from that argument. *)
Theorem parseEndpoint_sound (env : Env) (e : string) (ep : Endpoint) :
  parseEndpoint env e = Ok ep ->
  exists k a,
    e = MountPoint ep ++ ":" ++ k ++ "=" ++ a
    /\ Index (MountPoint ep) ":" = None
    /\ ((k = "proxy" /\ exists u, url_Parse env a = inl u
                                  /\ Destination ep = ReverseProxy u)
        \/ (k = "file" /\ exists p, Filepath.Abs (Getwd env) a = inl p
                                    /\ Destination ep = filesystemHandler p None)
        \/ (k = "404" /\ Destination ep = NotFoundFileHandler a)).
Proof.
  intros H. destruct (parseEndpoint_Ok_inv env e ep H) as [rest [E [Hm D]]].
  destruct (parseDest_Ok_inv env rest _ D) as [k [a [-> [_ K]]]].
  exists k, a. now repeat split.
Qed.

Lemma parseEndpoint_sound_witness :
  exists k a,
    "/:file=./dist/" = "/" ++ ":" ++ k ++ "=" ++ a
    /\ Index "/" ":" = None
    /\ ((k = "proxy" /\ exists u, url_Parse Sample.srv a = inl u
                                  /\ filesystemHandler "/home/dev/dist" None = ReverseProxy u)
        \/ (k = "file" /\ exists p, Filepath.Abs (Getwd Sample.srv) a = inl p
                                    /\ filesystemHandler "/home/dev/dist" None
                                       = filesystemHandler p None)
        \/ (k = "404" /\ filesystemHandler "/home/dev/dist" None = NotFoundFileHandler a)).
Proof.
  exact (parseEndpoint_sound Sample.srv "/:file=./dist/"
           {| MountPoint := "/"; Destination := filesystemHandler "/home/dev/dist" None |}
           eq_refl).
Defined.

(** X2.  A kind other than [proxy], [file] and [404] is an error, not a
    panic: the parser returns [unknown type] followed by the kind as
    written, whatever the argument, and [New] and [main] wrap that message
    once each. *)
Theorem unknown_kind_is_an_error (env : Env) (m k a : string) (listen : string) :
  Index m ":" = None ->
  Index k "=" = None ->
  k <> "proxy" -> k <> "file" -> k <> "404" ->
  parseEndpoint env (m ++ ":" ++ k ++ "=" ++ a) = Err ("unknown type " ++ k)
  /\ New env [m ++ ":" ++ k ++ "=" ++ a]
     = Err ("unable to parse endpoint: unknown type " ++ k)
  /\ main env {| Endpoints := [m ++ ":" ++ k ++ "=" ++ a]; Listen := listen |}
     = Fatal ("unable to create webserver: unable to parse endpoint: unknown type " ++ k).
Proof.
  intros Hm Hk N1 N2 N3.
  assert (P : parseEndpoint env (m ++ ":" ++ k ++ "=" ++ a) = Err ("unknown type " ++ k)).
  { rewrite (parseEndpoint_first_colon env m _ Hm).
    rewrite (parseDest_first_equals env k a Hk).
    apply String.eqb_neq in N1, N2, N3. now rewrite N1, N2, N3. }
  split; [exact P|]. unfold main, New. cbn [Endpoints New_loop]. rewrite P.
  split; reflexivity.
Qed.

Lemma unknown_kind_is_an_error_witness :
  parseEndpoint Sample.srv "/:files=./dist" = Err "unknown type files".
Proof.
  refine (proj1 (unknown_kind_is_an_error Sample.srv "/" "files" "./dist" ""
                   eq_refl eq_refl _ _ _)); discriminate.
Defined.

(** X3.  A proxy argument [url.Parse] turns down is an error that carries
    the parser's own message behind two prefixes, and no handler is
    built. *)
Theorem bad_proxy_url_is_an_error (env : Env) (m a err : string) :
  Index m ":" = None ->
  url_Parse env a = inr err ->
  parseEndpoint env (m ++ ":proxy=" ++ a)
  = Err ("unable to parse proxy: unable to parse URL: " ++ err)
  /\ New env [m ++ ":proxy=" ++ a]
     = Err ("unable to parse endpoint: unable to parse proxy: unable to parse URL: "
              ++ err).
Proof.
  intros Hm Hu.
  assert (P : parseEndpoint env (m ++ ":proxy=" ++ a)
              = Err ("unable to parse proxy: unable to parse URL: " ++ err)).
  { change (m ++ ":proxy=" ++ a) with (m ++ ":" ++ ("proxy" ++ "=" ++ a)).
    rewrite (parseEndpoint_first_colon env m _ Hm).
    rewrite parseDest_first_equals by reflexivity.
    cbn [String.eqb Ascii.eqb Bool.eqb]. unfold reverseProxy. now rewrite Hu. }
  split; [exact P|]. unfold New. cbn [New_loop]. now rewrite P.
Qed.

Lemma bad_proxy_url_is_an_error_witness :
  parseEndpoint Sample.srv "/api:proxy=:foo"
  = Err ("unable to parse proxy: unable to parse URL: parse "
           ++ Sample.quote ":foo" ++ ": missing protocol scheme").
Proof.
  exact (proj1 (bad_proxy_url_is_an_error Sample.srv "/api" ":foo" _
                  eq_refl eq_refl)).
Defined.

(** X4.  A [file] endpoint needs the working directory only for a
    relative path: an absolute path gives the handler rooted at the
    cleaned path on every host; a relative one is joined onto the working
    directory, and panics with [os.Getwd]'s error when there is none. *)
Theorem file_endpoint_and_working_directory (env : Env) (m a : string) :
  Index m ":" = None ->
  (Filepath.IsAbs a = true ->
   parseEndpoint env (m ++ ":file=" ++ a)
   = Ok {| MountPoint := m;
           Destination := filesystemHandler (Filepath.Clean a) None |})
  /\ (Filepath.IsAbs a = false ->
      forall wd, Getwd env = inl wd ->
      parseEndpoint env (m ++ ":file=" ++ a)
      = Ok {| MountPoint := m;
              Destination := filesystemHandler (Filepath.Join [wd; a]) None |})
  /\ (Filepath.IsAbs a = false ->
      forall err, Getwd env = inr err ->
      parseEndpoint env (m ++ ":file=" ++ a) = Panic err).
Proof.
  intros Hm.
  assert (P : parseEndpoint env (m ++ ":file=" ++ a)
              = rbind (newFSHandler env a)
                      (fun d => Ok {| MountPoint := m; Destination := d |})).
  { change (m ++ ":file=" ++ a) with (m ++ ":" ++ ("file" ++ "=" ++ a)).
    rewrite (parseEndpoint_first_colon env m _ Hm).
    now rewrite parseDest_first_equals by reflexivity. }
  rewrite P. unfold newFSHandler, Filepath.Abs. repeat split.
  - intros ->. reflexivity.
  - intros -> wd ->. reflexivity.
  - intros -> err ->. reflexivity.
Qed.

Lemma file_endpoint_and_working_directory_witness :
  parseEndpoint Sample.srv "/:file=./dist/"
  = Ok {| MountPoint := "/"; Destination := filesystemHandler "/home/dev/dist" None |}.
Proof.
  exact (proj1 (proj2 (file_endpoint_and_working_directory Sample.srv "/" "./dist/"
                         eq_refl))
               eq_refl "/home/dev" eq_refl).
Defined.

(** X5.  [New] parses the strings in order and gives up at the first one
    that does not parse: the strings after it are not looked at, an error
    comes back behind the prefix [unable to parse endpoint], a panic as it
    is. *)
Theorem New_stops_at_first_failure (env : Env) (pre : list string) (e : string)
        (post : list string) (eps : list Endpoint) :
  Forall2 (fun e ep => parseEndpoint env e = Ok ep) pre eps ->
  (forall err, parseEndpoint env e = Err err ->
               New env (pre ++ e :: post) = Err ("unable to parse endpoint: " ++ err))
  /\ (forall msg, parseEndpoint env e = Panic msg ->
                  New env (pre ++ e :: post) = Panic msg).
Proof.
  intros F. unfold New. rewrite (New_loop_stops env pre e post eps [] F).
  split; intros x ->; reflexivity.
Qed.

Lemma New_stops_at_first_failure_witness :
  New Sample.srv ["/:file=/srv/dist"; "/x:ftp=y"; "nocolon"]
  = Err "unable to parse endpoint: unknown type ftp".
Proof.
  refine (proj1 (New_stops_at_first_failure Sample.srv ["/:file=/srv/dist"] "/x:ftp=y"
                   ["nocolon"]
                   [{| MountPoint := "/"; Destination := filesystemHandler "/srv/dist" None |}]
                   _)
                "unknown type ftp" eq_refl).
  repeat constructor.
Defined.

(** X6.  [main] listens only on a complete configuration: it calls
    [http.ListenAndServe] exactly when every endpoint string parses, on the
    address given and on the router of all the endpoints; otherwise some
    string is the first not to parse and the process ends there, fatally
    with the wrapped error or by the panic. *)
Theorem main_listens_iff_all_parse (env : Env) (args : Args) :
  (exists eps,
      Forall2 (fun e ep => parseEndpoint env e = Ok ep) (Endpoints args) eps
      /\ main env args = ListenAndServe (Listen args) (Start {| endpoints := eps |}))
  \/ (exists pre e post eps,
         Endpoints args = (pre ++ e :: post)%list
         /\ Forall2 (fun e ep => parseEndpoint env e = Ok ep) pre eps
         /\ ((exists err, parseEndpoint env e = Err err
                          /\ main env args
                             = Fatal ("unable to create webserver: unable to parse endpoint: "
                                        ++ err))
             \/ (exists msg, parseEndpoint env e = Panic msg
                             /\ main env args = Crash msg))).
Proof.
  destruct (first_failure env (Endpoints args))
    as [[eps F] | [pre [e [post [eps [E [F N]]]]]]].
  - left. exists eps. split; [exact F|]. unfold main.
    now rewrite (New_total env _ eps F).
  - right. exists pre, e, post, eps. split; [exact E|]. split; [exact F|].
    unfold main, New. rewrite E, (New_loop_stops env pre e post eps [] F).
    destruct (parseEndpoint env e) as [ep | err | msg] eqn:P.
    + now destruct (N ep).
    + left. exists err. split; reflexivity.
    + right. exists msg. split; reflexivity.
Qed.

(** X7.  Of several [404] endpoints the last declared is the fallback:
    after [Start] the router's not-found handler is the last endpoint with
    a [NotFoundFileHandler], behind the logging middleware, whatever its
    mount point; there is none exactly when no endpoint has that kind. *)
Theorem Start_last_notFound_wins (s : Server) :
  NotFoundHandler (Start s) = lastNotFound (endpoints s)
  /\ (NotFoundHandler (Start s) = None
      <-> forall e, In e (endpoints s) -> routable e = true)
  /\ (forall es m fp,
         endpoints s = (es ++ [{| MountPoint := m; Destination := NotFoundFileHandler fp |}])%list ->
         NotFoundHandler (Start s) = Some (LoggingMiddleware (NotFoundFileHandler fp))).
Proof.
  assert (E : NotFoundHandler (Start s) = lastNotFound (endpoints s)).
  { unfold Start. rewrite Start_route_notFound, Start_notFound_last.
    now destruct (lastNotFound (endpoints s)). }
  split; [exact E|]. split.
  - rewrite E. unfold lastNotFound.
    destruct (find (fun e => negb (routable e)) (rev (endpoints s))) as [e|] eqn:F.
    + split; [discriminate|]. intros H. apply find_some in F.
      destruct F as [Hin Hr]. apply in_rev in Hin. rewrite (H e Hin) in Hr.
      discriminate.
    + split; [|reflexivity]. intros _ e Hin.
      pose proof (find_none _ _ F e (proj1 (in_rev _ _) Hin)) as Hn.
      cbv beta in Hn. now destruct (routable e).
  - intros es m fp Hs. rewrite E, Hs. unfold lastNotFound.
    rewrite rev_app_distr. reflexivity.
Qed.

(** X8.  [Start] registers, in declaration order, one route per endpoint
    that is not a [404] endpoint, under the endpoint's mount point: a proxy
    as it was parsed, a static-file handler with the router's not-found
    handler as its fallback, also when the [404] endpoint is declared
    after it.  A [404] endpoint is never a route, whatever its mount
    point. *)
Theorem Start_routes_exact (s : Server) :
  routes (Start s)
  = map (fun e => (MountPoint e, wire (NotFoundHandler (Start s)) (Destination e)))
        (filter routable (endpoints s))
  /\ (forall m fp, ~ In (m, NotFoundFileHandler fp) (routes (Start s))).
Proof.
  assert (E : routes (Start s)
              = map (fun e => (MountPoint e,
                               wire (NotFoundHandler (Start s)) (Destination e)))
                    (filter routable (endpoints s))).
  { unfold Start. rewrite Start_route_exact, Start_notFound_routes.
    now rewrite Start_route_notFound. }
  split; [exact E|]. intros m fp Hin. rewrite E in Hin.
  apply in_map_iff in Hin. destruct Hin as [e [He Hf]].
  apply filter_In in Hf. destruct Hf as [_ Hr]. unfold routable in Hr.
  injection He as _ Hw. unfold wire in Hw.
  destruct (Destination e); try discriminate.
Qed.


(** X9.  The logging middleware is transparent: what the wrapped handler
    answers is what the client gets, header, status and body, and the
    effects are those of the wrapped handler after one log line made of
    the method and the request target. *)
Theorem LoggingMiddleware_transparent (env : Env) (next : Handler) (req : Request) :
  serve env (LoggingMiddleware next) req
  = {| writer := writer (serve env next req);
       trace := EvLog (Method req ++ " - " ++ RequestURI req ++ nl)
                  :: trace (serve env next req) |}.
Proof.
  unfold serve. cbn [ServeHTTP]. run.
  rewrite (ServeHTTP_frame env next req newWriter [_]). reflexivity.
Qed.

(** X10.  The static-file handler keeps its own file accesses behind the
    guard: every path it stats or opens has the root as a string prefix;
    any other file access of a request is one the fallback handler makes
    when the request is handed to it. *)
Theorem static_handler_touches_prefixed_paths (env : Env) (root : string)
        (nf : option Handler) (req : Request) (ev : Event) (name : string) :
  In ev (trace (serve env (filesystemHandler root nf) req)) ->
  touched ev = Some name ->
  HasPrefix name root = true
  \/ exists h, nf = Some h /\ In ev (trace (serve env h req)).
Proof.
  unfold serve. cbn [ServeHTTP].
  destruct (absFilePathOf env root req) as [p | err];
    [|run; intros [<- | []]; discriminate].
  destruct (HasPrefix p root) eqn:G; cbn [negb];
    [|run; intros [<- | []]; discriminate].
  run. destruct (Stat env p) as [isDir | err].
  - assert (G' : HasPrefix (if isDir then p ++ "/index.html" else p) root = true).
    { destruct isDir; [now apply HasPrefix_append_r | exact G]. }
    destruct (Open env (if isDir then p ++ "/index.html" else p)) as [f | err].
    + destruct (io_ReadAll f); run;
        (intros [<- | [<- | []]]; intros T; injection T as <-; now left).
    + destruct nf as [h |]; run.
      * rewrite (ServeHTTP_frame env h req newWriter [_; _; _]). cbn [trace app].
        intros [<- | [<- | [<- | Hin]]] T; try discriminate;
          try (injection T as <-; now left).
        right. exists h. now split.
      * intros [<- | [<- | [<- | []]]] T; try discriminate;
          injection T as <-; now left.
  - destruct nf as [h |]; run.
    + rewrite (ServeHTTP_frame env h req newWriter [_; _]). cbn [trace app].
      intros [<- | [<- | Hin]] T; try discriminate;
        try (injection T as <-; now left).
      right. exists h. now split.
    + intros [<- | [<- | []]] T; try discriminate; injection T as <-; now left.
Qed.

Lemma static_handler_touches_prefixed_paths_witness :
  HasPrefix "/srv/dist/index.html" "/srv/dist" = true
  \/ exists h, None = Some h
               /\ In (EvOpen "/srv/dist/index.html")
                     (trace (serve Sample.srv h (Sample.GET "/index.html" "/index.html" ""))).
Proof.
  refine (static_handler_touches_prefixed_paths Sample.srv "/srv/dist" None
            (Sample.GET "/index.html" "/index.html" "")
            (EvOpen "/srv/dist/index.html") "/srv/dist/index.html" _ eq_refl).
  right. left. reflexivity.
Defined.

(** X11.  A file that opens but cannot be read to its end is answered
    with status 500 and the body [Internal server error]: nothing of what
    was read is sent, no content type of the file is set, nothing is
    logged, and the fallback handler, if there is one, is not called. *)
Theorem read_error_is_500 (env : Env) (root : string) (nf : option Handler)
        (req : Request) (p : string) (isDir : bool) (f : File) (err : string) :
  absFilePathOf env root req = inl p ->
  HasPrefix p root = true ->
  Stat env p = inl isDir ->
  Open env (if isDir then p ++ "/index.html" else p) = inl f ->
  readErr f = Some err ->
  serve env (filesystemHandler root nf) req
  = {| writer := errorWriter 500 "Internal server error";
       trace := [EvStat p; EvOpen (if isDir then p ++ "/index.html" else p)] |}.
Proof.
  intros Hp Hg Hs Ho Hr. unfold serve. cbn [ServeHTTP]. rewrite Hp, Hg. cbn [negb].
  run. rewrite Hs. run. rewrite Ho. unfold io_ReadAll. rewrite Hr. reflexivity.
Qed.

Lemma read_error_is_500_witness :
  serve srv_read_error
        (filesystemHandler "/srv/dist" (Some (NotFoundFileHandler "/srv/404.html")))
        (Sample.GET "/" "/" "")
  = {| writer := errorWriter 500 "Internal server error";
       trace := [EvStat "/srv/dist"; EvOpen "/srv/dist/index.html"] |}.
Proof.
  exact (read_error_is_500 srv_read_error "/srv/dist"
           (Some (NotFoundFileHandler "/srv/404.html")) (Sample.GET "/" "/" "")
           "/srv/dist" true
           {| data := "<html>"; readErr := Some "input/output error" |}
           "input/output error" eq_refl eq_refl eq_refl eq_refl eq_refl).
Defined.

(** X12.  Without a fallback handler the static-file handler has four
    answers and no other: the whole content of a file that was stat'ed,
    opened and read without error under a path that passed the guard, with
    status 200 and the content type looked up for its extension; status
    500 with [Internal server error]; or status 404 with one of two fixed
    bodies. *)
Theorem static_answers_without_fallback (env : Env) (root : string) (req : Request) :
  let w := writer (serve env (filesystemHandler root None) req) in
  (exists p isDir f,
      absFilePathOf env root req = inl p
      /\ HasPrefix p root = true
      /\ Stat env p = inl isDir
      /\ Open env (if isDir then p ++ "/index.html" else p) = inl f
      /\ readErr f = None
      /\ w = {| Header :=
                  [("Content-Type",
                    TypeByExtension env
                      ("." ++ Filepath.Ext (if isDir then p ++ "/index.html" else p)))];
                wroteHeader := Some 200;
                Body := data f |})
  \/ w = errorWriter 500 "Internal server error"
  \/ w = notFoundWriter "404 - Not found"
  \/ w = notFoundWriter "404 - Not found (not found handler missing)".
Proof.
  cbv zeta. unfold serve. cbn [ServeHTTP].
  destruct (absFilePathOf env root req) as [p | err];
    [|right; right; left; reflexivity].
  destruct (HasPrefix p root) eqn:G; cbn [negb];
    [|right; right; left; reflexivity].
  run. destruct (Stat env p) as [isDir | err] eqn:S;
    [|right; right; right; reflexivity].
  destruct (Open env (if isDir then p ++ "/index.html" else p)) as [f | err] eqn:O;
    [|right; right; left; reflexivity].
  unfold io_ReadAll. destruct (readErr f) as [e |] eqn:Rd;
    [right; left; reflexivity|].
  left. exists p, isDir, f. now repeat split.
Qed.

(** X13.  A handler with an absolute root resolves every request, on
    every host: the three cleanings of the handler come down to one
    [Clean] of root, three separators and the request file, the result is
    absolute and clean, and the working directory is not asked for, so the
    [cannot get abs path] answer does not occur.  Every handler
    [newFSHandler] builds has an absolute root. *)
Theorem absolute_root_always_resolves (env : Env) (root : string) :
  (Filepath.IsAbs root = true ->
   forall (env' : Env) (req : Request),
     let p := Filepath.Clean (root ++ "/" ++ "/" ++ "/" ++ requestFile req) in
     absFilePathOf env' root req = inl p
     /\ Filepath.IsAbs p = true /\ Filepath.Clean p = p)
  /\ ((forall wd, Getwd env = inl wd -> Filepath.IsAbs wd = true) ->
      forall path nf, newFSHandler env path = Ok (filesystemHandler root nf) ->
                      Filepath.IsAbs root = true).
Proof.
  split.
  - intros A env' req. cbv zeta. split; [now apply absFilePathOf_absolute|].
    apply Clean_rooted_idempotent. now apply IsAbs_append.
  - intros Hwd path nf H. now destruct (newFSHandler_root env path root nf Hwd H).
Qed.

Lemma absolute_root_always_resolves_witness :
  absFilePathOf Sample.srv "/home/dev/dist" (Sample.GET "/a/../b/" "/a/../b/" "")
  = inl "/home/dev/dist/b"
  /\ newFSHandler Sample.srv "./dist/" = Ok (filesystemHandler "/home/dev/dist" None).
Proof.
  pose proof (absolute_root_always_resolves Sample.srv "/home/dev/dist") as [H1 H2].
  assert (A : Filepath.IsAbs "/home/dev/dist" = true).
  { apply (H2 (fun wd E => match E in _ = y return
                                   match y with
                                   | inl wd => Filepath.IsAbs wd = true
                                   | inr _ => True
                                   end
                             with eq_refl => eq_refl end)
              "./dist/" None eq_refl). }
  split; [|reflexivity].
  exact (proj1 (H1 A Sample.srv (Sample.GET "/a/../b/" "/a/../b/" ""))).
Defined.

(** X14.  A request target that is itself a clean absolute path, other
    than [/], resolves to the root followed by the target, for every clean
    absolute root other than [/]: that path lies inside the root, and it
    is the first thing the handler stats. *)
Theorem clean_target_resolves_below_root (env : Env) (root : string)
        (nf : option Handler) (req : Request) :
  Filepath.IsAbs root = true -> Filepath.Clean root = root -> root <> "/" ->
  Filepath.IsAbs (RequestURI req) = true ->
  Filepath.Clean (RequestURI req) = RequestURI req ->
  RequestURI req <> "/" ->
  absFilePathOf env root req = inl (root ++ RequestURI req)
  /\ within_root root (root ++ RequestURI req) = true
  /\ exists evs,
       trace (serve env (filesystemHandler root nf) req)
       = EvStat (root ++ RequestURI req) :: evs.
Proof.
  intros AR CR NR AU CU NU.
  assert (E : absFilePathOf env root req = inl (root ++ RequestURI req)).
  { rewrite (absFilePathOf_absolute env root req AR).
    destruct (rooted_string _ AU) as [u Eu].
    destruct u as [|c u]; [now rewrite Eu in NU|].
    assert (F : requestFile req = String c u).
    { unfold requestFile. rewrite Eu.
      change (HasPrefix (String slash (String c u)) "/") with true. cbv iota.
      change (slice_from (String slash (String c u)) 1) with (slice_from (String c u) 0).
      now rewrite slice_from_0. }
    rewrite F.
    change (root ++ "/" ++ "/" ++ "/" ++ String c u)
      with (root ++ "/" ++ "/" ++ String slash (String c u)).
    rewrite <- Eu. now rewrite Clean_onto_root. }
  split; [exact E|]. split.
  - unfold within_root. destruct (String.eqb_spec root "/") as [-> | _]; [congruence|].
    destruct (rooted_string _ AU) as [u ->].
    change (root ++ String slash u) with (root ++ "/" ++ u).
    rewrite <- append_assoc, HasPrefix_append. apply orb_true_r.
  - apply (traversal_guard_accepts env root nf req _ E). apply HasPrefix_append.
Qed.

Lemma clean_target_resolves_below_root_witness :
  absFilePathOf Sample.srv "/srv/dist" (Sample.GET "/index.html" "/index.html" "")
  = inl "/srv/dist/index.html".
Proof.
  refine (proj1 (clean_target_resolves_below_root Sample.srv "/srv/dist" None
                   (Sample.GET "/index.html" "/index.html" "")
                   eq_refl eq_refl _ eq_refl eq_refl _)); discriminate.
Defined.

(** X15.  A separator put after the request target changes nothing: the
    target with and without it resolve to the same path under an absolute
    root, so a handler without a fallback gives [/docs/] and [/docs] the
    same answer, and a directory is not redirected to. *)
Theorem trailing_slash_is_ignored (env : Env) (root : string) (req req' : Request) :
  Filepath.IsAbs root = true ->
  RequestURI req' = RequestURI req ++ "/" ->
  absFilePathOf env root req' = absFilePathOf env root req
  /\ writer (serve env (filesystemHandler root None) req')
     = writer (serve env (filesystemHandler root None) req).
Proof.
  intros A E.
  assert (R : absFilePathOf env root req' = absFilePathOf env root req).
  { rewrite !(absFilePathOf_absolute env root _ A).
    assert (T : forall t, Filepath.Clean ((root ++ t) ++ "/") = Filepath.Clean (root ++ t))
      by (intros t; apply Clean_trailing_slash; now apply IsAbs_append).
    assert (M : Filepath.Clean (root ++ "/" ++ "/" ++ "/" ++ "./") = Filepath.Clean root).
    { apply (Clean_root_marker root). intros ->. discriminate. }
    destruct (requestFile_trailing_slash req req' E)
      as [-> | [[-> _] | [[-> ->] | [-> ->]]]].
    - reflexivity.
    - pose proof (T ("/" ++ "/" ++ "/" ++ requestFile req)) as T1.
      rewrite !append_assoc in T1. cbn [append] in T1 |- *. now rewrite T1.
    - rewrite M. pose proof (T "///") as T1. rewrite append_assoc in T1.
      cbn [append] in T1 |- *. rewrite T1.
      pose proof (T "//") as T2. rewrite append_assoc in T2.
      cbn [append] in T2. rewrite T2.
      pose proof (T "/") as T3. rewrite append_assoc in T3.
      cbn [append] in T3. rewrite T3.
      pose proof (T "") as T4. rewrite append_assoc in T4.
      cbn [append] in T4. rewrite T4. now rewrite append_empty_r.
    - pose proof (T ("/" ++ "/" ++ "/" ++ "./")) as T1.
      rewrite !append_assoc in T1. cbn [append] in T1 |- *. now rewrite T1. }
  split; [exact R | now apply writer_by_resolution].
Qed.

Lemma trailing_slash_is_ignored_witness :
  absFilePathOf Sample.srv "/srv/dist" (Sample.GET "/index.html/" "/index.html/" "")
  = absFilePathOf Sample.srv "/srv/dist" (Sample.GET "/index.html" "/index.html" "").
Proof.
  exact (proj1 (trailing_slash_is_ignored Sample.srv "/srv/dist"
                  (Sample.GET "/index.html" "/index.html" "")
                  (Sample.GET "/index.html/" "/index.html/" "") eq_refl eq_refl)).
Defined.

(** X16.  In the map-keyed revision [New] keeps one handler per mount
    point, the one declared last: after a list of strings that all parse,
    a mount point looks up the destination of the last endpoint declared
    under it, and a mount point nobody declared looks up nothing. *)
Theorem mapkeyed_New_lookup (env : Env) (es : list string) (eps : list Endpoint) :
  Forall2 (fun e ep => MapKeyed.parseEndpoint env e = Ok ep) es eps ->
  exists s,
    MapKeyed.New env es = Ok s
    /\ forall k,
        MapKeyed.endpoints s k
        = option_map Destination
            (find (fun ep => String.eqb k (MountPoint ep)) (rev eps)).
Proof.
  intros F. unfold MapKeyed.New.
  destruct (mapkeyed_New_loop_lookup env es eps F MapKeyed.map_empty) as [s [Hs Hk]].
  exists s. split; [exact Hs|]. intros k. rewrite Hk.
  now destruct (find (fun ep => String.eqb k (MountPoint ep)) (rev eps)).
Qed.

Lemma mapkeyed_New_lookup_witness :
  exists s,
    MapKeyed.New Sample.srv ["/:file=/srv/a"; "/x:404=/srv/404.html"; "/:file=/srv/b"] = Ok s
    /\ forall k,
        MapKeyed.endpoints s k
        = option_map Destination
            (find (fun ep => String.eqb k (MountPoint ep))
                  (rev [{| MountPoint := "/"; Destination := filesystemHandler "/srv/a" None |};
                        {| MountPoint := "/x"; Destination := NotFoundFileHandler "/srv/404.html" |};
                        {| MountPoint := "/"; Destination := filesystemHandler "/srv/b" None |}])).
Proof.
  apply (mapkeyed_New_lookup Sample.srv). repeat constructor.
Defined.

(** X17.  On an absolute root the two revisions of the static-file
    handler do the same to the same request, file accesses and log lines
    included, when the fallback is one [Start] wires; they differ in one
    answer only: without a fallback, when [os.Stat] fails, the map-keyed
    revision says [404 - Not found] where the other says
    [404 - Not found (not found handler missing)]. *)
Theorem revisions_agree_on_absolute_roots (env : Env) (root : string)
        (nf : option Handler) (req : Request) :
  Filepath.IsAbs root = true ->
  wired_fallback nf ->
  MapKeyed.serve env (filesystemHandler root nf) req
  = serve env (filesystemHandler root nf) req
  \/ (nf = None
      /\ (exists p err, absFilePathOf env root req = inl p /\ Stat env p = inr err)
      /\ trace (MapKeyed.serve env (filesystemHandler root nf) req)
         = trace (serve env (filesystemHandler root nf) req)
      /\ writer (MapKeyed.serve env (filesystemHandler root nf) req)
         = notFoundWriter "404 - Not found"
      /\ writer (serve env (filesystemHandler root nf) req)
         = notFoundWriter "404 - Not found (not found handler missing)").
Proof.
  intros A W. unfold MapKeyed.serve, serve. cbn [MapKeyed.ServeHTTP ServeHTTP].
  pose proof (absFilePathOf_absolute env root req A) as R.
  rewrite R, (mapkeyed_resolution root req A).
  change (MapKeyed.FromSlash root) with root.
  set (p := Filepath.Clean (root ++ "/" ++ "/" ++ "/" ++ requestFile req)) in *.
  destruct (HasPrefix p root); cbn [negb]; [|now left].
  run. destruct (Stat env p) as [isDir | err] eqn:S.
  - left. destruct (Open env (if isDir then p ++ "/index.html" else p)) as [f | err];
      [reflexivity|].
    destruct W as [-> | [fp ->]]; reflexivity.
  - destruct W as [-> | [fp ->]]; [right | left; reflexivity].
    split; [reflexivity|]. split; [now exists p, err|]. now repeat split.
Qed.

Lemma revisions_agree_on_absolute_roots_witness :
  MapKeyed.serve Sample.srv (filesystemHandler "/srv/dist" None)
    (Sample.GET "/index.html" "/index.html" "")
  = serve Sample.srv (filesystemHandler "/srv/dist" None)
      (Sample.GET "/index.html" "/index.html" "").
Proof.
  destruct (revisions_agree_on_absolute_roots Sample.srv "/srv/dist" None
              (Sample.GET "/index.html" "/index.html" "") eq_refl (or_introl eq_refl))
    as [E | [_ [[p [err [Hp Hs]]] _]]]; [exact E|].
  injection Hp as <-. discriminate Hs.
Defined.

(** X18.  In the map-keyed revision a [file] endpoint whose path is
    written with a leading [./], as in [/:file=./dist/], serves nothing:
    the path is kept as written, what [Clean] returns never begins with
    [./], so no request passes the guard and every request is answered
    404 as a path traversal, with no file stat'ed or opened and no
    fallback called. *)
Theorem mapkeyed_dot_slash_root_serves_nothing (env : Env) (m a : string) :
  Index m ":" = None ->
  HasPrefix a "./" = true ->
  MapKeyed.parseEndpoint env (m ++ ":file=" ++ a)
  = Ok {| MountPoint := m; Destination := filesystemHandler a None |}
  /\ forall (nf : option Handler) (req : Request),
       MapKeyed.serve env (filesystemHandler a nf) req
       = {| writer := notFoundWriter "404 - Not found";
            trace := [EvLog ("path traversal: "
                               ++ Filepath.Clean
                                    (Filepath.Join [a; "/"; requestFile req]))] |}.
Proof.
  intros Hm Ha. split; [now apply mapkeyed_parse_file|]. intros nf req.
  apply (mapkeyed_guard_rejects env a nf req).
  destruct (HasPrefix (Filepath.Clean (Filepath.Join [a; "/"; requestFile req])) a)
    eqn:G; [|reflexivity].
  pose proof (HasPrefix_trans _ _ _ G Ha) as C.
  now rewrite Clean_no_dot_slash in C.
Qed.

Lemma mapkeyed_dot_slash_root_serves_nothing_witness :
  MapKeyed.serve Sample.srv (filesystemHandler "./dist/" None)
    (Sample.GET "/index.html" "/index.html" "")
  = {| writer := notFoundWriter "404 - Not found";
       trace := [EvLog "path traversal: dist/index.html"] |}.
Proof.
  exact (proj2 (mapkeyed_dot_slash_root_serves_nothing Sample.srv "/" "./dist/"
                  eq_refl eq_refl)
               None (Sample.GET "/index.html" "/index.html" "")).
Defined.

(** X19.  In the map-keyed revision an absolute root that is not written
    in clean form (a separator at its end, a doubled separator, a [.] or
    [..] element) does not serve its own index: the request for [/]
    resolves to the cleaned root, which does not have the root as written
    as a prefix, and is answered 404 as a path traversal. *)
Theorem mapkeyed_unclean_root_hides_index (env : Env) (root : string)
        (nf : option Handler) (req : Request) :
  Filepath.IsAbs root = true ->
  Filepath.Clean root <> root ->
  RequestURI req = "/" \/ RequestURI req = "" ->
  MapKeyed.serve env (filesystemHandler root nf) req
  = {| writer := notFoundWriter "404 - Not found";
       trace := [EvLog ("path traversal: " ++ Filepath.Clean root)] |}.
Proof.
  intros A N U.
  assert (F : requestFile req = "./")
    by (unfold requestFile; destruct U as [-> | ->]; reflexivity).
  assert (Nr : root <> "") by (intros ->; discriminate).
  assert (P : Filepath.Clean (Filepath.Join [root; "/"; requestFile req])
              = Filepath.Clean root).
  { pose proof (mapkeyed_resolution root req A) as R.
    unfold MapKeyed.FromSlash in R. rewrite R, F.
    exact (Clean_root_marker root Nr). }
  pose proof (mapkeyed_guard_rejects env root nf req) as G. cbv zeta in G.
  rewrite P in G. apply G.
  destruct (HasPrefix (Filepath.Clean root) root) eqn:H; [|reflexivity].
  now destruct (N (Clean_prefix_fixed root Nr H)).
Qed.

Lemma mapkeyed_unclean_root_hides_index_witness :
  MapKeyed.serve Sample.srv (filesystemHandler "/srv/dist/" None) (Sample.GET "/" "/" "")
  = {| writer := notFoundWriter "404 - Not found";
       trace := [EvLog "path traversal: /srv/dist"] |}.
Proof.
  refine (mapkeyed_unclean_root_hides_index Sample.srv "/srv/dist/" None
            (Sample.GET "/" "/" "") eq_refl _ (or_introl eq_refl)).
  discriminate.
Defined.

(** X20.  Leaving the root takes a [..] element: when no element of the
    request target is [..], the target resolves to the root or to a path
    below it, for every clean absolute root; the guard lets the request
    through, and every file the handler itself stats or opens for it lies
    inside the root; what else is touched is the fallback handler's
    doing. *)
Theorem dotdot_free_target_stays_inside (env : Env) (root : string)
        (nf : option Handler) (req : Request) :
  Filepath.IsAbs root = true -> Filepath.Clean root = root ->
  dotdot_free true (list_ascii_of_string (RequestURI req)) = true ->
  (exists p, absFilePathOf env root req = inl p
             /\ within_root root p = true /\ HasPrefix p root = true)
  /\ forall ev name,
       In ev (trace (serve env (filesystemHandler root nf) req)) ->
       touched ev = Some name ->
       within_root root name = true
       \/ exists h, nf = Some h /\ In ev (trace (serve env h req)).
Proof.
  intros A C H.
  pose proof (absFilePathOf_absolute env root req A) as R.
  pose proof (Clean_below_root root (requestFile req) A C
                (requestFile_dotdot_free req H)) as W.
  split; [eexists; split; [exact R | split; [exact W|]]|].
  { now apply within_root_HasPrefix. }
  intros ev name Hin T.
  destruct (static_own_accesses env root nf req _ ev name R Hin T)
    as [[-> | ->] | B]; [left; exact W | left | right; exact B].
  now apply within_root_below.
Qed.

Lemma dotdot_free_target_stays_inside_witness :
  exists p, absFilePathOf Sample.srv "/srv/dist"
              (Sample.GET "/a/./b//..c/index.html" "/a/./b//..c/index.html" "") = inl p
            /\ within_root "/srv/dist" p = true /\ HasPrefix p "/srv/dist" = true.
Proof.
  exact (proj1 (dotdot_free_target_stays_inside Sample.srv "/srv/dist" None
                  (Sample.GET "/a/./b//..c/index.html" "/a/./b//..c/index.html" "")
                  eq_refl eq_refl eq_refl)).
Defined.

(** X21.  [Start] of the map-keyed revision follows the map's iteration
    order, which Go leaves open: for every order of the first loop and
    every order of the second, the not-found handler is the last [404]
    entry the first loop visits, always an entry of the map; the routes
    are the entries that are not [404] entries, each once, in the order
    the second loop visits them, the static-file handlers with that
    not-found handler as fallback; and the map afterwards holds every
    handler as it was registered. *)
Theorem mapkeyed_Start_in_iteration_order (s : MapKeyed.Server)
        (o1 o2 : list (string * Handler)) :
  MapKeyedStart.ranges (MapKeyed.endpoints s) o1 ->
  MapKeyedStart.ranges (MapKeyed.endpoints s) o2 ->
  let r := fst (MapKeyedStart.Start s o1 o2) in
  NotFoundHandler r = lastNotFound (map MapKeyedStart.entry o1)
  /\ (forall fp, NotFoundHandler r = Some (LoggingMiddleware (NotFoundFileHandler fp)) ->
                 exists k, MapKeyed.endpoints s k = Some (NotFoundFileHandler fp))
  /\ routes r
     = map (fun ke => (fst ke, wire (NotFoundHandler r) (snd ke)))
           (filter (fun ke => routable (MapKeyedStart.entry ke)) o2)
  /\ (forall k h,
         MapKeyed.endpoints s k = Some h ->
         routable {| MountPoint := k; Destination := h |} = true ->
         In (k, wire (NotFoundHandler r) h) (routes r))
  /\ forall k,
       snd (MapKeyedStart.Start s o1 o2) k
       = option_map (wire (NotFoundHandler r)) (MapKeyed.endpoints s k).
Proof.
  intros R1 R2. cbv zeta. unfold MapKeyedStart.Start.
  rewrite mapkeyed_route_loop, mapkeyed_notFound_loop.
  set (r1 := fold_left Start_notFound (map MapKeyedStart.entry o1) NewRouter).
  assert (N : NotFoundHandler (fold_left Start_route (map MapKeyedStart.entry o2) r1)
              = lastNotFound (map MapKeyedStart.entry o1)).
  { rewrite Start_route_notFound. unfold r1. rewrite Start_notFound_last.
    now destruct (lastNotFound (map MapKeyedStart.entry o1)). }
  assert (N1 : NotFoundHandler r1 = lastNotFound (map MapKeyedStart.entry o1)).
  { now rewrite <- N, Start_route_notFound. }
  assert (E : routes (fold_left Start_route (map MapKeyedStart.entry o2) r1)
              = map (fun ke => (fst ke, wire (lastNotFound (map MapKeyedStart.entry o1))
                                          (snd ke)))
                    (filter (fun ke => routable (MapKeyedStart.entry ke)) o2)).
  { rewrite Start_route_exact. unfold r1 at 1. rewrite Start_notFound_routes.
    cbn [routes NewRouter app]. rewrite filter_map_entry, map_map, N1. reflexivity. }
  rewrite N. split; [reflexivity|]. split; [|split; [exact E|split]].
  - intros fp H. unfold lastNotFound in H.
    destruct (find (fun e => negb (routable e)) (rev (map MapKeyedStart.entry o1)))
      as [e|] eqn:F; [|discriminate].
    injection H as H. apply find_some in F. destruct F as [Hin _].
    apply in_rev in Hin. apply in_map_iff in Hin. destruct Hin as [[k h] [<- Hin]].
    cbn [MapKeyedStart.entry Destination snd] in H. subst h.
    exists k. now apply (proj2 R1).
  - intros k h Hk Hr. rewrite E.
    apply (in_map (fun ke => (fst ke, wire (lastNotFound (map MapKeyedStart.entry o1))
                                        (snd ke))) _ (k, h)).
    apply filter_In. split; [now apply (proj2 R2) | exact Hr].
  - intros k.
    rewrite (mapkeyed_route_writeback o2 r1 (MapKeyed.endpoints s) (proj1 R2)
               (fun k h Hin => proj1 (proj2 R2 k h) Hin) k).
    rewrite N1. destruct (existsb (String.eqb k) (map fst o2)) eqn:X; [reflexivity|].
    now rewrite (ranges_key _ o2 k R2 X).
Qed.

Lemma mapkeyed_Start_in_iteration_order_witness :
  let u := {| Scheme := "http"; Host := "127.0.0.1:8080"; Path := ""; RawQuery := "" |} in
  let m := MapKeyed.map_store
             (MapKeyed.map_store
                (MapKeyed.map_store MapKeyed.map_empty "/" (filesystemHandler "/srv/dist" None))
                "404" (NotFoundFileHandler "/srv/404.html"))
             "/api" (ReverseProxy u) in
  routes (fst (MapKeyedStart.Start {| MapKeyed.endpoints := m |}
                 [("/", filesystemHandler "/srv/dist" None);
                  ("404", NotFoundFileHandler "/srv/404.html");
                  ("/api", ReverseProxy u)]
                 [("/", filesystemHandler "/srv/dist" None);
                  ("/api", ReverseProxy u);
                  ("404", NotFoundFileHandler "/srv/404.html")]))
  = [("/", filesystemHandler "/srv/dist"
             (Some (LoggingMiddleware (NotFoundFileHandler "/srv/404.html"))));
     ("/api", ReverseProxy u)].
Proof.
  intros u m.
  assert (K : forall k h,
             m k = Some h ->
             (k, h) = ("/", filesystemHandler "/srv/dist" None)
             \/ (k, h) = ("404", NotFoundFileHandler "/srv/404.html")
             \/ (k, h) = ("/api", ReverseProxy u)).
  { intros k h. unfold m, MapKeyed.map_store, MapKeyed.map_empty.
    destruct (String.eqb_spec k "/api") as [-> | _];
      [intros E; injection E as <-; tauto|].
    destruct (String.eqb_spec k "404") as [-> | _];
      [intros E; injection E as <-; tauto|].
    destruct (String.eqb_spec k "/") as [-> | _];
      [intros E; injection E as <-; tauto | discriminate]. }
  assert (R1 : MapKeyedStart.ranges m
                 [("/", filesystemHandler "/srv/dist" None);
                  ("404", NotFoundFileHandler "/srv/404.html");
                  ("/api", ReverseProxy u)]).
  { split.
    - repeat constructor; cbn; intuition discriminate.
    - intros k h. split.
      + intros [E | [E | [E | []]]]; injection E as <- <-; reflexivity.
      + intros H. destruct (K k h H) as [E | [E | E]]; rewrite E; cbn; tauto. }
  assert (R2 : MapKeyedStart.ranges m
                 [("/", filesystemHandler "/srv/dist" None);
                  ("/api", ReverseProxy u);
                  ("404", NotFoundFileHandler "/srv/404.html")]).
  { split.
    - repeat constructor; cbn; intuition discriminate.
    - intros k h. split.
      + intros [E | [E | [E | []]]]; injection E as <- <-; reflexivity.
      + intros H. destruct (K k h H) as [E | [E | E]]; rewrite E; cbn; tauto. }
  exact (proj1 (proj2 (proj2 (mapkeyed_Start_in_iteration_order
                                {| MapKeyed.endpoints := m |} _ _ R1 R2)))).
Defined.
